(** * streamtos3: multipart streaming upload to S3

    A shallow embedding of [streamtos3.py] (functions [clean_up],
    [check_integrity], [do_upload] and the tail of [upload]; in module
    [Cli] the front end [parse_keyfile], [create_client],
    [check_file_or_stdin] and the whole of [upload]) together with the
    properties of the chunked-upload loop, the retry loop, the composite
    ETag check and the exit statuses of the command.

    Conventions of the embedding:
    - Python [bytes] is [list byte], Python [str] is [list ascii], Python
      [int] is [Z] (or [nat] for counts that start at 0 and only grow).
    - The boto3 client is an arbitrary state machine: each operation maps
      the client state to a response (a value, or [ClientError]) and a new
      client state.
    - A run threads a [world]: the client state, the unread rest of the
      input stream and the log of the external calls made so far, each
      logged with the response it got.
    - [sys.exit(n)] and uncaught exceptions are outcomes of a computation.
    - Console output ([print]) is not part of the model. *)

From Stdlib Require Import ZArith List Bool Lia Arith Sorting.Sorted.
From Stdlib Require Import Strings.Ascii Strings.String Strings.Byte.
Import ListNotations.

Local Open Scope Z_scope.

(** ** Python values *)

Definition bytes := list byte.
Definition str := list ascii.

(** A string literal as a Python [str]. *)
Definition lit (s : string) : str := list_ascii_of_string s.

(** The double quote character, code 34. *)
Definition dquote : ascii := "034"%char.

Definition byte_of_Z (z : Z) : byte :=
  match Byte.of_N (Z.to_N (z mod 256)) with
  | Some b => b
  | None => x00
  end.

Definition Z_of_byte (b : byte) : Z := Z.of_N (Byte.to_N b).

(** *** [s[1:-1]] *)

Definition slice_1_m1 (s : str) : str := removelast (tl s).

(** *** [s.strip(chars)], with [chars] given as a membership test *)

Fixpoint lstrip (p : ascii -> bool) (s : str) : str :=
  match s with
  | [] => []
  | c :: s' => if p c then lstrip p s' else s
  end.

Definition rstrip (p : ascii -> bool) (s : str) : str :=
  rev (lstrip p (rev s)).

Definition strip (p : ascii -> bool) (s : str) : str :=
  rstrip p (lstrip p s).

Definition is_dquote (c : ascii) : bool := Ascii.eqb c dquote.

(** *** [str(n)] for a non-negative [int], as used by an f-string *)

Definition digit_char (d : nat) : ascii :=
  ascii_of_nat (48 + d).

Fixpoint str_of_nat_aux (fuel n : nat) (acc : str) : str :=
  let acc' := digit_char (n mod 10) :: acc in
  match fuel with
  | O => acc'
  | S f => if (n <? 10)%nat then acc' else str_of_nat_aux f (n / 10) acc'
  end.

Definition str_of_nat (n : nat) : str := str_of_nat_aux n n [].

(** *** [bytes.hex()] *)

Definition hex_char (d : Z) : ascii :=
  nth (Z.to_nat d) (lit "0123456789abcdef") "0"%char.

Definition hex_of_byte (b : byte) : str :=
  let n := Z_of_byte b in [hex_char (n / 16); hex_char (n mod 16)].

Definition hex (bs : bytes) : str := flat_map hex_of_byte bs.

(** *** [base64.b64encode(bs).decode("utf-8")] *)

Definition b64_char (d : Z) : ascii :=
  nth (Z.to_nat d)
    (lit "ABCDEFGHIJKLMNOPQRSTUVWXYZabcdefghijklmnopqrstuvwxyz0123456789+/")
    "A"%char.

Definition b64_pad : ascii := "="%char.

Fixpoint b64encode (bs : bytes) : str :=
  match bs with
  | [] => []
  | [a] =>
      let n := Z_of_byte a * 65536 in
      [b64_char (n / 262144); b64_char (n / 4096 mod 64); b64_pad; b64_pad]
  | [a; b] =>
      let n := Z_of_byte a * 65536 + Z_of_byte b * 256 in
      [b64_char (n / 262144); b64_char (n / 4096 mod 64);
       b64_char (n / 64 mod 64); b64_pad]
  | a :: b :: c :: rest =>
      let n := Z_of_byte a * 65536 + Z_of_byte b * 256 + Z_of_byte c in
      b64_char (n / 262144) :: b64_char (n / 4096 mod 64)
        :: b64_char (n / 64 mod 64) :: b64_char (n mod 64) :: b64encode rest
  end.

(** ** hashlib.md5

    The digest function is MD5 as in RFC 1321. A hash object is modelled by
    the data fed to it so far: [update] appends, and [digest] hashes what
    was fed (hashlib: repeated [update] calls are equivalent to one call
    with the concatenation of the arguments). *)

Module MD5.

Definition mask32 : Z := 4294967295.

Definition add32 (a b : Z) : Z := Z.land (a + b) mask32.

Definition rotl32 (x c : Z) : Z :=
  Z.land (Z.lor (Z.shiftl x c) (Z.shiftr x (32 - c))) mask32.

Definition not32 (x : Z) : Z := Z.lxor x mask32.

Definition K : list Z :=
  [3614090360; 3905402710; 606105819; 3250441966;
   4118548399; 1200080426; 2821735955; 4249261313;
   1770035416; 2336552879; 4294925233; 2304563134;
   1804603682; 4254626195; 2792965006; 1236535329;
   4129170786; 3225465664; 643717713; 3921069994;
   3593408605; 38016083; 3634488961; 3889429448;
   568446438; 3275163606; 4107603335; 1163531501;
   2850285829; 4243563512; 1735328473; 2368359562;
   4294588738; 2272392833; 1839030562; 4259657740;
   2763975236; 1272893353; 4139469664; 3200236656;
   681279174; 3936430074; 3572445317; 76029189;
   3654602809; 3873151461; 530742520; 3299628645;
   4096336452; 1126891415; 2878612391; 4237533241;
   1700485571; 2399980690; 4293915773; 2240044497;
   1873313359; 4264355552; 2734768916; 1309151649;
   4149444226; 3174756917; 718787259; 3951481745].

Definition shifts : list Z :=
  [7; 12; 17; 22; 7; 12; 17; 22; 7; 12; 17; 22; 7; 12; 17; 22;
   5; 9; 14; 20; 5; 9; 14; 20; 5; 9; 14; 20; 5; 9; 14; 20;
   4; 11; 16; 23; 4; 11; 16; 23; 4; 11; 16; 23; 4; 11; 16; 23;
   6; 10; 15; 21; 6; 10; 15; 21; 6; 10; 15; 21; 6; 10; 15; 21].

Definition regs : Type := (Z * Z * Z * Z)%type.

Definition init : regs := (1732584193, 4023233417, 2562383102, 271733878).

Definition round (m : list Z) (r : regs) (i : nat) : regs :=
  let '(a, b, c, d) := r in
  let iz := Z.of_nat i in
  let '(f, g) :=
    if (i <? 16)%nat then
      (Z.lor (Z.land b c) (Z.land (not32 b) d), iz)
    else if (i <? 32)%nat then
      (Z.lor (Z.land d b) (Z.land (not32 d) c), (5 * iz + 1) mod 16)
    else if (i <? 48)%nat then
      (Z.lxor (Z.lxor b c) d, (3 * iz + 5) mod 16)
    else
      (Z.lxor c (Z.lor b (not32 d)), (7 * iz) mod 16) in
  let f' := add32 (add32 (add32 f a) (nth i K 0)) (nth (Z.to_nat g) m 0) in
  (d, add32 b (rotl32 f' (nth i shifts 0)), b, c).

Definition block (r : regs) (m : list Z) : regs :=
  let '(a0, b0, c0, d0) := r in
  let '(a, b, c, d) := fold_left (round m) (seq 0 64) r in
  (add32 a0 a, add32 b0 b, add32 c0 c, add32 d0 d).

(** Little-endian 32-bit words of a byte string. *)
Fixpoint words (bs : bytes) : list Z :=
  match bs with
  | a :: b :: c :: d :: rest =>
      (Z_of_byte a + 256 * Z_of_byte b + 65536 * Z_of_byte c
       + 16777216 * Z_of_byte d) :: words rest
  | _ => []
  end.

Definition le_bytes (n : nat) (z : Z) : bytes :=
  map (fun i => byte_of_Z (Z.shiftr z (8 * Z.of_nat i))) (seq 0 n).

Definition pad (msg : bytes) : bytes :=
  let len := Z.of_nat (List.length msg) in
  let zeros := Z.to_nat ((55 - len) mod 64) in
  msg ++ [x80] ++ repeat x00 zeros ++ le_bytes 8 ((8 * len) mod 2 ^ 64).

Fixpoint blocks (fuel : nat) (r : regs) (ws : list Z) : regs :=
  match fuel with
  | O => r
  | S f =>
      match ws with
      | [] => r
      | _ => blocks f (block r (firstn 16 ws)) (skipn 16 ws)
      end
  end.

Definition digest (msg : bytes) : bytes :=
  let ws := words (pad msg) in
  let '(a, b, c, d) := blocks (List.length ws) init ws in
  le_bytes 4 a ++ le_bytes 4 b ++ le_bytes 4 c ++ le_bytes 4 d.

End MD5.

Definition md5_digest : bytes -> bytes := MD5.digest.

(** [b"..."]: the bytes of an ASCII literal. *)
Definition blit (s : string) : bytes := list_byte_of_string s.

(** Equality of Python strings. *)
Fixpoint str_eqb (a b : str) : bool :=
  match a, b with
  | [], [] => true
  | x :: a', y :: b' => Ascii.eqb x y && str_eqb a' b'
  | _, _ => false
  end.

(** A [hashlib.md5] object: the data fed to it so far. *)
Record md5_obj : Type := { fed : bytes }.

Definition hashlib_md5 (data : bytes) : md5_obj := {| fed := data |}.

Definition md5_update (h : md5_obj) (data : bytes) : md5_obj :=
  {| fed := fed h ++ data |}.

Definition digest (h : md5_obj) : bytes := md5_digest (fed h).

Definition hexdigest (h : md5_obj) : str := hex (digest h).

(** ** The S3 client *)

(** What a client call does: it returns a value or raises
    [botocore.exceptions.ClientError]. *)
Inductive response (A : Type) : Type :=
| Ok (a : A)
| ClientErr.
Arguments Ok {A} a.
Arguments ClientErr {A}.

(** An entry of [parts]: [{"PartNumber": num, "ETag": part["ETag"]}]. *)
Record part : Type := { PartNumber : nat; ETag : str }.

(** The keyword arguments of [client.upload_part]. *)
Record upload_part_args : Type := {
  up_Bucket : str;
  up_Body : bytes;
  up_ContentLength : nat;
  up_ContentMD5 : str;
  up_PartNumber : nat;
  up_UploadId : str;
  up_Key : str
}.

(** The operations of the client that the program uses, over a client
    state [St]. Responses are reduced to the field the program reads:
    ["UploadId"] of [create_multipart_upload], ["ETag"] of [upload_part]
    and of [head_object]. *)
Record S3Client (St : Type) : Type := {
  create_multipart_upload : str -> str -> St -> response str * St;
  upload_part : upload_part_args -> St -> response str * St;
  complete_multipart_upload :
    str -> str -> str -> list part -> St -> response unit * St;
  abort_multipart_upload : str -> str -> str -> St -> response unit * St;
  head_object : str -> str -> St -> response str * St
}.
Arguments create_multipart_upload {St}.
Arguments upload_part {St}.
Arguments complete_multipart_upload {St}.
Arguments abort_multipart_upload {St}.
Arguments head_object {St}.

(** ** Runs: worlds, events, outcomes *)

(** External calls, in the order they are made, each with its response. *)
Inductive event : Type :=
| create_ev (Bucket Key : str) (r : response str)
| read_ev (size : Z) (chunk : bytes)
| upload_part_ev (args : upload_part_args) (r : response str)
| sleep_ev (secs : Z)
| abort_ev (Bucket Key UploadId : str) (r : response unit)
| complete_ev (Bucket UploadId Key : str) (Parts : list part)
    (r : response unit)
| head_object_ev (Bucket Key : str) (r : response str).

Record world (St : Type) : Type := {
  cst : St;            (* state of the client *)
  buf : bytes;         (* what is left to read of the input stream *)
  log : list event     (* the calls made so far, oldest first *)
}.
Arguments cst {St}.
Arguments buf {St}.
Arguments log {St}.

Inductive exn : Type :=
| ClientError
| ETagMismatchError
| UnboundLocalError
| ValueError.

(** How a computation ends. [OutOfFuel] is an artefact of the fuel that
    bounds the two loops; [do_upload_total] shows that it never occurs. *)
Inductive outcome (A : Type) : Type :=
| Return (a : A)
| SysExit (code : Z)
| Raise (e : exn)
| OutOfFuel.
Arguments Return {A} a.
Arguments SysExit {A} code.
Arguments Raise {A} e.
Arguments OutOfFuel {A}.

Definition M (St A : Type) : Type := world St -> outcome A * world St.

Definition ret {St A} (a : A) : M St A := fun w => (Return a, w).

Definition bind {St A B} (c : M St A) (k : A -> M St B) : M St B :=
  fun w =>
    match c w with
    | (Return a, w') => k a w'
    | (SysExit n, w') => (SysExit n, w')
    | (Raise e, w') => (Raise e, w')
    | (OutOfFuel, w') => (OutOfFuel, w')
    end.

Declare Scope py_scope.
Delimit Scope py_scope with py.
Notation "x <- c ;; k" := (bind c (fun x => k))
  (at level 100, c at next level, right associativity) : py_scope.
Notation "c ;; k" := (bind c (fun _ => k))
  (at level 100, right associativity) : py_scope.
Local Open Scope py_scope.

Definition sys_exit {St A} (code : Z) : M St A := fun w => (SysExit code, w).
Definition raise {St A} (e : exn) : M St A := fun w => (Raise e, w).
Definition out_of_fuel {St A} : M St A := fun w => (OutOfFuel, w).

Definition emit {St} (e : event) (c : St) (w : world St) : world St :=
  {| cst := c; buf := buf w; log := log w ++ [e] |}.

(** [buf.read(size)] on a buffered binary stream: [size] bytes, fewer at
    the end of the stream, everything that is left for a negative [size]. *)
Definition buf_read {St} (size : Z) : M St bytes :=
  fun w =>
    let n := if size <? 0 then List.length (buf w) else Z.to_nat size in
    let chunk := firstn n (buf w) in
    (Return chunk,
     {| cst := cst w; buf := skipn n (buf w);
        log := log w ++ [read_ev size chunk] |}).

(** [time.sleep(secs)] raises [ValueError] for a negative argument. *)
Definition time_sleep {St} (secs : Z) : M St unit :=
  fun w =>
    if secs <? 0 then (Raise ValueError, w)
    else (Return tt, emit (sleep_ev secs) (cst w) w).

(** A call of a client operation: the client moves on, the call and its
    response are logged, the response is handed back. *)
Definition call {St A} (op : St -> response A * St)
    (ev : response A -> event) : M St (response A) :=
  fun w => let '(r, c) := op (cst w) in (Return r, emit (ev r) c w).

(** ** The program *)

(** The local variables of [do_upload] that the loops update.
    [upload_try] is unbound until the first chunk has been read. *)
Record locals : Type := {
  num : nat;
  parts : list part;
  hashes : list md5_obj;
  in_md5sum : md5_obj;
  upload_try : option Z
}.

Definition set_upload_try (l : locals) (t : Z) : locals :=
  {| num := num l; parts := parts l; hashes := hashes l;
     in_md5sum := in_md5sum l; upload_try := Some t |}.

Definition append_part (l : locals) (p : part) : locals :=
  {| num := num l; parts := parts l ++ [p]; hashes := hashes l;
     in_md5sum := in_md5sum l; upload_try := upload_try l |}.

(** Lines 113-116 and 119: a chunk has been read. *)
Definition next_chunk (l : locals) (chunk : bytes) : locals :=
  {| num := S (num l); parts := parts l;
     hashes := hashes l ++ [hashlib_md5 chunk];
     in_md5sum := md5_update (in_md5sum l) chunk;
     upload_try := Some 0 |}.

(** The [except] clause of line 151. *)
Definition caught (e : exn) : bool :=
  match e with
  | ClientError | ETagMismatchError => true
  | _ => false
  end.

Section Program.

Context {St : Type}.
Variable client : S3Client St.
Variables bucket obj : str.

(** [clean_up], lines 47-53. A [ClientError] of the abort call is not
    handled anywhere. *)
Definition clean_up (upload_id : str) : M St unit :=
  r <- call (abort_multipart_upload client bucket obj upload_id)
         (abort_ev bucket obj upload_id) ;;
  match r with
  | Ok _ => ret tt
  | ClientErr => raise ClientError
  end.

(** [check_integrity], lines 56-75. *)
Definition local_etag (hashes : list md5_obj) : str :=
  let md5_of_md5s := hexdigest (hashlib_md5 (List.concat (map digest hashes))) in
  md5_of_md5s ++ lit "-" ++ str_of_nat (List.length hashes).

Definition check_integrity (hashes : list md5_obj) : M St bool :=
  r <- call (head_object client bucket obj) (head_object_ev bucket obj) ;;
  match r with
  | ClientErr => sys_exit 8
  | Ok etag =>
      let remote_etag := strip is_dquote etag in
      if negb (str_eqb (local_etag hashes) remote_etag) then ret false
      else ret true
  end.

Variable chunksize secs retry : Z.

(** The keyword arguments of the [upload_part] call of lines 124-132. *)
Definition part_args (upload_id : str) (chunk : bytes)
    (part_md5sum : md5_obj) (l : locals) : upload_part_args :=
  {| up_Bucket := bucket; up_Body := chunk;
     up_ContentLength := List.length chunk;
     up_ContentMD5 := b64encode (digest part_md5sum);
     up_PartNumber := num l; up_UploadId := upload_id;
     up_Key := obj |}.

(** The body of the [try] of lines 121-149, for the attempt that follows
    [t] earlier ones. It yields the locals as the body leaves them, and
    the exception it raised, if any ([None]: the [break] was reached). *)
Definition try_upload_part (upload_id : str) (chunk : bytes)
    (part_md5sum : md5_obj) (l : locals) (t : Z)
  : M St (locals * option exn) :=
  let l1 := set_upload_try l (t + 1) in
  let args := part_args upload_id chunk part_md5sum l in
  r <- call (upload_part client args) (upload_part_ev args) ;;
  match r with
  | ClientErr => ret (l1, Some ClientError)
  | Ok etag =>
      let l2 := append_part l1 {| PartNumber := num l; ETag := etag |} in
      if negb (str_eqb (slice_1_m1 etag) (hexdigest part_md5sum))
      then ret (l2, Some ETagMismatchError)
      else ret (l2, None)
  end.

(** The retry loop, lines 120-155. *)
Fixpoint upload_loop (fuel : nat) (upload_id : str) (chunk : bytes)
    (part_md5sum : md5_obj) (l : locals) : M St locals :=
  match upload_try l with
  | None => raise UnboundLocalError
  | Some t =>
      if t <? retry then
        match fuel with
        | O => out_of_fuel
        | S f =>
            r <- try_upload_part upload_id chunk part_md5sum l t ;;
            match r with
            | (l', None) => ret l'
            | (l', Some e) =>
                if caught e then
                  time_sleep secs ;;
                  upload_loop f upload_id chunk part_md5sum l'
                else raise e
            end
        end
      else ret l
  end.

(** The reading loop, lines 107-155. *)
Fixpoint read_loop (fuel : nat) (upload_id : str) (l : locals)
  : M St locals :=
  match fuel with
  | O => out_of_fuel
  | S f =>
      chunk <- buf_read chunksize ;;
      match chunk with
      | [] => ret l
      | _ :: _ =>
          let l1 := next_chunk l chunk in
          l2 <- upload_loop (Z.to_nat retry) upload_id chunk
                  (hashlib_md5 chunk) l1 ;;
          read_loop f upload_id l2
      end
  end.

Definition initial_locals : locals :=
  {| num := 0; parts := []; hashes := []; in_md5sum := hashlib_md5 [];
     upload_try := None |}.

(** Lines 157-181: abort or complete. *)
Definition finish (upload_id : str) (l : locals)
  : M St (str * md5_obj * list md5_obj) :=
  match upload_try l with
  | None => raise UnboundLocalError
  | Some t =>
      if t >=? retry then
        clean_up upload_id ;;
        sys_exit 8
      else
        r <- call (complete_multipart_upload client bucket upload_id obj
                     (parts l))
               (complete_ev bucket upload_id obj (parts l)) ;;
        match r with
        | ClientErr => sys_exit 8
        | Ok _ => ret (upload_id, in_md5sum l, hashes l)
        end
  end.

(** [do_upload], lines 78-181. [math.log10(chunksize)] of line 99 raises
    [ValueError] unless [chunksize] is positive. *)
Definition do_upload : M St (str * md5_obj * list md5_obj) :=
  r <- call (create_multipart_upload client bucket obj)
         (create_ev bucket obj) ;;
  match r with
  | ClientErr => sys_exit 7
  | Ok upload_id =>
      if chunksize <=? 0 then raise ValueError
      else
        l <- (fun w =>
                read_loop (S (List.length (buf w))) upload_id
                  initial_locals w) ;;
        finish upload_id l
  end.

(** [upload], lines 241-265, from the point where the client exists and
    the input stream is open. *)
Definition upload : M St unit :=
  r <- do_upload ;;
  let '(upload_id, md5sum, hashes) := r in
  ok <- check_integrity hashes ;;
  if (ok : bool) then sys_exit 0 else sys_exit 1.

End Program.

(** ** A scripted client for concrete runs

    The state is the list of answers that the coming [upload_part] calls
    will get; once the script is used up every part is accepted. An
    accepted part is answered as S3 does, with the quoted hexadecimal MD5
    of the body. The other operations answer as the configuration says. *)

Definition quoted (s : str) : str := dquote :: s ++ [dquote].

Module Mock.

Inductive answer : Type :=
| Accept      (* the ETag of the body *)
| WrongTag    (* an ETag that is not the MD5 of the body *)
| Fail.       (* ClientError *)

Record config : Type := {
  create_resp : response str;
  complete_resp : response unit;
  abort_resp : response unit;
  head_resp : response str
}.

Definition wrong_tag : str := quoted (lit "00000000000000000000000000000000").

Definition answer_part (a : answer) (args : upload_part_args)
  : response str :=
  match a with
  | Accept => Ok (quoted (hex (md5_digest (up_Body args))))
  | WrongTag => Ok wrong_tag
  | Fail => ClientErr
  end.

Definition client (cfg : config) : S3Client (list answer) :=
  {| create_multipart_upload := fun _ _ s => (create_resp cfg, s);
     upload_part := fun args s =>
       match s with
       | [] => (answer_part Accept args, [])
       | a :: s' => (answer_part a args, s')
       end;
     complete_multipart_upload := fun _ _ _ _ s => (complete_resp cfg, s);
     abort_multipart_upload := fun _ _ _ s => (abort_resp cfg, s);
     head_object := fun _ _ s => (head_resp cfg, s) |}.

Definition start (script : list answer) (data : bytes)
  : world (list answer) :=
  {| cst := script; buf := data; log := [] |}.

(** A backend on which every session operation works and that reports
    [tag] for the finished object. *)
Definition healthy (tag : str) : config :=
  {| create_resp := Ok (lit "upload-1"); complete_resp := Ok tt;
     abort_resp := Ok tt; head_resp := Ok tag |}.

End Mock.

(** ** The chunks of an input

    What the successive [buf.read(chunksize)] calls return before the
    empty read that ends the loop. *)

Fixpoint chunks_fuel (fuel n : nat) (data : bytes) : list bytes :=
  match fuel with
  | O => []
  | S f =>
      match firstn n data with
      | [] => []
      | c => c :: chunks_fuel f n (skipn n data)
      end
  end.

Definition chunks (n : nat) (data : bytes) : list bytes :=
  chunks_fuel (S (List.length data)) n data.

(** [ceil(l / c)] on naturals. *)
Definition ceil_div (l c : nat) : nat := ((l + c - 1) / c)%nat.

(** ** Observations on a log *)

Definition is_read (e : event) : bool :=
  match e with read_ev _ _ => true | _ => false end.

Definition is_upload_part (e : event) : bool :=
  match e with upload_part_ev _ _ => true | _ => false end.

Definition is_sleep (e : event) : bool :=
  match e with sleep_ev _ => true | _ => false end.

Definition is_abort (e : event) : bool :=
  match e with abort_ev _ _ _ _ => true | _ => false end.

Definition is_complete (e : event) : bool :=
  match e with complete_ev _ _ _ _ _ => true | _ => false end.

(** Events of the retry loop, and of the reading loop. *)
Definition is_attempt_event (e : event) : bool :=
  is_upload_part e || is_sleep e.

Definition is_loop_event (e : event) : bool :=
  is_read e || is_attempt_event e.

Definition count (p : event -> bool) (l : list event) : nat :=
  List.length (filter p l).

(** The failure a log shows. *)
Definition init_failed (l : list event) : bool :=
  existsb (fun e => match e with create_ev _ _ ClientErr => true
                    | _ => false end) l.

Definition aborted (l : list event) : bool := existsb is_abort l.

Definition complete_failed (l : list event) : bool :=
  existsb (fun e => match e with complete_ev _ _ _ _ ClientErr => true
                    | _ => false end) l.

Definition object_not_found (l : list event) : bool :=
  existsb (fun e => match e with head_object_ev _ _ ClientErr => true
                    | _ => false end) l.

Definition abort_returned (l : list event) : bool :=
  existsb (fun e => match e with abort_ev _ _ _ (Ok _) => true
                    | _ => false end) l.

(** The ETag that [head_object] reported, if the call was made and
    answered. *)
Definition tag_of (e : event) : option str :=
  match e with head_object_ev _ _ (Ok tag) => Some tag | _ => None end.

Fixpoint reported_tag (l : list event) : option str :=
  match l with
  | [] => None
  | e :: l' =>
      match tag_of e with
      | Some tag => Some tag
      | None => reported_tag l'
      end
  end.

(** An event without the strings it carries. *)
Inductive brief : Type :=
| b_create (ok : bool)
| b_read (len : nat)
| b_part (number : nat) (answered : bool)
| b_sleep
| b_abort
| b_complete (numbers : list nat) (ok : bool)
| b_head (ok : bool).

Definition answered {A} (r : response A) : bool :=
  match r with Ok _ => true | ClientErr => false end.

Definition brief_of (e : event) : brief :=
  match e with
  | create_ev _ _ r => b_create (answered r)
  | read_ev _ chunk => b_read (List.length chunk)
  | upload_part_ev args r => b_part (up_PartNumber args) (answered r)
  | sleep_ev _ => b_sleep
  | abort_ev _ _ _ _ => b_abort
  | complete_ev _ _ _ ps r => b_complete (map PartNumber ps) (answered r)
  | head_object_ev _ _ r => b_head (answered r)
  end.

(** The part list handed to [complete_multipart_upload], if it was
    called. *)
Fixpoint completed_parts (l : list event) : option (list part) :=
  match l with
  | [] => None
  | complete_ev _ _ _ ps _ :: _ => Some ps
  | _ :: l' => completed_parts l'
  end.

(** The entries that the answered [upload_part] calls of a log stand for:
    the part number of the call with the ETag of the answer. *)
Definition answered_part (e : event) : option part :=
  match e with
  | upload_part_ev args (Ok etag) =>
      Some {| PartNumber := up_PartNumber args; ETag := etag |}
  | _ => None
  end.

Fixpoint answered_parts (l : list event) : list part :=
  match l with
  | [] => []
  | e :: l' =>
      match answered_part e with
      | Some p => p :: answered_parts l'
      | None => answered_parts l'
      end
  end.

(** ** Concrete runs

    Runs against the scripted client, on bucket ["bucket"] and key
    ["key"], by chunk size, delay, number of attempts, script and input. *)

Definition demo_bucket : str := lit "bucket".
Definition demo_key : str := lit "key".

Definition run_do_upload (cfg : Mock.config) (chunksize secs retry : Z)
    (script : list Mock.answer) (data : bytes)
  : outcome (str * md5_obj * list md5_obj) * world (list Mock.answer) :=
  do_upload (Mock.client cfg) demo_bucket demo_key chunksize secs retry
    (Mock.start script data).

Definition run_upload (cfg : Mock.config) (chunksize secs retry : Z)
    (script : list Mock.answer) (data : bytes)
  : outcome unit * world (list Mock.answer) :=
  upload (Mock.client cfg) demo_bucket demo_key chunksize secs retry
    (Mock.start script data).

(** A backend whose completion call fails, and one that cannot find the
    finished object. *)
Definition complete_fails : Mock.config :=
  {| Mock.create_resp := Ok (lit "upload-1");
     Mock.complete_resp := ClientErr;
     Mock.abort_resp := Ok tt;
     Mock.head_resp := ClientErr |}.

Definition object_missing : Mock.config :=
  {| Mock.create_resp := Ok (lit "upload-1");
     Mock.complete_resp := Ok tt;
     Mock.abort_resp := Ok tt;
     Mock.head_resp := ClientErr |}.

Definition create_fails : Mock.config :=
  {| Mock.create_resp := ClientErr;
     Mock.complete_resp := Ok tt;
     Mock.abort_resp := Ok tt;
     Mock.head_resp := ClientErr |}.

(** The composite ETag of the two parts ["a"] and ["b"], quoted as S3
    reports it. *)
Definition etag_a_b : str := quoted (lit "96e024ba2074fe77e8e965ba43a704be-2").

(** ** More observations on a log *)

(** An [upload_part] call for part [k]. *)
Definition is_part (k : nat) (e : event) : bool :=
  match e with
  | upload_part_ev args _ => Nat.eqb (up_PartNumber args) k
  | _ => false
  end.

(** An attempt that the program takes as failed: the call raised, or the
    ETag of the answer, without its first and last character, is not the
    hexadecimal MD5 of the body. *)
Definition attempt_failed (e : event) : bool :=
  match e with
  | upload_part_ev args ClientErr => true
  | upload_part_ev args (Ok etag) =>
      negb (str_eqb (slice_1_m1 etag)
              (hexdigest (hashlib_md5 (up_Body args))))
  | _ => false
  end.

(** A log with [sleep_ev secs] put in after every failed attempt. *)
Fixpoint with_sleeps (secs : Z) (l : list event) : list event :=
  match l with
  | [] => []
  | e :: l' =>
      if attempt_failed e then e :: sleep_ev secs :: with_sleeps secs l'
      else e :: with_sleeps secs l'
  end.

(** The keyword arguments with which chunk [chunk] is uploaded as part
    [k] of session [uid]. *)
Definition chunk_args (bucket obj uid : str) (k : nat) (chunk : bytes)
  : upload_part_args :=
  {| up_Bucket := bucket; up_Body := chunk;
     up_ContentLength := List.length chunk;
     up_ContentMD5 := b64encode (md5_digest chunk);
     up_PartNumber := k; up_UploadId := uid; up_Key := obj |}.

(** A log without its sleeps. *)
Definition awake (l : list event) : list event :=
  filter (fun e => negb (is_sleep e)) l.

(** ** The command line front end

    [parse_keyfile], [check_file_or_stdin], [create_client] and [upload]
    as a whole, over a host: the terminal state and content of standard
    input, the files, the [boto3.client] constructor and the client
    operations. *)

Module Cli.

(** [s.split(sep)] for a separator of one character. *)
Fixpoint split (sep : ascii) (s : str) : list str :=
  match s with
  | [] => [[]]
  | c :: s' =>
      if Ascii.eqb c sep then [] :: split sep s'
      else
        match split sep s' with
        | [] => [[c]]
        | p :: ps => (c :: p) :: ps
        end
  end.

(** [sep.join(pieces)]. *)
Fixpoint join (sep : ascii) (pieces : list str) : str :=
  match pieces with
  | [] => []
  | [p] => p
  | p :: ps => p ++ sep :: join sep ps
  end.

(** The characters of [" \t\n\r"]. *)
Definition is_blank (c : ascii) : bool :=
  Ascii.eqb c " "%char || Ascii.eqb c "009"%char
  || Ascii.eqb c "010"%char || Ascii.eqb c "013"%char.

Definition colon : ascii := ":"%char.

(** [parse_keyfile], lines 31-44, on what [open(keyfile, "r").read()]
    gives: the text of the file, or [None] for an [IOError]. *)
Definition parse_keyfile (content : option str) : outcome (str * str) :=
  match content with
  | None => SysExit 2
  | Some text =>
      match split colon (strip is_blank text) with
      | [key_id; secret] => Return (key_id, secret)
      | _ => SysExit 3
      end
  end.

(** [check_file_or_stdin], lines 222-238, on [sys.stdin.isatty()]. *)
Definition check_file_or_stdin (isatty : bool) (infile : str)
  : outcome bool :=
  if isatty then
    if negb (str_eqb infile (lit "-")) then Return false
    else SysExit 1
  else if negb (str_eqb infile (lit "-")) then SysExit 1
  else Return true.

Record Host (St : Type) : Type := {
  stdin_isatty : bool;
  stdin_buffer : bytes;                 (* what standard input holds *)
  read_text : str -> option str;        (* a file opened with "r" *)
  read_binary : str -> option bytes;    (* a file opened with "rb" *)
  boto3_client : str -> str -> response St;
  head_bucket : str -> St -> response unit * St;
  s3 : S3Client St
}.
Arguments stdin_isatty {St}.
Arguments stdin_buffer {St}.
Arguments read_text {St}.
Arguments read_binary {St}.
Arguments boto3_client {St}.
Arguments head_bucket {St}.
Arguments s3 {St}.

(** The calls of a whole run: those of the set-up, then those of the
    session. *)
Inductive cli_event : Type :=
| client_ev (key_id secret : str) (ok : bool)
| head_bucket_ev (Bucket : str) (r : response unit)
| call_ev (e : event).

(** Exceptions that only the front end can end with. *)
Inductive cli_exn : Type :=
| OSError
| OverflowError.

(** How a whole run ends. *)
Inductive ending : Type :=
| Ended (o : outcome unit)
| Uncaught (e : cli_exn).

Section Frontend.

Context {St : Type}.
Variable host : Host St.

(** [create_client], lines 184-219: the client state, or the exit, with
    the calls made. *)
Definition create_client (keyfile bucket obj : str)
  : outcome St * list cli_event :=
  match parse_keyfile (read_text host keyfile) with
  | Return (key_id, secret) =>
      match boto3_client host key_id secret with
      | ClientErr => (SysExit 4, [client_ev key_id secret false])
      | Ok c0 =>
          let '(r1, c1) := head_bucket host bucket c0 in
          match r1 with
          | ClientErr =>
              (SysExit 5,
               [client_ev key_id secret true; head_bucket_ev bucket r1])
          | Ok _ =>
              let '(r2, c2) := head_object (s3 host) bucket obj c1 in
              let calls :=
                [client_ev key_id secret true; head_bucket_ev bucket r1;
                 call_ev (head_object_ev bucket obj r2)] in
              match r2 with
              | Ok _ => (SysExit 6, calls)
              | ClientErr => (Return c2, calls)
              end
          end
      end
  | SysExit n => (SysExit n, [])
  | Raise e => (Raise e, [])
  | OutOfFuel => (OutOfFuel, [])
  end.

(** [open(infile, "rb", buffering=chunksize)], line 253: the buffering
    argument must fit a C [int]. *)
Definition open_rb (infile : str) (chunksize : Z)
  : bytes + cli_exn :=
  if (chunksize <? - 2147483648) || (2147483647 <? chunksize)
  then inr OverflowError
  else
    match read_binary host infile with
    | Some data => inl data
    | None => inr OSError
    end.

(** [upload], lines 241-265: how the run ends, and the calls it made. *)
Definition upload (infile keyfile bucket obj : str)
    (chunksize secs retry : Z) : ending * list cli_event :=
  match check_file_or_stdin (stdin_isatty host) infile with
  | Return is_stdin =>
      match create_client keyfile bucket obj with
      | (Return c, calls) =>
          let session (data : bytes) :=
            let '(o, w) :=
              upload (s3 host) bucket obj chunksize secs retry
                {| cst := c; buf := data; log := [] |} in
            (Ended o, calls ++ map call_ev (log w)) in
          if is_stdin then session (stdin_buffer host)
          else
            match open_rb infile chunksize with
            | inl data => session data
            | inr e => (Uncaught e, calls)
            end
      | (SysExit n, calls) => (Ended (SysExit n), calls)
      | (Raise e, calls) => (Ended (Raise e), calls)
      | (OutOfFuel, calls) => (Ended OutOfFuel, calls)
      end
  | SysExit n => (Ended (SysExit n), [])
  | Raise e => (Ended (Raise e), [])
  | OutOfFuel => (Ended OutOfFuel, [])
  end.

End Frontend.

(** The input that a run uploads, when it gets that far. *)
Definition selected_input {St} (host : Host St) (infile : str)
  : option bytes :=
  if stdin_isatty host then read_binary host infile
  else Some (stdin_buffer host).

Definition is_session_call (e : cli_event) : bool :=
  match e with
  | call_ev (head_object_ev _ _ _) => false
  | call_ev _ => true
  | _ => false
  end.

(** A host for concrete runs: the scripted client behind a key file
    ["keys"] and an input file ["data"]. *)
Definition demo_host (cfg : Mock.config) (script : list Mock.answer)
    (isatty : bool) (stdin : bytes) (keys : option str)
    (data : option bytes) (bucket_there object_there : bool)
  : Host (list Mock.answer * bool) :=
  {| stdin_isatty := isatty;
     stdin_buffer := stdin;
     read_text := fun path =>
       if str_eqb path (lit "keys") then keys else None;
     read_binary := fun path =>
       if str_eqb path (lit "data") then data else None;
     boto3_client := fun _ _ => Ok (script, false);
     head_bucket := fun _ s =>
       (if bucket_there then Ok tt else ClientErr, s);
     s3 :=
       {| create_multipart_upload := fun b k s =>
            let '(r, q) := create_multipart_upload (Mock.client cfg) b k
                             (fst s) in (r, (q, true));
          upload_part := fun args s =>
            let '(r, q) := upload_part (Mock.client cfg) args (fst s) in
            (r, (q, snd s));
          complete_multipart_upload := fun b u k ps s =>
            let '(r, q) := complete_multipart_upload (Mock.client cfg)
                             b u k ps (fst s) in (r, (q, snd s));
          abort_multipart_upload := fun b k u s =>
            let '(r, q) := abort_multipart_upload (Mock.client cfg)
                             b k u (fst s) in (r, (q, snd s));
          head_object := fun b k s =>
            if snd s then
              let '(r, q) := head_object (Mock.client cfg) b k (fst s) in
              (r, (q, snd s))
            else
              (if object_there then Ok (lit "etag") else ClientErr, s) |}
  |}.

End Cli.

Section CommandCases.

Context {St : Type}.
Variable host : Cli.Host St.
Variables infile keyfile bucket obj : str.
Variables chunksize secs retry : Z.

(** The calls of a set-up that got through. *)
Definition setup_calls (k s : str) : list Cli.cli_event :=
  [Cli.client_ev k s true; Cli.head_bucket_ev bucket (Ok tt);
   Cli.call_ev (head_object_ev bucket obj ClientErr)].

(** The ways a run of the command can go. *)
Inductive cli_case : Cli.ending -> list Cli.cli_event -> Prop :=
| cli_bad_input :
    xorb (negb (Cli.stdin_isatty host))
      (negb (str_eqb infile (lit "-"))) = false ->
    cli_case (Cli.Ended (SysExit 1)) []
| cli_no_keyfile :
    Cli.read_text host keyfile = None ->
    cli_case (Cli.Ended (SysExit 2)) []
| cli_bad_keyfile text :
    Cli.read_text host keyfile = Some text ->
    Cli.parse_keyfile (Some text) = SysExit 3 ->
    cli_case (Cli.Ended (SysExit 3)) []
| cli_no_client k s :
    Cli.parse_keyfile (Cli.read_text host keyfile) = Return (k, s) ->
    cli_case (Cli.Ended (SysExit 4)) [Cli.client_ev k s false]
| cli_no_bucket k s :
    Cli.parse_keyfile (Cli.read_text host keyfile) = Return (k, s) ->
    cli_case (Cli.Ended (SysExit 5))
      [Cli.client_ev k s true; Cli.head_bucket_ev bucket ClientErr]
| cli_object_exists k s tag :
    Cli.parse_keyfile (Cli.read_text host keyfile) = Return (k, s) ->
    cli_case (Cli.Ended (SysExit 6))
      [Cli.client_ev k s true; Cli.head_bucket_ev bucket (Ok tt);
       Cli.call_ev (head_object_ev bucket obj (Ok tag))]
| cli_no_file k s e :
    Cli.parse_keyfile (Cli.read_text host keyfile) = Return (k, s) ->
    Cli.stdin_isatty host = true ->
    str_eqb infile (lit "-") = false ->
    (e = Cli.OverflowError
     /\ (chunksize < - 2147483648 \/ 2147483647 < chunksize))
    \/ (e = Cli.OSError /\ Cli.read_binary host infile = None
        /\ - 2147483648 <= chunksize <= 2147483647) ->
    cli_case (Cli.Uncaught e) (setup_calls k s)
| cli_session k s c data :
    Cli.parse_keyfile (Cli.read_text host keyfile) = Return (k, s) ->
    xorb (negb (Cli.stdin_isatty host))
      (negb (str_eqb infile (lit "-"))) = true ->
    Cli.selected_input host infile = Some data ->
    let run := upload (Cli.s3 host) bucket obj chunksize secs retry
                 {| cst := c; buf := data; log := [] |} in
    cli_case (Cli.Ended (fst run))
      (setup_calls k s ++ map Cli.call_ev (log (snd run))).

End CommandCases.

(** ** Test vectors

    Values computed by CPython's [hashlib], [base64] and [str]. *)

Example md5_empty :
  hex (md5_digest []) = lit "d41d8cd98f00b204e9800998ecf8427e".
Proof. vm_compute. reflexivity. Qed.

Example md5_abc :
  hex (md5_digest (blit "abc")) = lit "900150983cd24fb0d6963f7d28e17f72".
Proof. vm_compute. reflexivity. Qed.

Example md5_two_blocks :
  hex (md5_digest (repeat "a"%byte 70)) = lit "0f5c6c4e740bfcc08c3c26ccb2673d46".
Proof. vm_compute. reflexivity. Qed.

Example b64encode_md5_abc :
  b64encode (md5_digest (blit "abc")) = lit "kAFQmDzST7DWlj99KOF/cg==".
Proof. vm_compute. reflexivity. Qed.

Example b64encode_4 :
  b64encode [xfb; xff; x00; x61] = lit "+/8AYQ==".
Proof. vm_compute. reflexivity. Qed.

Example str_of_nat_ex :
  map str_of_nat [0; 7; 10; 205; 1000]%nat
  = map lit ["0"; "7"; "10"; "205"; "1000"]%string.
Proof. vm_compute. reflexivity. Qed.

Example strip_ex :
  strip is_dquote (dquote :: dquote :: lit "a" ++ dquote :: lit "b" ++ [dquote])
  = lit "a" ++ dquote :: lit "b".
Proof. vm_compute. reflexivity. Qed.

Example slice_ex :
  map slice_1_m1 (map lit [""; "x"; "xy"; "xyz"]%string)
  = map lit [""; ""; ""; "y"]%string.
Proof. vm_compute. reflexivity. Qed.

(** ** Strings *)

Lemma str_eqb_spec (a b : str) : str_eqb a b = true <-> a = b.
Proof.
  revert b; induction a as [|x a IH]; intros [|y b]; simpl; split;
    try congruence; try reflexivity.
  - intros H. apply andb_true_iff in H as [Hx Ha].
    apply Ascii.eqb_eq in Hx. apply IH in Ha. congruence.
  - intros H. injection H as -> ->. rewrite Ascii.eqb_refl. simpl.
    now apply IH.
Qed.

Lemma str_eqb_false (a b : str) : str_eqb a b = false <-> a <> b.
Proof.
  rewrite <- str_eqb_spec. destruct (str_eqb a b); split; congruence.
Qed.

Lemma lstrip_keep (p : ascii -> bool) (c : ascii) (s : str) :
  p c = false -> lstrip p (c :: s) = c :: s.
Proof. intros H. simpl. now rewrite H. Qed.

Lemma rstrip_keep (p : ascii -> bool) (c : ascii) (s : str) :
  p c = false -> rstrip p (s ++ [c]) = s ++ [c].
Proof.
  intros H. unfold rstrip. rewrite rev_app_distr. simpl. rewrite H.
  simpl. now rewrite rev_involutive.
Qed.

(** A string that neither starts nor ends with a character of [p]. *)
Definition clean_ends (p : ascii -> bool) (s : str) : Prop :=
  exists c s' d s'', s = c :: s' /\ s = s'' ++ [d]
                     /\ p c = false /\ p d = false.

Lemma strip_clean (p : ascii -> bool) (s : str) :
  clean_ends p s -> strip p s = s.
Proof.
  intros (c & s' & d & s'' & H1 & H2 & Hc & Hd). unfold strip.
  rewrite H1, lstrip_keep by assumption. rewrite <- H1, H2.
  now apply rstrip_keep.
Qed.

Lemma rstrip_drop (p : ascii -> bool) (c : ascii) (s : str) :
  p c = true -> rstrip p (s ++ [c]) = rstrip p s.
Proof.
  intros H. unfold rstrip. rewrite rev_app_distr. simpl. now rewrite H.
Qed.

Lemma strip_quoted (s : str) :
  clean_ends is_dquote s -> strip is_dquote (quoted s) = s.
Proof.
  intros (c & s' & d & s'' & H1 & H2 & Hc & Hd). unfold strip, quoted.
  simpl. rewrite H1. simpl. rewrite Hc. rewrite <- H1.
  change (c :: s' ++ [dquote]) with ((c :: s') ++ [dquote]).
  rewrite <- H1, rstrip_drop by reflexivity.
  rewrite H2. now apply rstrip_keep.
Qed.

Lemma str_of_nat_aux_last (fuel n : nat) (acc : str) :
  exists pre d, (d < 10)%nat /\
    str_of_nat_aux fuel n (acc) = pre ++ digit_char d :: acc.
Proof.
  revert n acc. induction fuel as [|f IH]; intros n acc;
    cbn [str_of_nat_aux].
  - exists [], (n mod 10)%nat. split; [apply Nat.mod_upper_bound; lia|easy].
  - destruct (n <? 10)%nat.
    + exists [], (n mod 10)%nat.
      split; [apply Nat.mod_upper_bound; lia|easy].
    + destruct (IH (n / 10)%nat (digit_char (n mod 10) :: acc))
        as (pre & d & Hd & E).
      exists (pre ++ [digit_char d]), (n mod 10)%nat.
      split; [apply Nat.mod_upper_bound; lia|].
      rewrite E, <- app_assoc. reflexivity.
Qed.

Lemma digit_char_not_dquote (d : nat) :
  (d < 10)%nat -> is_dquote (digit_char d) = false.
Proof.
  intros H. do 10 (destruct d as [|d]; [reflexivity|]). lia.
Qed.

Lemma str_of_nat_last (n : nat) :
  exists pre d, str_of_nat n = pre ++ [d] /\ is_dquote d = false.
Proof.
  destruct (str_of_nat_aux_last n n []) as (pre & d & Hd & E).
  exists pre, (digit_char d). split; [exact E|].
  now apply digit_char_not_dquote.
Qed.

Lemma hex_char_not_dquote (d : Z) : is_dquote (hex_char d) = false.
Proof.
  unfold hex_char. generalize (Z.to_nat d) as n. intros n.
  do 16 (destruct n as [|n]; [reflexivity|]).
  simpl. destruct n; reflexivity.
Qed.

Lemma hex_first (bs : bytes) :
  hex bs = [] \/ exists c s, hex bs = c :: s /\ is_dquote c = false.
Proof.
  destruct bs as [|b bs]; [now left|right]. simpl. unfold hex_of_byte.
  eexists _, _. split; [reflexivity|apply hex_char_not_dquote].
Qed.

(** ** The composite ETag *)

Lemma local_etag_clean_ends (hs : list md5_obj) :
  clean_ends is_dquote (local_etag hs).
Proof.
  unfold local_etag, hexdigest, clean_ends.
  destruct (str_of_nat_last (List.length hs)) as (pre & d & E & Hd).
  rewrite E.
  destruct (hex_first (digest (hashlib_md5 (List.concat (map digest hs)))))
    as [H0 | (c & s & Hc & Hq)].
  - rewrite H0. simpl. exists "-"%char, (pre ++ [d]), d, ("-"%char :: pre).
    repeat split; auto.
  - rewrite Hc. simpl.
    exists c, (s ++ "-"%char :: pre ++ [d]), d, (c :: s ++ "-"%char :: pre).
    repeat split; auto. simpl. f_equal. rewrite <- app_assoc. reflexivity.
Qed.

Lemma strip_local_etag (hs : list md5_obj) :
  strip is_dquote (local_etag hs) = local_etag hs.
Proof. apply strip_clean, local_etag_clean_ends. Qed.

Lemma strip_quoted_local_etag (hs : list md5_obj) :
  strip is_dquote (quoted (local_etag hs)) = local_etag hs.
Proof. apply strip_quoted, local_etag_clean_ends. Qed.

Section Integrity.

Context {St : Type}.
Variable client : S3Client St.
Variables bucket obj : str.

(** What [check_integrity] does once the object's metadata came back. *)
Lemma check_integrity_found (hs : list md5_obj) (w : world St)
    (tag : str) (c' : St) :
  head_object client bucket obj (cst w) = (Ok tag, c') ->
  check_integrity client bucket obj hs w
  = (Return (str_eqb (local_etag hs) (strip is_dquote tag)),
     emit (head_object_ev bucket obj (Ok tag)) c' w).
Proof.
  intros H. unfold check_integrity, bind, call. rewrite H.
  destruct (str_eqb (local_etag hs) (strip is_dquote tag)); reflexivity.
Qed.

(** When the metadata cannot be fetched the process exits with status 8. *)
Lemma check_integrity_not_found (hs : list md5_obj) (w : world St)
    (c' : St) :
  head_object client bucket obj (cst w) = (ClientErr, c') ->
  check_integrity client bucket obj hs w
  = (SysExit 8, emit (head_object_ev bucket obj ClientErr) c' w).
Proof.
  intros H. unfold check_integrity, bind, call. now rewrite H.
Qed.

(** C4. Given the ETag that [head_object] reports, [check_integrity]
    returns [True] exactly when that tag, stripped of double quotes, is the
    hexadecimal MD5 of the concatenated raw digests of the parts, followed
    by a dash and the number of parts, and [False] exactly when it is
    not. A tag built by that formula, bare or quoted, is accepted. *)
Theorem check_integrity_verifies (hs : list md5_obj) (w : world St)
    (tag : str) (c' : St) :
  head_object client bucket obj (cst w) = (Ok tag, c') ->
  let composite :=
    hex (md5_digest (List.concat (map (fun h => md5_digest (fed h)) hs)))
    ++ lit "-" ++ str_of_nat (List.length hs) in
  let result := fst (check_integrity client bucket obj hs w) in
  (result = Return true <-> strip is_dquote tag = composite)
  /\ (result = Return false <-> strip is_dquote tag <> composite)
  /\ (tag = composite \/ tag = quoted composite -> result = Return true).
Proof.
  intros H composite result.
  assert (Ec : composite = local_etag hs) by reflexivity.
  assert (Er : result
               = Return (str_eqb (local_etag hs) (strip is_dquote tag))).
  { unfold result. now rewrite (check_integrity_found hs w tag c' H). }
  rewrite Er, Ec.
  destruct (str_eqb (local_etag hs) (strip is_dquote tag)) eqn:E.
  - apply str_eqb_spec in E. split; [|split].
    + split; congruence.
    + split; [discriminate | congruence].
    + reflexivity.
  - assert (N : strip is_dquote tag <> local_etag hs).
    { intros X. apply str_eqb_false in E. now apply E. }
    split; [|split].
    + split; [discriminate | contradiction].
    + split; [intros _; exact N | reflexivity].
    + intros [-> | ->]; exfalso; apply N.
      * apply strip_local_etag.
      * apply strip_quoted_local_etag.
Qed.

End Integrity.

(** ** Chunks *)

Lemma chunks_fuel_concat (n fuel : nat) :
  forall data : bytes,
    (0 < n)%nat -> (List.length data < fuel)%nat ->
    List.concat (chunks_fuel fuel n data) = data.
Proof.
  induction fuel as [|f IH]; intros data Hn Hf; [lia|].
  cbn [chunks_fuel]. destruct (firstn n data) as [|b c] eqn:E.
  - destruct data; [reflexivity|]. destruct n; [lia|discriminate].
  - cbn [List.concat]. rewrite IH; [rewrite <- E; apply firstn_skipn|lia|].
    rewrite length_skipn. destruct data; [destruct n; discriminate|].
    cbn [List.length] in Hf |- *. lia.
Qed.

Lemma chunks_fuel_length (n fuel : nat) :
  forall data : bytes,
    (0 < n)%nat -> (List.length data < fuel)%nat ->
    List.length (chunks_fuel fuel n data) = ceil_div (List.length data) n.
Proof.
  unfold ceil_div.
  induction fuel as [|f IH]; intros data Hn Hf; [lia|].
  cbn [chunks_fuel]. destruct (firstn n data) as [|b c] eqn:E.
  - destruct data; [|destruct n; [lia|discriminate]].
    simpl. symmetry. apply Nat.div_small. lia.
  - assert (Hd : (0 < List.length data)%nat).
    { destruct data; [destruct n; discriminate|simpl; lia]. }
    cbn [List.length]. rewrite IH; [|lia|rewrite length_skipn; lia].
    rewrite length_skipn.
    destruct (Nat.le_gt_cases (List.length data) n) as [Hle|Hgt].
    + replace (List.length data - n + n - 1)%nat with (n - 1)%nat by lia.
      rewrite (Nat.div_small (n - 1) n) by lia.
      apply (Nat.div_unique _ _ 1 (List.length data - 1)); lia.
    + replace (List.length data + n - 1)%nat
        with ((List.length data - n + n - 1) + 1 * n)%nat by lia.
      rewrite Nat.div_add by lia. lia.
Qed.

Lemma chunks_fuel_sizes (n fuel : nat) :
  forall data : bytes,
    Forall (fun c => (0 < List.length c <= n)%nat) (chunks_fuel fuel n data).
Proof.
  induction fuel as [|f IH]; intros data; cbn [chunks_fuel]; [constructor|].
  destruct (firstn n data) as [|b c] eqn:E; constructor.
  - rewrite <- E. split; [rewrite E; simpl; lia|apply firstn_le_length].
  - apply IH.
Qed.

(** The number of chunks of an input of length [L] read [C] bytes at a
    time is [ceil(L / C)]; the chunks, in order, make up the input. *)
Lemma chunks_count (n : nat) (data : bytes) :
  (0 < n)%nat -> List.length (chunks n data) = ceil_div (List.length data) n.
Proof. intros H. apply chunks_fuel_length; [assumption|lia]. Qed.

Lemma chunks_concat (n : nat) (data : bytes) :
  (0 < n)%nat -> List.concat (chunks n data) = data.
Proof. intros H. apply chunks_fuel_concat; [assumption|lia]. Qed.

Lemma chunks_single (n : nat) (data : bytes) :
  (0 < List.length data <= n)%nat -> chunks n data = [data].
Proof.
  intros H. unfold chunks. cbn [chunks_fuel].
  rewrite firstn_all2 by lia. rewrite skipn_all2 by lia.
  destruct data as [|b d]; [simpl in H; lia|].
  destruct n; [simpl in H; lia|]. reflexivity.
Qed.

Lemma chunks_nil (n : nat) : chunks n [] = [].
Proof. unfold chunks. simpl. now rewrite firstn_nil. Qed.

Lemma md5_update_nil (h : md5_obj) : md5_update h [] = h.
Proof. destruct h. unfold md5_update. simpl. now rewrite app_nil_r. Qed.

Lemma md5_update_app (h : md5_obj) (a b : bytes) :
  md5_update (md5_update h a) b = md5_update h (a ++ b).
Proof. unfold md5_update. simpl. now rewrite app_assoc. Qed.

Lemma fold_md5_update (cs : list bytes) :
  forall h : md5_obj,
    fold_left md5_update cs h = md5_update h (List.concat cs).
Proof.
  induction cs as [|c cs IH]; intros h; simpl.
  - now rewrite md5_update_nil.
  - now rewrite IH, md5_update_app.
Qed.

(** ** The loops *)

Section Loops.

Context {St : Type}.
Variable client : S3Client St.
Variables bucket obj : str.
Variables chunksize secs retry : Z.

(** One attempt, by the response of the client. *)
Lemma try_upload_part_run (uid : str) (chunk : bytes) (h : md5_obj)
    (l : locals) (t : Z) (w : world St) :
  let args := part_args bucket obj uid chunk h l in
  let r := fst (upload_part client args (cst w)) in
  let w1 := emit (upload_part_ev args r)
              (snd (upload_part client args (cst w))) w in
  try_upload_part client bucket obj uid chunk h l t w
  = match r with
    | ClientErr => (Return (set_upload_try l (t + 1), Some ClientError), w1)
    | Ok etag =>
        (Return
           (append_part (set_upload_try l (t + 1))
              {| PartNumber := num l; ETag := etag |},
            if str_eqb (slice_1_m1 etag) (hexdigest h) then None
            else Some ETagMismatchError), w1)
    end.
Proof.
  intros args r w1. unfold try_upload_part, bind, call. fold args.
  subst r w1. destruct (upload_part client args (cst w)) as [[etag|] c];
    simpl; [|reflexivity].
  destruct (str_eqb (slice_1_m1 etag) (hexdigest h)); reflexivity.
Qed.

(** The retry loop only makes [upload_part] calls and sleeps; it does not
    read the input. *)
Lemma upload_loop_log (uid : str) (chunk : bytes) (h : md5_obj)
    (fuel : nat) :
  forall (l : locals) (w : world St) o w',
    upload_loop client bucket obj secs retry fuel uid chunk h l w = (o, w') ->
    buf w' = buf w /\
    exists evs, log w' = log w ++ evs /\ forallb is_attempt_event evs = true.
Proof.
  assert (Nil : forall w : world St, buf w = buf w /\
            exists evs, log w = log w ++ evs
                        /\ forallb is_attempt_event evs = true).
  { intros w. split; [reflexivity|]. exists []. now rewrite app_nil_r. }
  induction fuel as [|f IH]; intros l w o w' E; cbn [upload_loop] in E;
    destruct (upload_try l) as [t|];
    try (injection E as <- <-; apply Nil);
    destruct (t <? retry); try (injection E as <- <-; apply Nil).
  unfold bind at 1 in E. rewrite try_upload_part_run in E.
  set (args := part_args bucket obj uid chunk h l) in E.
  destruct (upload_part client args (cst w)) as [r c]. cbn [fst snd] in E.
  set (w1 := emit (upload_part_ev args r) c w) in E.
  assert (One : buf w1 = buf w /\
            exists evs, log w1 = log w ++ evs
                        /\ forallb is_attempt_event evs = true).
  { split; [reflexivity|]. exists [upload_part_ev args r]. now split. }
  assert (Retry : forall l' : locals,
            (time_sleep secs ;;
             upload_loop client bucket obj secs retry f uid chunk h l') w1
            = (o, w') ->
            buf w' = buf w /\
            exists evs, log w' = log w ++ evs
                        /\ forallb is_attempt_event evs = true).
  { intros l' E'. unfold bind, time_sleep in E'.
    destruct (secs <? 0); [injection E' as <- <-; exact One|].
    set (w2 := emit (sleep_ev secs) (cst w1) w1) in E'.
    destruct (IH l' w2 o w' E') as (Hb2 & evs & Hl2 & Hf). split.
    - rewrite Hb2. reflexivity.
    - exists (upload_part_ev args r :: sleep_ev secs :: evs). split.
      + rewrite Hl2. unfold w2, w1. cbn [emit log].
        rewrite <- !app_assoc. reflexivity.
      + simpl. exact Hf. }
  destruct r as [etag|].
  - destruct (str_eqb (slice_1_m1 etag) (hexdigest h)).
    + injection E as <- <-. exact One.
    + apply (Retry _ E).
  - apply (Retry _ E).
Qed.

(** What the retry loop leaves behind: with enough fuel it returns, and
    then it has changed neither the part number nor the checksums; the only
    exception that can escape it is the [ValueError] of a negative sleep. *)
Lemma upload_loop_result (uid : str) (chunk : bytes) (h : md5_obj)
    (fuel : nat) :
  forall (l : locals) (t : Z) (w : world St) o w',
    upload_try l = Some t ->
    (Z.to_nat (retry - t) <= fuel)%nat ->
    upload_loop client bucket obj secs retry fuel uid chunk h l w = (o, w') ->
    match o with
    | Return l' =>
        num l' = num l /\ hashes l' = hashes l
        /\ in_md5sum l' = in_md5sum l
        /\ exists t', upload_try l' = Some t' /\ t <= t'
    | Raise e => e = ValueError /\ secs < 0
    | _ => False
    end.
Proof.
  induction fuel as [|f IH]; intros l t w o w' Ht Hf E;
    cbn [upload_loop] in E; rewrite Ht in E;
    destruct (Z.ltb_spec t retry) as [Hlt|Hge];
    try (injection E as <- <-; repeat split; auto; exists t; split;
         [assumption|lia]);
    try lia.
  unfold bind at 1 in E. rewrite try_upload_part_run in E.
  set (args := part_args bucket obj uid chunk h l) in E.
  destruct (upload_part client args (cst w)) as [r c]. cbn [fst snd] in E.
  set (w1 := emit (upload_part_ev args r) c w) in E.
  assert (Retry : forall l' : locals,
            num l' = num l -> hashes l' = hashes l ->
            in_md5sum l' = in_md5sum l -> upload_try l' = Some (t + 1) ->
            (time_sleep secs ;;
             upload_loop client bucket obj secs retry f uid chunk h l') w1
            = (o, w') ->
            match o with
            | Return l' =>
                num l' = num l /\ hashes l' = hashes l
                /\ in_md5sum l' = in_md5sum l
                /\ exists t', upload_try l' = Some t' /\ t <= t'
            | Raise e => e = ValueError /\ secs < 0
            | _ => False
            end).
  { intros l' Hn Hh Hm Hu E'. unfold bind, time_sleep in E'.
    destruct (Z.ltb_spec secs 0) as [Hs|Hs];
      [injection E' as <- <-; now split|].
    assert (Hf' : (Z.to_nat (retry - (t + 1)) <= f)%nat) by lia.
    specialize (IH l' (t + 1) _ o w' Hu Hf' E').
    destruct o as [l2| |e|]; auto.
    destruct IH as (H1 & H2 & H3 & t' & H4 & H5).
    repeat split; try congruence. exists t'. split; [assumption|lia]. }
  destruct r as [etag|].
  - destruct (str_eqb (slice_1_m1 etag) (hexdigest h)).
    + injection E as <- <-. repeat split. exists (t + 1).
      split; [reflexivity|lia].
    + refine (Retry _ _ _ _ _ E); reflexivity.
  - refine (Retry _ _ _ _ _ E); reflexivity.
Qed.

(** The reading loop makes no session call. *)
Lemma read_loop_log (uid : str) (fuel : nat) :
  forall (l : locals) (w : world St) o w',
    read_loop client bucket obj chunksize secs retry fuel uid l w = (o, w') ->
    exists evs, log w' = log w ++ evs /\ forallb is_loop_event evs = true.
Proof.
  induction fuel as [|f IH]; intros l w o w' E; cbn [read_loop] in E.
  - injection E as <- <-. exists []. now rewrite app_nil_r.
  - unfold bind at 1, buf_read in E.
    set (n := if chunksize <? 0 then List.length (buf w)
              else Z.to_nat chunksize) in E.
    set (chunk := firstn n (buf w)) in E.
    set (w0 := {| cst := cst w; buf := skipn n (buf w);
                  log := log w ++ [read_ev chunksize chunk] |}) in E.
    destruct chunk as [|b chunk'] eqn:Ec.
    + injection E as <- <-. exists [read_ev chunksize []]. now split.
    + rewrite <- Ec in E. unfold bind in E.
      destruct (upload_loop client bucket obj secs retry (Z.to_nat retry)
                  uid chunk (hashlib_md5 chunk) (next_chunk l chunk) w0)
        as [o1 w1] eqn:E1.
      destruct (upload_loop_log _ _ _ _ _ _ _ _ E1)
        as (_ & evs1 & Hl1 & Hf1).
      assert (Stop : exists evs, log w1 = log w ++ evs
                                 /\ forallb is_loop_event evs = true).
      { exists (read_ev chunksize chunk :: evs1). split.
        - rewrite Hl1. unfold w0. cbn [log]. rewrite Ec. now rewrite <- app_assoc.
        - simpl. apply forallb_forall. intros e He.
          rewrite forallb_forall in Hf1. unfold is_loop_event.
          rewrite (Hf1 e He). apply orb_true_r. }
      destruct o1 as [l2| | |]; try (injection E as <- <-; exact Stop).
      destruct (IH l2 w1 o w' E) as (evs & Hl & Hf).
      destruct Stop as (evs0 & Hl0 & Hf0).
      exists (evs0 ++ evs). split.
      * rewrite Hl, Hl0. now rewrite app_assoc.
      * rewrite forallb_app, Hf0, Hf. reflexivity.
Qed.

(** What the reading loop leaves behind: it returns once the input is
    used up, whatever the uploads did, having counted, hashed and fed to
    the stream digest every chunk. *)
Lemma read_loop_result (uid : str) (fuel : nat) :
  forall (l : locals) (w : world St) o w',
    0 < chunksize ->
    (List.length (buf w) < fuel)%nat ->
    read_loop client bucket obj chunksize secs retry fuel uid l w = (o, w') ->
    let cs := chunks_fuel fuel (Z.to_nat chunksize) (buf w) in
    match o with
    | Return l' =>
        buf w' = []
        /\ num l' = (num l + List.length cs)%nat
        /\ hashes l' = hashes l ++ map hashlib_md5 cs
        /\ in_md5sum l' = md5_update (in_md5sum l) (buf w)
        /\ match cs with
           | [] => upload_try l' = upload_try l
           | _ :: _ => exists t, upload_try l' = Some t /\ 0 <= t
           end
    | Raise e => e = ValueError /\ secs < 0
    | _ => False
    end.
Proof.
  induction fuel as [|f IH]; intros l w o w' Hc Hf E; [lia|].
  cbn [read_loop] in E. unfold bind at 1, buf_read in E.
  destruct (Z.ltb_spec chunksize 0) as [?|_]; [lia|].
  cbn [chunks_fuel]. set (n := Z.to_nat chunksize) in *.
  assert (Hn : (0 < n)%nat) by (unfold n; lia).
  set (w0 := {| cst := cst w; buf := skipn n (buf w);
                log := log w ++ [read_ev chunksize (firstn n (buf w))] |})
    in E.
  destruct (firstn n (buf w)) as [|b chunk'] eqn:Ec.
  - injection E as <- <-.
    assert (Hb : buf w = []).
    { destruct (buf w); [reflexivity|]. destruct n; [lia|discriminate]. }
    rewrite Hb. unfold w0. cbn [buf]. rewrite Hb.
    rewrite md5_update_nil, app_nil_r, Nat.add_0_r. simpl.
    destruct n; repeat split; reflexivity.
  - set (chunk := b :: chunk') in *. unfold bind in E.
    destruct (upload_loop client bucket obj secs retry (Z.to_nat retry)
                uid chunk (hashlib_md5 chunk) (next_chunk l chunk) w0)
      as [o1 w1] eqn:E1.
    destruct (upload_loop_log _ _ _ _ _ _ _ _ E1) as (Hb1 & _).
    assert (Hf0 : (Z.to_nat (retry - 0) <= Z.to_nat retry)%nat) by lia.
    pose proof (upload_loop_result _ _ _ _ (next_chunk l chunk) 0 _ _ _
                  eq_refl Hf0 E1) as R1.
    destruct o1 as [l2| |e|]; try contradiction;
      [|injection E as <- <-; exact R1].
    destruct R1 as (H1 & H2 & H3 & t1 & H4 & H5).
    assert (Hlen : (List.length (buf w1) < f)%nat).
    { rewrite Hb1. unfold w0. cbn [buf]. rewrite length_skipn.
      assert (List.length (buf w) <> 0)%nat.
      { intros Z0. apply length_zero_iff_nil in Z0. rewrite Z0 in Ec.
        destruct n; discriminate. }
      lia. }
    specialize (IH l2 w1 o w' Hc Hlen E). rewrite Hb1 in IH.
    unfold w0 in IH. cbn [buf] in IH.
    destruct o as [l'| |e|]; auto.
    destruct IH as (I1 & I2 & I3 & I4 & I5).
    split; [exact I1|]. split; [|split; [|split]].
    + rewrite I2, H1. cbn [next_chunk num List.length]. lia.
    + rewrite I3, H2. cbn [next_chunk hashes map].
      now rewrite <- app_assoc.
    + rewrite I4, H3. cbn [next_chunk in_md5sum].
      rewrite md5_update_app. f_equal. subst chunk. rewrite <- Ec.
      apply firstn_skipn.
    + destruct (chunks_fuel f n (skipn n (buf w))).
      * exists t1. split; [congruence|lia].
      * exact I5.
Qed.

(** Lines 157-181, by the value of [upload_try] and the response of the
    client. *)
Lemma finish_run (uid : str) (l : locals) (w : world St) :
  finish client bucket obj retry uid l w
  = match upload_try l with
    | None => (Raise UnboundLocalError, w)
    | Some t =>
        if t >=? retry then
          let '(r, c) := abort_multipart_upload client bucket obj uid
                           (cst w) in
          let w' := emit (abort_ev bucket obj uid r) c w in
          match r with
          | Ok _ => (SysExit 8, w')
          | ClientErr => (Raise ClientError, w')
          end
        else
          let '(r, c) := complete_multipart_upload client bucket uid obj
                           (parts l) (cst w) in
          let w' := emit (complete_ev bucket uid obj (parts l) r) c w in
          match r with
          | Ok _ => (Return (uid, in_md5sum l, hashes l), w')
          | ClientErr => (SysExit 8, w')
          end
    end.
Proof.
  unfold finish. destruct (upload_try l) as [t|]; [|reflexivity].
  destruct (t >=? retry); unfold clean_up, bind, call, ret, raise, sys_exit.
  - destruct (abort_multipart_upload client bucket obj uid (cst w))
      as [[u|] c]; reflexivity.
  - destruct (complete_multipart_upload client bucket uid obj (parts l)
                (cst w)) as [[u|] c]; reflexivity.
Qed.

Lemma do_upload_run (w : world St) :
  do_upload client bucket obj chunksize secs retry w
  = let '(r, c) := create_multipart_upload client bucket obj (cst w) in
    let w0 := emit (create_ev bucket obj r) c w in
    match r with
    | ClientErr => (SysExit 7, w0)
    | Ok uid =>
        if chunksize <=? 0 then (Raise ValueError, w0)
        else
          match read_loop client bucket obj chunksize secs retry
                  (S (List.length (buf w))) uid initial_locals w0 with
          | (Return l, w1) => finish client bucket obj retry uid l w1
          | (SysExit n, w1) => (SysExit n, w1)
          | (Raise e, w1) => (Raise e, w1)
          | (OutOfFuel, w1) => (OutOfFuel, w1)
          end
    end.
Proof.
  unfold do_upload, bind, call.
  destruct (create_multipart_upload client bucket obj (cst w))
    as [[uid|] c]; [|reflexivity].
  destruct (chunksize <=? 0); reflexivity.
Qed.

(** The ways a run of [do_upload] can go, with the log each leaves. *)
Inductive do_upload_case (data : bytes)
  : outcome (str * md5_obj * list md5_obj) -> list event -> Prop :=
| case_init_failed :
    do_upload_case data (SysExit 7) [create_ev bucket obj ClientErr]
| case_bad_chunksize uid :
    chunksize <= 0 ->
    do_upload_case data (Raise ValueError) [create_ev bucket obj (Ok uid)]
| case_bad_secs uid evs :
    0 < chunksize -> secs < 0 -> forallb is_loop_event evs = true ->
    do_upload_case data (Raise ValueError)
      (create_ev bucket obj (Ok uid) :: evs)
| case_unbound uid evs :
    0 < chunksize -> data = [] -> forallb is_loop_event evs = true ->
    do_upload_case data (Raise UnboundLocalError)
      (create_ev bucket obj (Ok uid) :: evs)
| case_aborted uid evs r :
    0 < chunksize -> data <> [] -> forallb is_loop_event evs = true ->
    do_upload_case data
      (match r with Ok _ => SysExit 8 | ClientErr => Raise ClientError end)
      (create_ev bucket obj (Ok uid) :: evs ++ [abort_ev bucket obj uid r])
| case_completed uid evs ps r :
    0 < chunksize -> data <> [] -> forallb is_loop_event evs = true ->
    do_upload_case data
      (match r with
       | Ok _ =>
           Return (uid, hashlib_md5 data,
                   map hashlib_md5 (chunks (Z.to_nat chunksize) data))
       | ClientErr => SysExit 8
       end)
      (create_ev bucket obj (Ok uid) :: evs
       ++ [complete_ev bucket uid obj ps r]).

Lemma do_upload_cases (w : world St) :
  exists evs,
    log (snd (do_upload client bucket obj chunksize secs retry w))
    = log w ++ evs
    /\ do_upload_case (buf w)
         (fst (do_upload client bucket obj chunksize secs retry w)) evs.
Proof.
  rewrite do_upload_run.
  destruct (create_multipart_upload client bucket obj (cst w))
    as [[uid|] c];
    [|eexists; split; [reflexivity|apply case_init_failed]].
  destruct (Z.leb_spec chunksize 0) as [Hc|Hc];
    [eexists; split; [reflexivity|now apply case_bad_chunksize]|].
  cbv zeta. set (w0 := emit (create_ev bucket obj (Ok uid)) c w).
  destruct (read_loop client bucket obj chunksize secs retry
              (S (List.length (buf w))) uid initial_locals w0)
    as [o1 w1] eqn:E1.
  destruct (read_loop_log _ _ _ _ _ _ E1) as (evs & Hl & Hf).
  assert (Hlen : (List.length (buf w0) < S (List.length (buf w)))%nat)
    by (unfold w0; cbn [emit buf]; lia).
  pose proof (read_loop_result _ _ _ _ _ _ Hc Hlen E1) as R.
  assert (Hl' : log w1 = log w ++ create_ev bucket obj (Ok uid) :: evs).
  { rewrite Hl. unfold w0. cbn [emit log]. now rewrite <- app_assoc. }
  destruct o1 as [l| |e|]; try contradiction.
  2:{ destruct R as [-> Hs]. cbn [fst snd]. eexists. split; [exact Hl'|].
      now apply case_bad_secs. }
  cbv zeta in R. unfold w0 in R. cbn [emit buf] in R.
  fold (chunks (Z.to_nat chunksize) (buf w)) in R.
  destruct R as (_ & _ & Hh & Hm & Hu). cbn [initial_locals hashes
    in_md5sum upload_try] in Hh, Hm, Hu.
  rewrite finish_run.
  destruct (buf w) as [|b d] eqn:Eb.
  - rewrite chunks_nil in Hu. rewrite Hu. cbn [fst snd]. eexists.
    split; [exact Hl'|]. now apply case_unbound.
  - assert (Hne : chunks (Z.to_nat chunksize) (b :: d) <> []).
    { intros X. pose proof (chunks_concat (Z.to_nat chunksize) (b :: d)) as Y.
      rewrite X in Y. simpl in Y. discriminate Y. lia. }
    destruct (chunks (Z.to_nat chunksize) (b :: d)) as [|c0 cs] eqn:Ecs;
      [contradiction|]. destruct Hu as (t & -> & Ht).
    assert (Hm' : in_md5sum l = hashlib_md5 (b :: d)) by exact Hm.
    destruct (t >=? retry).
    + destruct (abort_multipart_upload client bucket obj uid (cst w1))
        as [r c'].
      assert (A := case_aborted (b :: d) uid evs r Hc
                     ltac:(discriminate) Hf).
      exists (create_ev bucket obj (Ok uid) :: evs
              ++ [abort_ev bucket obj uid r]).
      destruct r; cbn [fst snd emit log]; rewrite Hl', <- app_assoc;
        (split; [reflexivity|exact A]).
    + destruct (complete_multipart_upload client bucket uid obj (parts l)
                  (cst w1)) as [r c'].
      assert (A := case_completed (b :: d) uid evs (parts l) r Hc
                     ltac:(discriminate) Hf).
      rewrite Ecs in A.
      exists (create_ev bucket obj (Ok uid) :: evs
              ++ [complete_ev bucket uid obj (parts l) r]).
      destruct r; cbn [fst snd emit log]; rewrite Hl', <- app_assoc;
        (split; [reflexivity|]); [|exact A].
      rewrite Hm', Hh. exact A.
Qed.

(** [do_upload] never runs out of the fuel it gives its loops. *)
Lemma do_upload_total (w : world St) :
  fst (do_upload client bucket obj chunksize secs retry w) <> OutOfFuel.
Proof.
  rewrite do_upload_run.
  destruct (create_multipart_upload client bucket obj (cst w))
    as [[uid|] c]; [|discriminate].
  destruct (Z.leb_spec chunksize 0) as [Hc|Hc]; [discriminate|].
  cbv zeta. set (w0 := emit (create_ev bucket obj (Ok uid)) c w).
  destruct (read_loop client bucket obj chunksize secs retry
              (S (List.length (buf w))) uid initial_locals w0)
    as [o1 w1] eqn:E1.
  assert (Hlen : (List.length (buf w0) < S (List.length (buf w)))%nat)
    by (unfold w0; cbn [emit buf]; lia).
  pose proof (read_loop_result _ _ _ _ _ _ Hc Hlen E1) as R.
  destruct o1 as [l| |e|]; try contradiction; try discriminate.
  rewrite finish_run. destruct (upload_try l) as [t|]; [|discriminate].
  destruct (t >=? retry).
  - destruct (abort_multipart_upload client bucket obj uid (cst w1))
      as [[u|] c']; discriminate.
  - destruct (complete_multipart_upload client bucket uid obj (parts l)
                (cst w1)) as [[u|] c']; discriminate.
Qed.

(** Loop events are neither aborts nor completions. *)
Lemma loop_events_count (p : event -> bool) (evs : list event) :
  (forall e, is_loop_event e = true -> p e = false) ->
  forallb is_loop_event evs = true ->
  count p evs = 0%nat.
Proof.
  intros Hp. unfold count. induction evs as [|e evs IH]; [reflexivity|].
  simpl. intros H. apply andb_true_iff in H as [He Hr].
  rewrite (Hp e He). now apply IH.
Qed.

Lemma loop_event_not_abort (e : event) :
  is_loop_event e = true -> is_abort e = false.
Proof. destruct e; cbv; congruence. Qed.

Lemma loop_event_not_complete (e : event) :
  is_loop_event e = true -> is_complete e = false.
Proof. destruct e; cbv; congruence. Qed.

Lemma loop_events_not_in (evs : list event) (e : event) :
  forallb is_loop_event evs = true -> is_loop_event e = false ->
  ~ In e evs.
Proof.
  intros Hf He Hin. rewrite forallb_forall in Hf. apply Hf in Hin.
  congruence.
Qed.

(** C5. In a run where [complete_multipart_upload] raises [ClientError]
    the process exits with status 8 (the exit of line 179); the failed
    call is the last call of the run and the only completion call (it is
    not retried), and no abort call is made. *)
Theorem complete_failure_is_terminal (w : world St)
    (b u k : str) (ps : list part) :
  log w = [] ->
  let run := do_upload client bucket obj chunksize secs retry w in
  In (complete_ev b u k ps ClientErr) (log (snd run)) ->
  fst run = SysExit 8
  /\ exists before,
       log (snd run) = before ++ [complete_ev b u k ps ClientErr]
       /\ count is_complete before = 0%nat
       /\ count is_abort (log (snd run)) = 0%nat.
Proof.
  intros Hlog run Hin. destruct (do_upload_cases w) as (lg & Elg & C).
  fold run in C, Elg. destruct run as [o w']. cbn [fst snd] in *.
  rewrite Hlog in Elg. cbn [app] in Elg. rewrite Elg in *. clear Elg.
  assert (NotLoop : forall evs, forallb is_loop_event evs = true ->
                      ~ In (complete_ev b u k ps ClientErr) evs).
  { intros evs Hf. now apply loop_events_not_in. }
  inversion C as [ | uid Hc | uid evs Hc Hs Hf | uid evs Hc Hd Hf
                 | uid evs r Hc Hd Hf | uid evs ps' r Hc Hd Hf ];
    subst; clear C; cbn [In] in Hin.
  - destruct Hin as [X|[]]; discriminate.
  - destruct Hin as [X|[]]; discriminate.
  - destruct Hin as [X|Hin]; [discriminate|]. now apply NotLoop in Hin.
  - destruct Hin as [X|Hin]; [discriminate|]. now apply NotLoop in Hin.
  - destruct Hin as [X|Hin]; [discriminate|].
    apply in_app_or in Hin as [Hin|Hin]; [now apply NotLoop in Hin|].
    cbn [In] in Hin. destruct Hin as [X|[]]. discriminate.
  - destruct Hin as [X|Hin]; [discriminate|].
    apply in_app_or in Hin as [Hin|Hin]; [now apply NotLoop in Hin|].
    cbn [In] in Hin. destruct Hin as [X|[]].
    injection X as <- <- <- <- ->. split; [reflexivity|].
    exists (create_ev bucket obj (Ok uid) :: evs). split; [reflexivity|].
    split.
    + unfold count. simpl. fold (count is_complete evs).
      apply loop_events_count; [apply loop_event_not_complete|assumption].
    + unfold count. simpl. rewrite filter_app. simpl.
      rewrite app_nil_r. fold (count is_abort evs).
      apply loop_events_count; [apply loop_event_not_abort|assumption].
Qed.


(** A chunk's reads, in the log of the reading loop. *)
Lemma attempt_events_no_read (evs : list event) :
  forallb is_attempt_event evs = true -> filter is_read evs = [].
Proof.
  induction evs as [|e evs IH]; [reflexivity|]. simpl. intros H.
  apply andb_true_iff in H as [He Hr]. rewrite (IH Hr).
  destruct e; try discriminate; reflexivity.
Qed.

Lemma read_loop_reads (uid : str) (fuel : nat) :
  forall (l l' : locals) (w w' : world St),
    0 < chunksize ->
    (List.length (buf w) < fuel)%nat ->
    read_loop client bucket obj chunksize secs retry fuel uid l w
    = (Return l', w') ->
    exists evs,
      log w' = log w ++ evs
      /\ filter is_read evs
         = map (read_ev chunksize)
             (chunks_fuel fuel (Z.to_nat chunksize) (buf w))
           ++ [read_ev chunksize []].
Proof.
  induction fuel as [|f IH]; intros l l' w w' Hc Hf E; [lia|].
  cbn [read_loop] in E. unfold bind at 1, buf_read in E.
  destruct (Z.ltb_spec chunksize 0) as [?|_]; [lia|].
  cbn [chunks_fuel]. set (n := Z.to_nat chunksize) in *.
  set (w0 := {| cst := cst w; buf := skipn n (buf w);
                log := log w ++ [read_ev chunksize (firstn n (buf w))] |})
    in E.
  destruct (firstn n (buf w)) as [|b chunk'] eqn:Ec.
  - injection E as <- <-. exists [read_ev chunksize []]. now split.
  - set (chunk := b :: chunk') in *. unfold bind in E.
    destruct (upload_loop client bucket obj secs retry (Z.to_nat retry)
                uid chunk (hashlib_md5 chunk) (next_chunk l chunk) w0)
      as [o1 w1] eqn:E1.
    destruct (upload_loop_log _ _ _ _ _ _ _ _ E1) as (Hb1 & evs1 & Hl1 & Hf1).
    destruct o1 as [l2| | |]; try discriminate.
    assert (Hlen : (List.length (buf w1) < f)%nat).
    { rewrite Hb1. unfold w0. cbn [buf]. rewrite length_skipn.
      assert (List.length (buf w) <> 0)%nat.
      { intros Z0. apply length_zero_iff_nil in Z0. rewrite Z0 in Ec.
        destruct n; discriminate. }
      assert (0 < n)%nat by (unfold n; lia). lia. }
    destruct (IH l2 l' w1 w' Hc Hlen E) as (evs & Hl & Hr).
    exists (read_ev chunksize chunk :: evs1 ++ evs). split.
    + rewrite Hl, Hl1. unfold w0. cbn [log].
      rewrite <- !app_assoc. reflexivity.
    + cbn [filter is_read]. rewrite filter_app, Hr.
      rewrite (attempt_events_no_read _ Hf1), Hb1. reflexivity.
Qed.

(** What [do_upload] returns when it returns. *)
Lemma do_upload_returns (w : world St) (u : str) (m : md5_obj)
    (hs : list md5_obj) :
  fst (do_upload client bucket obj chunksize secs retry w)
  = Return (u, m, hs) ->
  0 < chunksize /\ buf w <> []
  /\ m = hashlib_md5 (buf w)
  /\ hs = map hashlib_md5 (chunks (Z.to_nat chunksize) (buf w)).
Proof.
  intros H. destruct (do_upload_cases w) as (evs & _ & C).
  rewrite H in C.
  inversion C as [ | uid Hc | uid evs' Hc Hs Hf | uid evs' Hc Hd Hf
                 | uid evs' r Hc Hd Hf X | uid evs' ps' r Hc Hd Hf X ];
    subst; destruct r; try discriminate.
  injection X as <- <- <-. repeat split; assumption.
Qed.

(** The reading loop from the initial locals: it returns with the input
    used up, one checksum per chunk read and the stream digest fed with
    the whole input. *)
Lemma read_loop_initial (uid : str) (w : world St) :
  0 < chunksize -> 0 <= secs ->
  exists l' w',
    read_loop client bucket obj chunksize secs retry
      (S (List.length (buf w))) uid initial_locals w = (Return l', w')
    /\ buf w' = []
    /\ num l' = List.length (chunks (Z.to_nat chunksize) (buf w))
    /\ hashes l' = map hashlib_md5 (chunks (Z.to_nat chunksize) (buf w))
    /\ in_md5sum l' = hashlib_md5 (buf w).
Proof.
  intros Hc Hs.
  destruct (read_loop client bucket obj chunksize secs retry
              (S (List.length (buf w))) uid initial_locals w)
    as [o w'] eqn:E.
  pose proof (read_loop_result _ _ _ _ _ _ Hc (Nat.lt_succ_diag_r _) E) as R.
  destruct o as [l'| |e|]; try contradiction; [|destruct R; lia].
  destruct R as (R1 & R2 & R3 & R4 & _). exists l', w'.
  repeat split; assumption.
Qed.

(** C8. The reading loop returns for every input, having read all of it,
    and the stream digest it leaves is the one obtained by feeding the
    chunks one after the other to a fresh MD5 object; its digest is the
    MD5 of the whole input. The digest that [do_upload] returns, when it
    returns, is that one. *)
Theorem stream_digest_is_md5_of_input (uid : str) (w : world St) :
  0 < chunksize -> 0 <= secs ->
  (exists l' w',
     read_loop client bucket obj chunksize secs retry
       (S (List.length (buf w))) uid initial_locals w = (Return l', w')
     /\ buf w' = []
     /\ in_md5sum l'
        = fold_left md5_update (chunks (Z.to_nat chunksize) (buf w))
            (hashlib_md5 [])
     /\ digest (in_md5sum l') = md5_digest (buf w)
     /\ hexdigest (in_md5sum l') = hex (md5_digest (buf w)))
  /\ forall u m hs,
       fst (do_upload client bucket obj chunksize secs retry w)
       = Return (u, m, hs) ->
       digest m = md5_digest (buf w).
Proof.
  intros Hc Hs. split.
  - destruct (read_loop_initial uid w Hc Hs)
      as (l' & w' & E & Hb & _ & _ & Hm).
    exists l', w'. split; [exact E|]. split; [exact Hb|].
    rewrite Hm. repeat split.
    rewrite fold_md5_update, chunks_concat by lia. reflexivity.
  - intros u m hs H. apply do_upload_returns in H as (_ & _ & -> & _).
    reflexivity.
Qed.

(** C10. A chunk's checksum is appended to [hashes] when the chunk has
    been read and before the retry loop is entered, and the retry loop
    leaves [hashes] alone. So at the end of the reading loop [hashes]
    holds the checksum of every chunk read, in order, whatever became of
    the uploads, and this is the list that [do_upload] returns for
    [check_integrity]. *)
Theorem hashes_grow_with_each_chunk (uid : str) (w : world St) :
  0 < chunksize -> 0 <= secs ->
  let n := Z.to_nat chunksize in
  (forall (fuel : nat) (l : locals) (w0 : world St),
      buf w0 <> [] ->
      let chunk := firstn n (buf w0) in
      let l1 := next_chunk l chunk in
      hashes l1 = hashes l ++ [hashlib_md5 chunk]
      /\ read_loop client bucket obj chunksize secs retry (S fuel) uid l w0
         = (l2 <- upload_loop client bucket obj secs retry (Z.to_nat retry)
                    uid chunk (hashlib_md5 chunk) l1 ;;
            read_loop client bucket obj chunksize secs retry fuel uid l2)
             {| cst := cst w0; buf := skipn n (buf w0);
                log := log w0 ++ [read_ev chunksize chunk] |}
      /\ exists l2 w2,
           upload_loop client bucket obj secs retry (Z.to_nat retry) uid
             chunk (hashlib_md5 chunk) l1
             {| cst := cst w0; buf := skipn n (buf w0);
                log := log w0 ++ [read_ev chunksize chunk] |}
           = (Return l2, w2)
           /\ hashes l2 = hashes l1)
  /\ (exists l' w' evs,
        read_loop client bucket obj chunksize secs retry
          (S (List.length (buf w))) uid initial_locals w = (Return l', w')
        /\ log w' = log w ++ evs
        /\ filter is_read evs
           = map (read_ev chunksize) (chunks n (buf w))
             ++ [read_ev chunksize []]
        /\ hashes l' = map hashlib_md5 (chunks n (buf w)))
  /\ forall u m hs,
       fst (do_upload client bucket obj chunksize secs retry w)
       = Return (u, m, hs) ->
       hs = map hashlib_md5 (chunks n (buf w)).
Proof.
  intros Hc Hs n. split; [|split].
  - intros fuel l w0 Hne chunk l1. split; [reflexivity|].
    assert (Hn : (0 < n)%nat) by (unfold n; lia).
    assert (Hch : exists b c, chunk = b :: c).
    { unfold chunk. destruct (buf w0) as [|b d]; [contradiction|].
      destruct n; [lia|]. simpl. eauto. }
    destruct Hch as (b & c & Hch). split.
    + cbn [read_loop]. unfold bind at 1, buf_read.
      destruct (Z.ltb_spec chunksize 0) as [?|_]; [lia|].
      fold n. fold chunk. unfold l1. rewrite Hch. reflexivity.
    + set (w1 := {| cst := cst w0; buf := skipn n (buf w0);
                    log := log w0 ++ [read_ev chunksize chunk] |}).
      destruct (upload_loop client bucket obj secs retry (Z.to_nat retry)
                  uid chunk (hashlib_md5 chunk) l1 w1) as [o w2] eqn:E.
      assert (Hf0 : (Z.to_nat (retry - 0) <= Z.to_nat retry)%nat) by lia.
      pose proof (upload_loop_result _ _ _ _ l1 0 _ _ _ eq_refl Hf0 E) as R.
      destruct o as [l2| |e|]; try contradiction; [|destruct R; lia].
      exists l2, w2. split; [reflexivity|]. apply R.
  - destruct (read_loop_initial uid w Hc Hs)
      as (l' & w' & E & _ & _ & Hh & _).
    destruct (read_loop_reads _ _ _ _ _ _ Hc (Nat.lt_succ_diag_r _) E)
      as (evs & Hl & Hr).
    exists l', w', evs. repeat split; assumption.
  - intros u m hs H. now apply do_upload_returns in H.
Qed.

(** Without any attempt allowed the retry loop does nothing. *)
Lemma upload_loop_no_retry (uid : str) (chunk : bytes) (h : md5_obj)
    (fuel : nat) (l : locals) (w : world St) :
  retry <= 0 -> upload_try l = Some 0 ->
  upload_loop client bucket obj secs retry fuel uid chunk h l w
  = (Return l, w).
Proof.
  intros Hr Hu. destruct fuel; cbn [upload_loop]; rewrite Hu;
    destruct (Z.ltb_spec 0 retry); try lia; reflexivity.
Qed.

Lemma read_loop_no_retry (uid : str) (fuel : nat) :
  forall (l : locals) (w : world St),
    retry <= 0 -> 0 < chunksize ->
    (List.length (buf w) < fuel)%nat ->
    let cs := chunks_fuel fuel (Z.to_nat chunksize) (buf w) in
    read_loop client bucket obj chunksize secs retry fuel uid l w
    = (Return (fold_left next_chunk cs l),
       {| cst := cst w; buf := [];
          log := log w ++ map (read_ev chunksize) cs
                 ++ [read_ev chunksize []] |}).
Proof.
  induction fuel as [|f IH]; intros l w Hr Hc Hf; [lia|].
  cbn [read_loop chunks_fuel]. unfold bind at 1, buf_read.
  destruct (Z.ltb_spec chunksize 0) as [?|_]; [lia|].
  set (n := Z.to_nat chunksize) in *.
  assert (Hn : (0 < n)%nat) by (unfold n; lia).
  destruct (firstn n (buf w)) as [|b chunk'] eqn:Ec.
  - assert (Hb : buf w = []).
    { destruct (buf w); [reflexivity|]. destruct n; [lia|discriminate]. }
    rewrite Hb. simpl. destruct n; reflexivity.
  - unfold bind. rewrite upload_loop_no_retry by (assumption || reflexivity).
    rewrite IH; [|assumption|assumption|].
    + cbn [buf cst log fold_left map]. rewrite <- app_assoc. reflexivity.
    + cbn [buf]. rewrite length_skipn.
      assert (List.length (buf w) <> 0)%nat.
      { intros Z0. apply length_zero_iff_nil in Z0. rewrite Z0 in Ec.
        destruct n; discriminate. }
      lia.
Qed.

Lemma fold_next_chunk (cs : list bytes) :
  forall l : locals,
    hashes (fold_left next_chunk cs l) = hashes l ++ map hashlib_md5 cs
    /\ parts (fold_left next_chunk cs l) = parts l
    /\ upload_try (fold_left next_chunk cs l)
       = match cs with [] => upload_try l | _ :: _ => Some 0 end.
Proof.
  induction cs as [|c cs IH]; intros l; cbn [fold_left map].
  - now rewrite app_nil_r.
  - destruct (IH (next_chunk l c)) as (H1 & H2 & H3).
    rewrite H1, H2, H3. cbn [next_chunk hashes parts upload_try].
    rewrite <- app_assoc. repeat split. now destruct cs.
Qed.

Lemma chunks_nonempty (n : nat) (data : bytes) :
  (0 < n)%nat -> data <> [] -> chunks n data <> [].
Proof.
  intros Hn Hd X. pose proof (chunks_concat n data Hn) as Y.
  rewrite X in Y. simpl in Y. congruence.
Qed.

Lemma count_reads (p : event -> bool) (size : Z) (cs : list bytes) :
  (forall c, p (read_ev size c) = false) ->
  count p (map (read_ev size) cs) = 0%nat.
Proof.
  intros Hp. unfold count. induction cs as [|c cs IH]; [reflexivity|].
  simpl. now rewrite Hp.
Qed.

(** C9. With [retry = 0] and a non-empty input, [do_upload] opens the
    session, reads the input chunk by chunk to its end without a single
    [upload_part] call, appending the checksum of every chunk to [hashes],
    and then makes one call, the abort of the session; it ends with exit
    status 8 (with the uncaught [ClientError] if the abort call itself
    fails). *)
Theorem no_retry_reads_all_then_aborts (w : world St) (uid : str)
    (c : St) :
  retry = 0 ->
  0 < chunksize ->
  buf w <> [] ->
  log w = [] ->
  create_multipart_upload client bucket obj (cst w) = (Ok uid, c) ->
  let cs := chunks (Z.to_nat chunksize) (buf w) in
  let run := do_upload client bucket obj chunksize secs retry w in
  exists r,
    log (snd run)
    = create_ev bucket obj (Ok uid) :: map (read_ev chunksize) cs
      ++ [read_ev chunksize []; abort_ev bucket obj uid r]
    /\ count is_upload_part (log (snd run)) = 0%nat
    /\ count is_abort (log (snd run)) = 1%nat
    /\ count is_complete (log (snd run)) = 0%nat
    /\ fst run = match r with
                 | Ok _ => SysExit 8
                 | ClientErr => Raise ClientError
                 end
    /\ exists l' w',
         read_loop client bucket obj chunksize secs retry
           (S (List.length (buf w))) uid initial_locals
           (emit (create_ev bucket obj (Ok uid)) c w) = (Return l', w')
         /\ buf w' = []
         /\ hashes l' = map hashlib_md5 cs
         /\ parts l' = [].
Proof.
  intros Hr Hc Hne Hlog Hcr. cbv zeta.
  assert (Hr' : retry <= 0) by lia.
  set (w0 := emit (create_ev bucket obj (Ok uid)) c w).
  assert (Hlen : (List.length (buf w0) < S (List.length (buf w)))%nat)
    by (unfold w0; cbn [emit buf]; lia).
  pose proof (read_loop_no_retry uid _ initial_locals w0 Hr' Hc Hlen) as E.
  cbv zeta in E.
  change (chunks_fuel (S (List.length (buf w))) (Z.to_nat chunksize)
            (buf w0))
    with (chunks (Z.to_nat chunksize) (buf w)) in E.
  assert (Hcs : chunks (Z.to_nat chunksize) (buf w) <> [])
    by (apply chunks_nonempty; [lia|assumption]).
  remember (chunks (Z.to_nat chunksize) (buf w)) as cs eqn:Ecs.
  destruct (fold_next_chunk cs initial_locals) as (Fh & Fp & Fu).
  destruct cs as [|c0 cs']; [contradiction|].
  remember (fold_left next_chunk (c0 :: cs') initial_locals) as l' eqn:El.
  destruct (abort_multipart_upload client bucket obj uid c) as [r c'] eqn:Ea.
  assert (Run : do_upload client bucket obj chunksize secs retry w
    = (match r with
       | Ok _ => SysExit 8
       | ClientErr => Raise ClientError
       end,
       {| cst := c'; buf := [];
          log := create_ev bucket obj (Ok uid)
                 :: map (read_ev chunksize) (c0 :: cs')
                 ++ [read_ev chunksize []; abort_ev bucket obj uid r] |})).
  { rewrite do_upload_run, Hcr.
    destruct (Z.leb_spec chunksize 0) as [?|_]; [lia|].
    cbv zeta. fold w0. rewrite E. rewrite finish_run, Fu.
    destruct (Z.geb_spec 0 retry) as [_|?]; [|lia].
    unfold w0. cbn [emit log buf cst]. rewrite Ea.
    rewrite Hlog. cbn [app].
    destruct r; unfold emit; cbn [log buf cst app];
      rewrite <- app_assoc; reflexivity. }
  exists r. rewrite Run. cbn [fst snd log].
  split; [reflexivity|]. split; [|split; [|split; [|split]]].
  - unfold count. cbn [filter is_upload_part]. rewrite filter_app.
    rewrite length_app. fold (count is_upload_part
                               (map (read_ev chunksize) (c0 :: cs'))).
    now rewrite count_reads.
  - unfold count. cbn [filter is_abort]. rewrite filter_app.
    rewrite length_app. fold (count is_abort
                               (map (read_ev chunksize) (c0 :: cs'))).
    now rewrite count_reads.
  - unfold count. cbn [filter is_complete]. rewrite filter_app.
    rewrite length_app. fold (count is_complete
                               (map (read_ev chunksize) (c0 :: cs'))).
    now rewrite count_reads.
  - reflexivity.
  - eexists _, _. split; [exact E|]. repeat split; assumption.
Qed.

(** C3, the empty input. [upload_try] is bound by line 119 only, inside
    the reading loop, so on an empty input the test of line 158 raises
    [UnboundLocalError]: the run ends after the first (empty) read, with
    the session open and [complete_multipart_upload] never called. *)
Theorem empty_input_raises_unbound_local (w : world St) (uid : str)
    (c : St) :
  buf w = [] ->
  0 < chunksize ->
  create_multipart_upload client bucket obj (cst w) = (Ok uid, c) ->
  do_upload client bucket obj chunksize secs retry w
  = (Raise UnboundLocalError,
     {| cst := c; buf := [];
        log := log w ++ [create_ev bucket obj (Ok uid);
                          read_ev chunksize []] |}).
Proof.
  intros Hb Hc Hcr. rewrite do_upload_run, Hcr.
  destruct (Z.leb_spec chunksize 0) as [?|_]; [lia|].
  rewrite Hb. cbn [List.length read_loop]. unfold bind, buf_read.
  destruct (Z.ltb_spec chunksize 0) as [?|_]; [lia|].
  cbn [emit buf cst log]. rewrite Hb, firstn_nil, skipn_nil.
  unfold ret. rewrite finish_run. cbn [initial_locals upload_try log].
  rewrite <- app_assoc. reflexivity.
Qed.

(** ** The whole run *)

Lemma existsb_loop_events (p : event -> bool) (evs : list event) :
  (forall e, is_loop_event e = true -> p e = false) ->
  forallb is_loop_event evs = true ->
  existsb p evs = false.
Proof.
  intros Hp. induction evs as [|e evs IH]; [reflexivity|]. simpl.
  intros H. apply andb_true_iff in H as [He Hr].
  now rewrite (Hp e He), IH.
Qed.

Lemma reported_tag_app (a b : list event) :
  reported_tag (a ++ b)
  = match reported_tag a with
    | Some t => Some t
    | None => reported_tag b
    end.
Proof.
  induction a as [|e a IH]; [reflexivity|]. simpl.
  destruct (tag_of e); [reflexivity|exact IH].
Qed.

Lemma reported_tag_loop_events (evs : list event) :
  forallb is_loop_event evs = true -> reported_tag evs = None.
Proof.
  induction evs as [|e evs IH]; [reflexivity|]. simpl. intros H.
  apply andb_true_iff in H as [He Hr]. rewrite (IH Hr).
  destruct e; try discriminate; reflexivity.
Qed.

(** The observations on a log that is a session opening, loop events and
    a tail. *)
Lemma observe_run (b o : str) (r0 : response str)
    (evs tail : list event) :
  forallb is_loop_event evs = true ->
  init_failed (create_ev b o r0 :: evs ++ tail)
  = negb (answered r0) || init_failed tail
  /\ abort_returned (create_ev b o r0 :: evs ++ tail) = abort_returned tail
  /\ complete_failed (create_ev b o r0 :: evs ++ tail)
     = complete_failed tail
  /\ object_not_found (create_ev b o r0 :: evs ++ tail)
     = object_not_found tail
  /\ reported_tag (create_ev b o r0 :: evs ++ tail) = reported_tag tail.
Proof.
  intros Hf.
  unfold init_failed, abort_returned, complete_failed, object_not_found.
  cbn [existsb reported_tag tag_of]. rewrite !existsb_app.
  rewrite reported_tag_app, (reported_tag_loop_events _ Hf).
  assert (L : forall p, (forall e, is_loop_event e = true -> p e = false) ->
                existsb p evs = false)
    by (intros p Hp; now apply existsb_loop_events).
  rewrite !L by (intros e; destruct e; cbv; congruence).
  destruct r0; repeat split; reflexivity.
Qed.

Lemma upload_run (w : world St) :
  upload client bucket obj chunksize secs retry w
  = match do_upload client bucket obj chunksize secs retry w with
    | (Return (u, m, hs), w1) =>
        let '(r, c) := head_object client bucket obj (cst w1) in
        let w2 := emit (head_object_ev bucket obj r) c w1 in
        match r with
        | ClientErr => (SysExit 8, w2)
        | Ok tag =>
            (SysExit (if str_eqb (local_etag hs) (strip is_dquote tag)
                      then 0 else 1), w2)
        end
    | (SysExit n, w1) => (SysExit n, w1)
    | (Raise e, w1) => (Raise e, w1)
    | (OutOfFuel, w1) => (OutOfFuel, w1)
    end.
Proof.
  unfold upload, bind at 1.
  destruct (do_upload client bucket obj chunksize secs retry w)
    as [[[[u m] hs]| | |] w1]; try reflexivity.
  unfold bind.
  destruct (head_object client bucket obj (cst w1)) as [[tag|] c] eqn:Eh.
  - rewrite (check_integrity_found _ _ _ _ _ _ _ Eh).
    destruct (str_eqb (local_etag hs) (strip is_dquote tag)); reflexivity.
  - now rewrite (check_integrity_not_found _ _ _ _ _ _ Eh).
Qed.

(** C7, as the program has it. The exit status of a run tells four
    classes of runs apart: 7 when the session could not be opened; 8 when
    the session was aborted, when the completion call failed and when the
    metadata of the finished object could not be fetched; 1 when the
    composite ETag does not match; 0 when it does. *)
Theorem upload_exit_status (w : world St) :
  log w = [] ->
  let run := upload client bucket obj chunksize secs retry w in
  let lg := log (snd run) in
  let local :=
    local_etag (map hashlib_md5 (chunks (Z.to_nat chunksize) (buf w))) in
  (init_failed lg = true -> fst run = SysExit 7)
  /\ (abort_returned lg = true -> fst run = SysExit 8)
  /\ (complete_failed lg = true -> fst run = SysExit 8)
  /\ (object_not_found lg = true -> fst run = SysExit 8)
  /\ (forall tag,
        reported_tag lg = Some tag ->
        fst run = SysExit (if str_eqb local (strip is_dquote tag)
                           then 0 else 1)).
Proof.
  intros Hlog. cbv zeta. rewrite upload_run.
  destruct (do_upload_cases w) as (evs0 & Hl & C).
  rewrite Hlog in Hl. cbn [app] in Hl.
  destruct (do_upload client bucket obj chunksize secs retry w) as [o w1].
  cbn [fst snd] in Hl, C.
  assert (Fin : forall (o' : outcome unit) r0 evs tail,
            forallb is_loop_event evs = true ->
            (negb (answered r0) || init_failed tail = true ->
             o' = SysExit 7) ->
            (abort_returned tail = true -> o' = SysExit 8) ->
            (complete_failed tail = true -> o' = SysExit 8) ->
            (object_not_found tail = true -> o' = SysExit 8) ->
            (forall tag, reported_tag tail = Some tag ->
               o' = SysExit
                      (if str_eqb
                            (local_etag
                               (map hashlib_md5
                                  (chunks (Z.to_nat chunksize) (buf w))))
                            (strip is_dquote tag) then 0 else 1)) ->
            let lg := create_ev bucket obj r0 :: evs ++ tail in
            (init_failed lg = true -> o' = SysExit 7)
            /\ (abort_returned lg = true -> o' = SysExit 8)
            /\ (complete_failed lg = true -> o' = SysExit 8)
            /\ (object_not_found lg = true -> o' = SysExit 8)
            /\ (forall tag, reported_tag lg = Some tag ->
                  o' = SysExit
                         (if str_eqb
                               (local_etag
                                  (map hashlib_md5
                                     (chunks (Z.to_nat chunksize) (buf w))))
                               (strip is_dquote tag) then 0 else 1))).
  { intros o' r0 evs tail Hf H1 H2 H3 H4 H5 lg.
    destruct (observe_run bucket obj r0 evs tail Hf)
      as (O1 & O2 & O3 & O4 & O5).
    unfold lg. rewrite O1, O2, O3, O4, O5. repeat split; assumption. }
  revert Hl.
  inversion C as [ | uid Hc | uid evs Hc Hs Hf | uid evs Hc Hd Hf
                 | uid evs r Hc Hd Hf | uid evs ps r Hc Hd Hf ];
    subst; clear C; intros Hl.
  - cbn [fst snd]. rewrite Hl.
    apply (Fin _ ClientErr [] []); try reflexivity; try discriminate.
  - cbn [fst snd]. rewrite Hl.
    apply (Fin _ (Ok uid) [] []); try reflexivity; try discriminate.
  - cbn [fst snd]. rewrite Hl, <- (app_nil_r evs).
    apply (Fin _ (Ok uid) evs []); try assumption; try discriminate.
  - cbn [fst snd]. rewrite Hl, <- (app_nil_r evs).
    apply (Fin _ (Ok uid) evs []); try assumption; try discriminate.
  - destruct r as [[]|]; cbn [fst snd]; rewrite Hl.
    + apply (Fin _ (Ok uid) evs [abort_ev bucket obj uid (Ok tt)]);
        try assumption; try discriminate; reflexivity.
    + apply (Fin _ (Ok uid) evs [abort_ev bucket obj uid ClientErr]);
        try assumption; try discriminate.
  - destruct r as [[]|]; cbn [fst snd].
    + destruct (head_object client bucket obj (cst w1)) as [[tag|] c].
      * cbn [fst snd emit log]. rewrite Hl. cbn [app].
        rewrite <- app_assoc.
        apply (Fin _ (Ok uid) evs
                 [complete_ev bucket uid obj ps (Ok tt);
                  head_object_ev bucket obj (Ok tag)]);
          try assumption; try discriminate.
        intros tag' X. injection X as <-. reflexivity.
      * cbn [fst snd emit log]. rewrite Hl. cbn [app].
        rewrite <- app_assoc.
        apply (Fin _ (Ok uid) evs
                 [complete_ev bucket uid obj ps (Ok tt);
                  head_object_ev bucket obj ClientErr]);
          try assumption; try discriminate; reflexivity.
    + rewrite Hl.
      apply (Fin _ (Ok uid) evs [complete_ev bucket uid obj ps ClientErr]);
        try assumption; try discriminate; reflexivity.
Qed.

(** The number of parts: the reading loop numbers [ceil(L / C)] chunks,
    and an input that fits in one chunk is part 1 as a whole. *)
Lemma read_loop_part_count (uid : str) (w : world St) :
  0 < chunksize -> 0 <= secs ->
  exists l' w',
    read_loop client bucket obj chunksize secs retry
      (S (List.length (buf w))) uid initial_locals w = (Return l', w')
    /\ num l' = ceil_div (List.length (buf w)) (Z.to_nat chunksize)
    /\ List.length (hashes l') = num l'
    /\ ((0 < List.length (buf w) <= Z.to_nat chunksize)%nat ->
        hashes l' = [hashlib_md5 (buf w)]).
Proof.
  intros Hc Hs.
  destruct (read_loop_initial uid w Hc Hs) as (l' & w' & E & _ & Hn & Hh & _).
  exists l', w'. split; [exact E|]. split; [|split].
  - rewrite Hn. apply chunks_count. lia.
  - now rewrite Hh, length_map.
  - intros Hl. now rewrite Hh, chunks_single.
Qed.

(** [parts] gets one entry per answered [upload_part] call, whether the
    ETag of the answer matched or not. *)
Lemma answered_parts_app (a b : list event) :
  answered_parts (a ++ b) = answered_parts a ++ answered_parts b.
Proof.
  induction a as [|e a IH]; [reflexivity|]. simpl.
  destruct (answered_part e); simpl; now rewrite IH.
Qed.

Lemma upload_loop_parts (uid : str) (chunk : bytes) (h : md5_obj)
    (fuel : nat) :
  forall (l l' : locals) (w w' : world St),
    upload_loop client bucket obj secs retry fuel uid chunk h l w
    = (Return l', w') ->
    exists evs,
      log w' = log w ++ evs /\ parts l' = parts l ++ answered_parts evs.
Proof.
  assert (Nil : forall (l : locals) (w : world St),
            exists evs, log w = log w ++ evs
                        /\ parts l = parts l ++ answered_parts evs).
  { intros l w. exists []. now rewrite !app_nil_r. }
  induction fuel as [|f IH]; intros l l' w w' E; cbn [upload_loop] in E;
    destruct (upload_try l) as [t|]; try discriminate;
    destruct (t <? retry); try discriminate;
    try (injection E as <- <-; apply Nil).
  unfold bind at 1 in E. rewrite try_upload_part_run in E.
  set (args := part_args bucket obj uid chunk h l) in E.
  destruct (upload_part client args (cst w)) as [r c]. cbn [fst snd] in E.
  set (w1 := emit (upload_part_ev args r) c w) in E.
  assert (Retry : forall l1 : locals,
            (time_sleep secs ;;
             upload_loop client bucket obj secs retry f uid chunk h l1) w1
            = (Return l', w') ->
            exists evs,
              log w' = log w1 ++ sleep_ev secs :: evs
              /\ parts l' = parts l1 ++ answered_parts evs).
  { intros l1 E'. unfold bind, time_sleep in E'.
    destruct (secs <? 0); [discriminate|].
    destruct (IH l1 l' _ w' E') as (evs & Hl & Hp). exists evs.
    split; [|exact Hp]. rewrite Hl. cbn [emit log].
    now rewrite <- app_assoc. }
  destruct r as [etag|].
  - destruct (str_eqb (slice_1_m1 etag) (hexdigest h)).
    + injection E as <- <-. exists [upload_part_ev args (Ok etag)].
      split; reflexivity.
    + destruct (Retry _ E) as (evs & Hl & Hp).
      exists (upload_part_ev args (Ok etag) :: sleep_ev secs :: evs). split.
      * rewrite Hl. unfold w1. cbn [emit log]. now rewrite <- app_assoc.
      * rewrite Hp. cbn [append_part set_upload_try parts answered_parts
                           answered_part]. now rewrite <- app_assoc.
  - destruct (Retry _ E) as (evs & Hl & Hp).
    exists (upload_part_ev args ClientErr :: sleep_ev secs :: evs). split.
    + rewrite Hl. unfold w1. cbn [emit log]. now rewrite <- app_assoc.
    + rewrite Hp. reflexivity.
Qed.

Lemma read_loop_parts (uid : str) (fuel : nat) :
  forall (l l' : locals) (w w' : world St),
    read_loop client bucket obj chunksize secs retry fuel uid l w
    = (Return l', w') ->
    exists evs,
      log w' = log w ++ evs /\ parts l' = parts l ++ answered_parts evs.
Proof.
  induction fuel as [|f IH]; intros l l' w w' E; cbn [read_loop] in E;
    [discriminate|].
  unfold bind at 1, buf_read in E.
  set (n := if chunksize <? 0 then List.length (buf w)
            else Z.to_nat chunksize) in E.
  set (w0 := {| cst := cst w; buf := skipn n (buf w);
                log := log w ++ [read_ev chunksize (firstn n (buf w))] |})
    in E.
  destruct (firstn n (buf w)) as [|b chunk'] eqn:Ec.
  - injection E as <- <-. exists [read_ev chunksize []].
    split; [reflexivity|]. now rewrite app_nil_r.
  - unfold bind in E.
    destruct (upload_loop client bucket obj secs retry (Z.to_nat retry)
                uid (b :: chunk') (hashlib_md5 (b :: chunk'))
                (next_chunk l (b :: chunk')) w0) as [o1 w1] eqn:E1.
    destruct o1 as [l2| | |]; try discriminate.
    destruct (upload_loop_parts _ _ _ _ _ _ _ _ E1) as (evs1 & Hl1 & Hp1).
    destruct (IH l2 l' w1 w' E) as (evs & Hl & Hp).
    exists (read_ev chunksize (b :: chunk') :: evs1 ++ evs). split.
    + rewrite Hl, Hl1. unfold w0. cbn [log].
      rewrite <- !app_assoc. reflexivity.
    + rewrite Hp, Hp1. cbn [next_chunk parts answered_parts answered_part].
      now rewrite answered_parts_app, app_assoc.
Qed.

(** The list handed to [complete_multipart_upload] holds, in the order of
    the calls, an entry for every answered [upload_part] call of the
    run. *)
Lemma completed_parts_are_answered_calls (w : world St) :
  log w = [] ->
  let run := do_upload client bucket obj chunksize secs retry w in
  forall b u k ps r,
    In (complete_ev b u k ps r) (log (snd run)) ->
    ps = answered_parts (log (snd run)).
Proof.
  intros Hlog run b u k ps r Hin. unfold run in *. clear run.
  rewrite do_upload_run in *.
  destruct (create_multipart_upload client bucket obj (cst w))
    as [[uid|] c]; cbv zeta in *.
  2:{ cbn [snd emit log] in Hin. rewrite Hlog in Hin.
      destruct Hin as [X|[]]; discriminate. }
  destruct (chunksize <=? 0).
  { cbn [snd emit log] in Hin. rewrite Hlog in Hin.
    destruct Hin as [X|[]]; discriminate. }
  set (w0 := emit (create_ev bucket obj (Ok uid)) c w) in *.
  destruct (read_loop client bucket obj chunksize secs retry
              (S (List.length (buf w))) uid initial_locals w0)
    as [o1 w1] eqn:E1.
  destruct (read_loop_log _ _ _ _ _ _ E1) as (evs & Hl & Hf).
  assert (Hl' : log w1 = create_ev bucket obj (Ok uid) :: evs).
  { rewrite Hl. unfold w0. cbn [emit log]. now rewrite Hlog. }
  assert (NotLoop : ~ In (complete_ev b u k ps r)
                      (create_ev bucket obj (Ok uid) :: evs)).
  { intros [X|X]; [discriminate|].
    now apply (loop_events_not_in _ _ Hf) in X. }
  destruct o1 as [l| | |]; cbn [snd] in Hin;
    try (rewrite Hl' in Hin; contradiction).
  destruct (read_loop_parts _ _ _ _ _ _ E1) as (evs' & Hl2 & Hp).
  assert (evs' = evs) by (rewrite Hl in Hl2; now apply app_inv_head in Hl2).
  subst evs'. cbn [initial_locals parts app] in Hp.
  rewrite finish_run in *. destruct (upload_try l) as [t|];
    [|cbn [snd] in Hin; rewrite Hl' in Hin; contradiction].
  destruct (t >=? retry).
  - destruct (abort_multipart_upload client bucket obj uid (cst w1))
      as [[[]|] c']; cbn [snd emit log] in Hin; rewrite Hl' in Hin;
      apply in_app_or in Hin as [Hin|[X|[]]];
      try contradiction; discriminate.
  - destruct (complete_multipart_upload client bucket uid obj (parts l)
                (cst w1)) as [[[]|] c']; cbn [snd emit log] in Hin |- *;
      rewrite Hl' in Hin |- *;
      (apply in_app_or in Hin as [Hin|[X|[]]]; [contradiction|]);
      injection X as <- <- <- <- <-;
      change (create_ev bucket obj (Ok uid) :: evs)
        with ([create_ev bucket obj (Ok uid)] ++ evs);
      rewrite !answered_parts_app; cbn [answered_parts answered_part app];
      now rewrite app_nil_r.
Qed.

Lemma upload_total (w : world St) :
  fst (upload client bucket obj chunksize secs retry w) <> OutOfFuel.
Proof.
  rewrite upload_run.
  pose proof (do_upload_total w) as T.
  destruct (do_upload client bucket obj chunksize secs retry w)
    as [[[[u m] hs]| | |] w1]; cbn [fst] in *; try discriminate;
    [|contradiction].
  destruct (head_object client bucket obj (cst w1)) as [[tag|] c];
    discriminate.
Qed.

End Loops.

(** ** Runs that the program gets wrong *)

(** C1, at a run where part 1 fails on both of the two attempts allowed
    and part 2 is accepted. The test of the attempt counter (line 158)
    comes after the reading loop, not after the retry loop: having used up
    the attempts of part 1 the program sleeps, reads the next chunk and
    uploads it as part 2; at the end of the input the counter is that of
    part 2, so the session is not aborted but completed, with part 2
    alone. *)
Theorem exhausted_part_is_skipped :
  let run := run_do_upload (Mock.healthy etag_a_b) 1 5 2
               [Mock.Fail; Mock.Fail] (blit "ab") in
  map brief_of (log (snd run))
  = [b_create true; b_read 1; b_part 1 false; b_sleep; b_part 1 false;
     b_sleep; b_read 1; b_part 2 true; b_read 0; b_complete [2%nat] true]
  /\ aborted (log (snd run)) = false
  /\ fst run
     = Return (lit "upload-1", hashlib_md5 (blit "ab"),
               [hashlib_md5 (blit "a"); hashlib_md5 (blit "b")]).
Proof. vm_compute. repeat split. Qed.

(** C2, at a run of one chunk whose first attempt is answered with a
    wrong ETag and whose second attempt is accepted. Line 133 appends the
    entry before line 135 compares the tags, so the rejected answer stays
    in [parts]: the list handed to [complete_multipart_upload] has two
    entries for part 1, the first with the tag of the failed attempt. *)
Theorem mismatched_tag_stays_in_parts :
  let run := run_do_upload (Mock.healthy etag_a_b) 8 5 3
               [Mock.WrongTag] (blit "abc") in
  map brief_of (log (snd run))
  = [b_create true; b_read 3; b_part 1 true; b_sleep; b_part 1 true;
     b_read 0; b_complete [1%nat; 1%nat] true]
  /\ completed_parts (log (snd run))
     = Some [ {| PartNumber := 1; ETag := Mock.wrong_tag |};
              {| PartNumber := 1;
                 ETag := quoted (lit "900150983cd24fb0d6963f7d28e17f72") |} ]
  /\ fst run
     = Return (lit "upload-1", hashlib_md5 (blit "abc"),
               [hashlib_md5 (blit "abc")]).
Proof. vm_compute. repeat split. Qed.

(** C7, as stated, fails: a run that used up the attempts of a part and
    aborted the session, a run whose completion call failed and a run
    whose finished object could not be found are three different failures,
    and all three end with exit status 8. *)
Lemma exit_status_8_is_shared :
  let exhausted := run_upload (Mock.healthy etag_a_b) 8 5 1
                     [Mock.Fail] (blit "abc") in
  let incomplete := run_upload complete_fails 8 5 3 [] (blit "abc") in
  let missing := run_upload object_missing 8 5 3 [] (blit "abc") in
  (aborted (log (snd exhausted)) = true
   /\ complete_failed (log (snd exhausted)) = false
   /\ object_not_found (log (snd exhausted)) = false)
  /\ (aborted (log (snd incomplete)) = false
      /\ complete_failed (log (snd incomplete)) = true
      /\ object_not_found (log (snd incomplete)) = false)
  /\ (aborted (log (snd missing)) = false
      /\ complete_failed (log (snd missing)) = false
      /\ object_not_found (log (snd missing)) = true)
  /\ fst exhausted = SysExit 8
  /\ fst incomplete = SysExit 8
  /\ fst missing = SysExit 8.
Proof. vm_compute. repeat split. Qed.

(** ** The theorems at concrete runs *)

Lemma empty_input_raises_unbound_local_witness :
  run_do_upload (Mock.healthy etag_a_b) 8 5 5 [] []
  = (Raise UnboundLocalError,
     {| cst := []; buf := [];
        log := [create_ev demo_bucket demo_key (Ok (lit "upload-1"));
                read_ev 8 []] |}).
Proof.
  apply (empty_input_raises_unbound_local
           (Mock.client (Mock.healthy etag_a_b)) demo_bucket demo_key 8 5 5
           (Mock.start [] []) (lit "upload-1") []);
    [reflexivity | lia | reflexivity].
Defined.

Lemma check_integrity_verifies_witness :
  fst (check_integrity (Mock.client (Mock.healthy etag_a_b)) demo_bucket
         demo_key [hashlib_md5 (blit "a"); hashlib_md5 (blit "b")]
         (Mock.start [] []))
  = Return true.
Proof.
  apply (check_integrity_verifies (Mock.client (Mock.healthy etag_a_b))
           demo_bucket demo_key
           [hashlib_md5 (blit "a"); hashlib_md5 (blit "b")]
           (Mock.start [] []) etag_a_b [] eq_refl).
  right. vm_compute. reflexivity.
Defined.

Lemma complete_failure_is_terminal_witness :
  fst (run_do_upload complete_fails 8 5 3 [] (blit "abc")) = SysExit 8.
Proof.
  apply (complete_failure_is_terminal (Mock.client complete_fails)
           demo_bucket demo_key 8 5 3 (Mock.start [] (blit "abc"))
           demo_bucket (lit "upload-1") demo_key
           [ {| PartNumber := 1;
                ETag := quoted (lit "900150983cd24fb0d6963f7d28e17f72") |} ]
           eq_refl).
  vm_compute. do 4 right. left. reflexivity.
Defined.


Lemma upload_exit_status_witness :
  fst (run_upload create_fails 8 5 3 [] (blit "ab")) = SysExit 7
  /\ fst (run_upload (Mock.healthy etag_a_b) 1 5 1 [] (blit "ab"))
     = SysExit 8
  /\ fst (run_upload complete_fails 1 5 3 [] (blit "ab")) = SysExit 8
  /\ fst (run_upload object_missing 1 5 3 [] (blit "ab")) = SysExit 8
  /\ fst (run_upload (Mock.healthy etag_a_b) 1 5 3 [] (blit "ab"))
     = SysExit 0
  /\ fst (run_upload (Mock.healthy etag_a_b) 2 5 3 [] (blit "ab"))
     = SysExit 1.
Proof.
  split; [|split; [|split; [|split; [|split]]]].
  - apply (proj1 (upload_exit_status (Mock.client create_fails) demo_bucket
             demo_key 8 5 3 (Mock.start [] (blit "ab")) eq_refl)).
    vm_compute. reflexivity.
  - apply (proj1 (proj2
             (upload_exit_status (Mock.client (Mock.healthy etag_a_b))
                demo_bucket demo_key 1 5 1 (Mock.start [] (blit "ab"))
                eq_refl))).
    vm_compute. reflexivity.
  - apply (proj1 (proj2 (proj2
             (upload_exit_status (Mock.client complete_fails) demo_bucket
                demo_key 1 5 3 (Mock.start [] (blit "ab")) eq_refl)))).
    vm_compute. reflexivity.
  - apply (proj1 (proj2 (proj2 (proj2
             (upload_exit_status (Mock.client object_missing) demo_bucket
                demo_key 1 5 3 (Mock.start [] (blit "ab")) eq_refl))))).
    vm_compute. reflexivity.
  - apply (proj2 (proj2 (proj2 (proj2
             (upload_exit_status (Mock.client (Mock.healthy etag_a_b))
                demo_bucket demo_key 1 5 3 (Mock.start [] (blit "ab"))
                eq_refl)))) etag_a_b).
    vm_compute. reflexivity.
  - apply (proj2 (proj2 (proj2 (proj2
             (upload_exit_status (Mock.client (Mock.healthy etag_a_b))
                demo_bucket demo_key 2 5 3 (Mock.start [] (blit "ab"))
                eq_refl)))) etag_a_b).
    vm_compute. reflexivity.
Defined.

Lemma stream_digest_is_md5_of_input_witness :
  exists l' w',
    read_loop (Mock.client (Mock.healthy etag_a_b)) demo_bucket demo_key
      1 5 3 3 (lit "upload-1") initial_locals
      (Mock.start [Mock.Fail] (blit "ab")) = (Return l', w')
    /\ digest (in_md5sum l') = md5_digest (blit "ab").
Proof.
  destruct (proj1 (stream_digest_is_md5_of_input
                     (Mock.client (Mock.healthy etag_a_b))
                     demo_bucket demo_key 1 5 3 (lit "upload-1")
                     (Mock.start [Mock.Fail] (blit "ab"))
                     ltac:(lia) ltac:(lia)))
    as (l' & w' & E & _ & _ & D & _).
  exists l', w'. split; [exact E | exact D].
Defined.

Lemma no_retry_reads_all_then_aborts_witness :
  exists r,
    log (snd (run_do_upload (Mock.healthy etag_a_b) 1 5 0 [] (blit "ab")))
    = create_ev demo_bucket demo_key (Ok (lit "upload-1"))
      :: map (read_ev 1) (chunks 1 (blit "ab"))
      ++ [read_ev 1 []; abort_ev demo_bucket demo_key (lit "upload-1") r]
    /\ fst (run_do_upload (Mock.healthy etag_a_b) 1 5 0 [] (blit "ab"))
       = match r with
         | Ok _ => SysExit 8
         | ClientErr => Raise ClientError
         end.
Proof.
  destruct (no_retry_reads_all_then_aborts
              (Mock.client (Mock.healthy etag_a_b)) demo_bucket demo_key
              1 5 0 (Mock.start [] (blit "ab")) (lit "upload-1") [])
    as (r & Hl & _ & _ & _ & Ho & _);
    [reflexivity | lia | discriminate | reflexivity | reflexivity |].
  exists r. split; [exact Hl | exact Ho].
Defined.

Lemma hashes_grow_with_each_chunk_witness :
  exists l' w',
    read_loop (Mock.client (Mock.healthy etag_a_b)) demo_bucket demo_key
      1 5 2 3 (lit "upload-1") initial_locals
      (Mock.start [Mock.Fail; Mock.Fail] (blit "ab")) = (Return l', w')
    /\ hashes l' = [hashlib_md5 (blit "a"); hashlib_md5 (blit "b")].
Proof.
  destruct (proj1 (proj2 (hashes_grow_with_each_chunk
                     (Mock.client (Mock.healthy etag_a_b))
                     demo_bucket demo_key 1 5 2 (lit "upload-1")
                     (Mock.start [Mock.Fail; Mock.Fail] (blit "ab"))
                     ltac:(lia) ltac:(lia))))
    as (l' & w' & evs & E & _ & _ & H).
  exists l', w'. split; [exact E | exact H].
Defined.

(** ** The calls of the loops, one by one *)

Section Trace.

Context {St : Type}.
Variable client : S3Client St.
Variables bucket obj : str.
Variables chunksize secs retry : Z.

Lemma count_app (p : event -> bool) (a b : list event) :
  count p (a ++ b) = (count p a + count p b)%nat.
Proof. unfold count. now rewrite filter_app, length_app. Qed.

Lemma count_none (p : event -> bool) (l : list event) :
  (forall e, In e l -> p e = false) -> count p l = 0%nat.
Proof.
  unfold count. induction l as [|e l IH]; intros H; [reflexivity|].
  simpl. rewrite (H e (or_introl eq_refl)). apply IH.
  intros e' He'. apply H. now right.
Qed.

Lemma awake_app (a b : list event) : awake (a ++ b) = awake a ++ awake b.
Proof. apply filter_app. Qed.

Lemma with_sleeps_app (a b : list event) :
  with_sleeps secs (a ++ b) = with_sleeps secs a ++ with_sleeps secs b.
Proof.
  induction a as [|e a IH]; [reflexivity|]. simpl.
  destruct (attempt_failed e); simpl; now rewrite IH.
Qed.

(** The retry loop for a chunk: its calls are attempts to upload that
    chunk under the current part number, at least one and no more than
    the attempts left; on return the counter has grown by their number
    and every failed attempt is followed by a sleep. *)
Lemma upload_loop_trace (uid : str) (chunk : bytes) (fuel : nat) :
  forall (l : locals) (t : Z) (w : world St) o w',
    upload_try l = Some t ->
    (Z.to_nat (retry - t) <= fuel)%nat ->
    upload_loop client bucket obj secs retry fuel uid chunk
      (hashlib_md5 chunk) l w = (o, w') ->
    exists evs,
      log w' = log w ++ evs
      /\ Forall (fun e => e = sleep_ev secs
                          \/ exists r,
                               e = upload_part_ev
                                     (chunk_args bucket obj uid (num l)
                                        chunk) r) evs
      /\ (count is_upload_part evs <= Z.to_nat (retry - t))%nat
      /\ (t < retry -> (1 <= count is_upload_part evs)%nat)
      /\ forall l', o = Return l' ->
           upload_try l' = Some (t + Z.of_nat (count is_upload_part evs))
           /\ evs = with_sleeps secs (awake evs).
Proof.
  assert (Base : forall (l : locals) (t : Z) (w : world St),
            upload_try l = Some t -> retry <= t ->
            exists evs,
              log w = log w ++ evs
              /\ Forall (fun e => e = sleep_ev secs
                                  \/ exists r,
                                       e = upload_part_ev
                                             (chunk_args bucket obj uid
                                                (num l) chunk) r) evs
              /\ (count is_upload_part evs <= Z.to_nat (retry - t))%nat
              /\ (t < retry -> (1 <= count is_upload_part evs)%nat)
              /\ forall l', Return l = Return l' ->
                   upload_try l'
                   = Some (t + Z.of_nat (count is_upload_part evs))
                   /\ evs = with_sleeps secs (awake evs)).
  { intros l t w Ht Hge. exists []. rewrite app_nil_r.
    split; [reflexivity|]. split; [constructor|]. split; [cbn; lia|].
    split; [lia|]. intros l' X. injection X as <-. split; [|reflexivity].
    rewrite Ht. f_equal. cbn. lia. }
  induction fuel as [|f IH]; intros l t w o w' Ht Hf E;
    cbn [upload_loop] in E; rewrite Ht in E;
    destruct (Z.ltb_spec t retry) as [Hlt|Hge]; try lia;
    try (injection E as <- <-; now apply Base).
  unfold bind at 1 in E. rewrite try_upload_part_run in E.
  change (part_args bucket obj uid chunk (hashlib_md5 chunk) l)
    with (chunk_args bucket obj uid (num l) chunk) in E.
  set (args := chunk_args bucket obj uid (num l) chunk) in *.
  destruct (upload_part client args (cst w)) as [r c]. cbn [fst snd] in E.
  set (w1 := emit (upload_part_ev args r) c w) in E.
  assert (Hfail : forall l1 : locals,
            num l1 = num l -> upload_try l1 = Some (t + 1) ->
            attempt_failed (upload_part_ev args r) = true ->
            (time_sleep secs ;;
             upload_loop client bucket obj secs retry f uid chunk
               (hashlib_md5 chunk) l1) w1 = (o, w') ->
            exists evs,
              log w' = log w ++ evs
              /\ Forall (fun e => e = sleep_ev secs
                                  \/ exists r, e = upload_part_ev args r) evs
              /\ (count is_upload_part evs <= Z.to_nat (retry - t))%nat
              /\ (t < retry -> (1 <= count is_upload_part evs)%nat)
              /\ forall l', o = Return l' ->
                   upload_try l'
                   = Some (t + Z.of_nat (count is_upload_part evs))
                   /\ evs = with_sleeps secs (awake evs)).
  { intros l1 Hn Hu Hbad E'. unfold bind, time_sleep in E'.
    destruct (Z.ltb_spec secs 0) as [Hs|Hs].
    - injection E' as <- <-. exists [upload_part_ev args r].
      split; [reflexivity|]. split; [constructor; [right; eauto|constructor]|].
      split; [cbn; lia|]. split; [cbn; lia|]. discriminate.
    - assert (Hf' : (Z.to_nat (retry - (t + 1)) <= f)%nat) by lia.
      destruct (IH l1 (t + 1) _ o w' Hu Hf' E')
        as (evs & Hl & Hall & Hc & _ & Hret).
      rewrite Hn in Hall. fold args in Hall.
      exists (upload_part_ev args r :: sleep_ev secs :: evs).
      split; [rewrite Hl; unfold w1; cbn [emit log];
              rewrite <- !app_assoc; reflexivity|].
      split; [constructor; [right; eauto|constructor; [now left|exact Hall]]|].
      change (count is_upload_part
                (upload_part_ev args r :: sleep_ev secs :: evs))
        with (S (count is_upload_part evs)).
      split; [lia|]. split; [lia|].
      intros l' X. destruct (Hret l' X) as (H1 & H2). split.
      + rewrite H1. f_equal. lia.
      + change (awake (upload_part_ev args r :: sleep_ev secs :: evs))
          with (upload_part_ev args r :: awake evs).
        cbn [with_sleeps]. rewrite Hbad. now rewrite <- H2. }
  destruct r as [etag|].
  - destruct (str_eqb (slice_1_m1 etag) (hexdigest (hashlib_md5 chunk)))
      eqn:Em.
    + injection E as <- <-. exists [upload_part_ev args (Ok etag)].
      split; [reflexivity|]. split; [constructor; [right; eauto|constructor]|].
      split; [cbn; lia|]. split; [cbn; lia|].
      intros l' X. injection X as <-. split.
      * reflexivity.
      * cbn [awake filter is_sleep negb with_sleeps attempt_failed args
               chunk_args up_Body]. now rewrite Em.
    + refine (Hfail _ _ _ _ E); try reflexivity.
      cbn [attempt_failed args chunk_args up_Body]. now rewrite Em.
  - refine (Hfail _ _ _ _ E); reflexivity.
Qed.

Lemma count_part_attempts (uid : str) (chunk : bytes) (m k : nat)
    (evs : list event) :
  Forall (fun e => e = sleep_ev secs
                   \/ exists r,
                        e = upload_part_ev
                              (chunk_args bucket obj uid m chunk) r) evs ->
  count (is_part k) evs
  = if Nat.eqb m k then count is_upload_part evs else 0%nat.
Proof.
  induction 1 as [|e evs He _ IH].
  - now destruct (Nat.eqb m k).
  - unfold count in *. destruct He as [-> | (r & ->)]; simpl.
    + exact IH.
    + destruct (Nat.eqb m k); simpl; now rewrite IH.
Qed.

(** The reading loop: its [upload_part] calls carry the chunks of the
    input under their numbers, no part is tried more than [retry] times,
    and on return the attempt counter is the number of attempts made for
    the last part. *)
Lemma read_loop_trace (uid : str) (fuel : nat) :
  forall (l : locals) (w : world St) o w',
    0 < chunksize ->
    (List.length (buf w) < fuel)%nat ->
    read_loop client bucket obj chunksize secs retry fuel uid l w = (o, w') ->
    let cs := chunks_fuel fuel (Z.to_nat chunksize) (buf w) in
    exists evs,
      log w' = log w ++ evs
      /\ (forall args r,
            In (upload_part_ev args r) evs ->
            exists k chunk,
              nth_error cs k = Some chunk
              /\ args = chunk_args bucket obj uid (num l + S k) chunk)
      /\ (forall k, (count (is_part k) evs <= Z.to_nat retry)%nat)
      /\ forall l', o = Return l' ->
           evs = with_sleeps secs (awake evs)
           /\ (cs <> [] ->
               exists t,
                 upload_try l' = Some t
                 /\ t = Z.of_nat (count (is_part (num l')) evs)
                 /\ (0 < retry -> 1 <= t)).
Proof.
  induction fuel as [|f IH]; intros l w o w' Hc Hf E; [lia|].
  pose proof (read_loop_result client bucket obj chunksize secs retry uid
                (S f) l w o w' Hc Hf E) as Res.
  cbn [read_loop] in E. unfold bind at 1, buf_read in E.
  destruct (Z.ltb_spec chunksize 0) as [?|_]; [lia|].
  cbn [chunks_fuel] in *. set (n := Z.to_nat chunksize) in *.
  assert (Hn : (0 < n)%nat) by (unfold n; lia).
  set (w0 := {| cst := cst w; buf := skipn n (buf w);
                log := log w ++ [read_ev chunksize (firstn n (buf w))] |})
    in E.
  destruct (firstn n (buf w)) as [|b chunk'] eqn:Ec.
  - injection E as <- <-. exists [read_ev chunksize []].
    split; [reflexivity|].
    split; [intros args r [X|[]]; discriminate|].
    split; [intros k; cbn; lia|].
    intros l' _. split; [reflexivity|]. intros X. now contradiction X.
  - set (chunk := b :: chunk') in *. unfold bind in E.
    destruct (upload_loop client bucket obj secs retry (Z.to_nat retry)
                uid chunk (hashlib_md5 chunk) (next_chunk l chunk) w0)
      as [o1 w1] eqn:E1.
    assert (Hf0 : (Z.to_nat (retry - 0) <= Z.to_nat retry)%nat) by lia.
    destruct (upload_loop_trace uid chunk _ (next_chunk l chunk) 0 w0 o1 w1
                eq_refl Hf0 E1) as (evs1 & Hl1 & Hall & Hcnt & Hone & Hret1).
    cbn [next_chunk num] in Hall.
    destruct (upload_loop_log _ _ _ _ _ _ _ _ _ _ _ _ _ E1) as (Hb1 & _).
    assert (Hpart : forall k,
              count (is_part k) evs1
              = if Nat.eqb (S (num l)) k then count is_upload_part evs1
                else 0%nat)
      by (intros k; now apply (count_part_attempts uid chunk)).
    assert (Hin1 : forall args r,
              In (upload_part_ev args r) evs1 ->
              args = chunk_args bucket obj uid (num l + 1) chunk).
    { intros args r Hin. rewrite Forall_forall in Hall.
      destruct (Hall _ Hin) as [X | (r' & X)]; [discriminate|].
      injection X as -> _. f_equal. lia. }
    assert (Stop : forall k,
              (count (is_part k) (read_ev chunksize chunk :: evs1)
               <= Z.to_nat retry)%nat).
    { intros k. change (count (is_part k) (read_ev chunksize chunk :: evs1))
        with (count (is_part k) evs1).
      rewrite Hpart. destruct (Nat.eqb (S (num l)) k); lia. }
    destruct o1 as [l2| |e|].
    2,3,4: injection E as <- <-; exists (read_ev chunksize chunk :: evs1);
      (split; [rewrite Hl1; unfold w0; cbn [log];
               now rewrite <- app_assoc|]);
      (split; [intros args r [X|Hin]; [discriminate|];
               exists 0%nat, chunk; split; [reflexivity|];
               now apply (Hin1 args r)|]);
      (split; [exact Stop|]); discriminate.
    destruct (Hret1 l2 eq_refl) as (Hu2 & Hs1).
    pose proof (upload_loop_result client bucket obj secs retry uid chunk
                  (hashlib_md5 chunk) _ (next_chunk l chunk) 0 w0 _ w1
                  eq_refl Hf0 E1) as (Hn2 & _).
    cbn [next_chunk num] in Hn2.
    assert (Hlen : (List.length (buf w1) < f)%nat).
    { rewrite Hb1. unfold w0. cbn [buf]. rewrite length_skipn.
      assert (List.length (buf w) <> 0)%nat.
      { intros Z0. apply length_zero_iff_nil in Z0. rewrite Z0 in Ec.
        destruct n; discriminate. }
      lia. }
    pose proof (read_loop_result client bucket obj chunksize secs retry uid
                  f l2 w1 o w' Hc Hlen E) as Res2.
    destruct (IH l2 w1 o w' Hc Hlen E) as (evs2 & Hl2 & Hargs2 & Hcnt2 & Hret2).
    rewrite Hb1 in Hargs2, Hret2, Res2. unfold w0 in Hargs2, Hret2, Res2.
    cbn [buf] in Hargs2, Hret2, Res2. fold n in Hargs2, Hret2, Res2.
    set (rest := chunks_fuel f n (skipn n (buf w))) in *.
    assert (Hlate : forall k, (k <= S (num l))%nat ->
              count (is_part k) evs2 = 0%nat).
    { intros k Hk. apply count_none. intros e He.
      destruct e as [| |args r| | | |]; try reflexivity.
      destruct (Hargs2 args r He) as (k' & c' & _ & ->).
      cbn [is_part chunk_args up_PartNumber]. apply Nat.eqb_neq. lia. }
    exists (read_ev chunksize chunk :: evs1 ++ evs2).
    split; [rewrite Hl2, Hl1; unfold w0; cbn [log];
            rewrite <- !app_assoc; reflexivity|].
    split; [|split].
    + intros args r [X|Hin]; [discriminate|].
      apply in_app_or in Hin as [Hin|Hin].
      * exists 0%nat, chunk. split; [reflexivity|]. now apply (Hin1 args r).
      * destruct (Hargs2 args r Hin) as (k' & c' & Hk' & ->).
        exists (S k'), c'. split; [exact Hk'|]. f_equal. lia.
    + intros k.
      change (count (is_part k) (read_ev chunksize chunk :: evs1 ++ evs2))
        with (count (is_part k) (evs1 ++ evs2)).
      rewrite count_app, Hpart.
      destruct (Nat.eqb_spec (S (num l)) k) as [Hk|Hk].
      * rewrite Hlate by lia. lia.
      * specialize (Hcnt2 k). lia.
    + intros l' ->. destruct (Hret2 l' eq_refl) as (Hs2 & Ht2). split.
      * change (awake (read_ev chunksize chunk :: evs1 ++ evs2))
          with (read_ev chunksize chunk :: awake (evs1 ++ evs2)).
        rewrite awake_app. cbn [with_sleeps attempt_failed].
        rewrite with_sleeps_app, <- Hs1, <- Hs2. reflexivity.
      * intros _.
        change (count (is_part (num l'))
                  (read_ev chunksize chunk :: evs1 ++ evs2))
          with (count (is_part (num l')) (evs1 ++ evs2)).
        rewrite count_app, Hpart.
        destruct Res2 as (_ & Rn & _ & _ & Ru).
        destruct rest as [|c1 rest'] eqn:Er.
        -- assert (Hnum : num l' = S (num l))
             by (rewrite Rn, Hn2; cbn; lia).
           rewrite Hnum, Nat.eqb_refl, Hlate by lia.
           exists (0 + Z.of_nat (count is_upload_part evs1)).
           split; [now rewrite Ru|]. split; [f_equal; lia|].
           intros Hr. specialize (Hone Hr). lia.
        -- destruct (Ht2 ltac:(discriminate)) as (t & Hu & Htc & Hpos).
           assert (Hnum : Nat.eqb (S (num l)) (num l') = false).
           { apply Nat.eqb_neq. rewrite Rn, Hn2. cbn [List.length]. lia. }
           rewrite Hnum. exists t. repeat split; assumption.
Qed.

(** A run of [do_upload], call by call. *)
Lemma do_upload_trace (w : world St) :
  log w = [] ->
  let run := do_upload client bucket obj chunksize secs retry w in
  let cs := chunks (Z.to_nat chunksize) (buf w) in
  exists r0 evs tail,
    log (snd run) = create_ev bucket obj r0 :: evs ++ tail
    /\ forallb is_loop_event evs = true
    /\ (forall args r,
          In (upload_part_ev args r) evs ->
          exists uid k chunk,
            r0 = Ok uid /\ nth_error cs k = Some chunk
            /\ args = chunk_args bucket obj uid (S k) chunk)
    /\ (forall k, (count (is_part k) evs <= Z.to_nat retry)%nat)
    /\ (0 <= secs -> evs = with_sleeps secs (awake evs))
    /\ ((tail = []
         /\ ((r0 = ClientErr /\ evs = [] /\ fst run = SysExit 7)
             \/ exists uid e,
                  r0 = Ok uid /\ fst run = Raise e
                  /\ ((e = ValueError /\ (chunksize <= 0 \/ secs < 0))
                      \/ (e = UnboundLocalError /\ buf w = []
                          /\ 0 < chunksize))))
        \/ exists uid t,
             r0 = Ok uid /\ 0 < chunksize /\ buf w <> []
             /\ t = Z.of_nat (count (is_part (List.length cs)) evs)
             /\ (0 < retry -> 1 <= t)
             /\ ((retry <= t
                  /\ exists r,
                       tail = [abort_ev bucket obj uid r]
                       /\ fst run = match r with
                                    | Ok _ => SysExit 8
                                    | ClientErr => Raise ClientError
                                    end)
                 \/ (t < retry
                     /\ exists ps r,
                          tail = [complete_ev bucket uid obj ps r]
                          /\ fst run
                             = match r with
                               | Ok _ =>
                                   Return (uid, hashlib_md5 (buf w),
                                           map hashlib_md5 cs)
                               | ClientErr => SysExit 8
                               end))).
Proof.
  intros Hlog. cbv zeta. rewrite do_upload_run.
  destruct (create_multipart_upload client bucket obj (cst w))
    as [[uid|] c].
  2:{ exists ClientErr, [], []. cbn [fst snd emit log]. rewrite Hlog.
      split; [reflexivity|]. split; [reflexivity|].
      split; [intros args r []|]. split; [intros k; cbn; lia|].
      split; [reflexivity|]. left. split; [reflexivity|]. left.
      repeat split. }
  destruct (Z.leb_spec chunksize 0) as [Hc|Hc].
  { exists (Ok uid), [], []. cbn [fst snd emit log]. rewrite Hlog.
    split; [reflexivity|]. split; [reflexivity|].
    split; [intros args r []|]. split; [intros k; cbn; lia|].
    split; [reflexivity|]. left. split; [reflexivity|]. right.
    exists uid, ValueError. repeat split. left. split; [reflexivity|].
    now left. }
  cbv zeta. set (w0 := emit (create_ev bucket obj (Ok uid)) c w).
  destruct (read_loop client bucket obj chunksize secs retry
              (S (List.length (buf w))) uid initial_locals w0)
    as [o1 w1] eqn:E1.
  assert (Hlen : (List.length (buf w0) < S (List.length (buf w)))%nat)
    by (unfold w0; cbn [emit buf]; lia).
  destruct (read_loop_log _ _ _ _ _ _ _ _ _ _ _ _ E1) as (evs' & Hl' & Hf).
  pose proof (read_loop_result _ _ _ _ _ _ _ _ _ _ _ _ Hc Hlen E1) as Res.
  destruct (read_loop_trace uid _ initial_locals w0 o1 w1 Hc Hlen E1)
    as (evs & Hl & Hargs & Hcnt & Hret).
  assert (evs' = evs) by (rewrite Hl in Hl'; now apply app_inv_head in Hl').
  subst evs'.
  change (chunks_fuel (S (List.length (buf w))) (Z.to_nat chunksize)
            (buf w0))
    with (chunks (Z.to_nat chunksize) (buf w)) in *.
  set (cs := chunks (Z.to_nat chunksize) (buf w)) in *.
  assert (Hl1 : log w1 = create_ev bucket obj (Ok uid) :: evs).
  { rewrite Hl. unfold w0. cbn [emit log]. now rewrite Hlog. }
  assert (Hargs' : forall args r,
            In (upload_part_ev args r) evs ->
            exists uid' k chunk,
              Ok uid = Ok uid' /\ nth_error cs k = Some chunk
              /\ args = chunk_args bucket obj uid' (S k) chunk).
  { intros args r Hin. destruct (Hargs args r Hin) as (k & ch & Hk & Ha).
    exists uid, k, ch. repeat split; assumption. }
  destruct o1 as [l| |e|]; try contradiction.
  2:{ destruct Res as [-> Hs]. exists (Ok uid), evs, [].
      cbn [fst snd]. rewrite app_nil_r.
      split; [exact Hl1|]. split; [exact Hf|]. split; [exact Hargs'|].
      split; [exact Hcnt|]. split; [lia|]. left. split; [reflexivity|].
      right. exists uid, ValueError. repeat split. left.
      split; [reflexivity|]. now right. }
  destruct (Hret l eq_refl) as (Hs & Ht).
  destruct Res as (_ & Rn & Rh & Rm & Ru). cbn [initial_locals num
    upload_try hashes in_md5sum app] in Rn, Ru, Rh, Rm.
  unfold w0 in Rm. cbn [emit buf] in Rm.
  change (md5_update (hashlib_md5 []) (buf w))
    with (hashlib_md5 (buf w)) in Rm.
  rewrite finish_run.
  destruct (buf w) as [|b d] eqn:Eb.
  - assert (Hcs : cs = []) by (unfold cs; apply chunks_nil).
    rewrite Hcs in Ru. rewrite Ru. exists (Ok uid), evs, [].
    cbn [fst snd]. rewrite app_nil_r.
    split; [exact Hl1|]. split; [exact Hf|]. split; [exact Hargs'|].
    split; [exact Hcnt|]. split; [intros _; exact Hs|]. left.
    split; [reflexivity|]. right. exists uid, UnboundLocalError.
    repeat split. right. repeat split. exact Hc.
  - assert (Hne : cs <> [])
      by (unfold cs; apply chunks_nonempty; [lia|discriminate]).
    destruct (Ht Hne) as (t & Hu & Htc & Hpos). rewrite Hu.
    rewrite Rn in Htc. cbn [Nat.add] in Htc.
    destruct (Z.geb_spec t retry) as [Hge|Hlt].
    + destruct (abort_multipart_upload client bucket obj uid (cst w1))
        as [r c'].
      exists (Ok uid), evs, [abort_ev bucket obj uid r].
      split; [destruct r; cbn [fst snd emit log]; rewrite Hl1;
              reflexivity|].
      split; [exact Hf|]. split; [exact Hargs'|]. split; [exact Hcnt|].
      split; [intros _; exact Hs|]. right. exists uid, t.
      split; [reflexivity|]. split; [exact Hc|]. split; [discriminate|].
      split; [exact Htc|]. split; [exact Hpos|]. left.
      split; [lia|]. exists r. split; [reflexivity|].
      destruct r; reflexivity.
    + destruct (complete_multipart_upload client bucket uid obj (parts l)
                  (cst w1)) as [r c'].
      exists (Ok uid), evs, [complete_ev bucket uid obj (parts l) r].
      split; [destruct r; cbn [fst snd emit log]; rewrite Hl1;
              reflexivity|].
      split; [exact Hf|]. split; [exact Hargs'|]. split; [exact Hcnt|].
      split; [intros _; exact Hs|]. right. exists uid, t.
      split; [reflexivity|]. split; [exact Hc|]. split; [discriminate|].
      split; [exact Htc|]. split; [exact Hpos|]. right.
      split; [lia|]. exists (parts l), r. split; [reflexivity|].
      destruct r; cbn [fst]; [rewrite Rm, Rh|]; reflexivity.
Qed.


(** X1. With fewer than two attempts allowed per part ([retry < 2])
    [do_upload] never completes an upload, whatever the backend answers:
    [complete_multipart_upload] is not called and [do_upload] does not
    return. (A part accepted at its last allowed attempt leaves the
    counter at [retry], which line 158 takes for a failure.) *)
Theorem few_attempts_never_complete (w : world St) :
  retry < 2 ->
  log w = [] ->
  let run := do_upload client bucket obj chunksize secs retry w in
  count is_complete (log (snd run)) = 0%nat
  /\ forall v, fst run <> Return v.
Proof.
  intros Hr Hlog. cbv zeta.
  destruct (do_upload_trace w Hlog)
    as (r0 & evs & tail & Hl & Hf & _ & _ & _ & Hend).
  cbv zeta in Hl, Hend. rewrite Hl.
  change (create_ev bucket obj r0 :: evs ++ tail)
    with ([create_ev bucket obj r0] ++ evs ++ tail).
  rewrite !count_app.
  rewrite (loop_events_count is_complete evs loop_event_not_complete Hf).
  destruct Hend as [(-> & [(_ & _ & Ho) | (uid & e & _ & Ho & _)])
                   | (uid & t & _ & _ & _ & Ht & Hpos & Hcase)].
  - rewrite Ho. split; [reflexivity|discriminate].
  - rewrite Ho. split; [reflexivity|discriminate].
  - destruct Hcase as [(_ & r & -> & Ho) | (Hlt & _)].
    + rewrite Ho. split; [reflexivity|]. destruct r; discriminate.
    + assert (0 <= t) by lia. lia.
Qed.

Lemma tail_not_part (k : nat) (tail : list event) :
  (forall e, In e tail -> is_abort e || is_complete e = true) ->
  count (is_part k) tail = 0%nat.
Proof.
  intros H. apply count_none. intros e He. specialize (H e He).
  destruct e; try reflexivity; discriminate.
Qed.


(** X3. Every [upload_part] call of a run carries one chunk of the input:
    the [k]-th chunk (counting from 1) as part number [k], with its
    length, the base64 of its MD5, the bucket, the key and the upload id
    that [create_multipart_upload] returned. *)
Theorem upload_part_calls_carry_chunks (w : world St)
    (args : upload_part_args) (r : response str) :
  log w = [] ->
  let run := do_upload client bucket obj chunksize secs retry w in
  In (upload_part_ev args r) (log (snd run)) ->
  exists uid k chunk,
    In (create_ev bucket obj (Ok uid)) (log (snd run))
    /\ nth_error (chunks (Z.to_nat chunksize) (buf w)) k = Some chunk
    /\ args = {| up_Bucket := bucket; up_Body := chunk;
                 up_ContentLength := List.length chunk;
                 up_ContentMD5 := b64encode (md5_digest chunk);
                 up_PartNumber := S k; up_UploadId := uid;
                 up_Key := obj |}.
Proof.
  intros Hlog. cbv zeta.
  destruct (do_upload_trace w Hlog)
    as (r0 & evs & tail & Hl & _ & Hargs & _ & _ & Hend).
  cbv zeta in Hl, Hargs, Hend. rewrite Hl. intros [X|Hin]; [discriminate|].
  apply in_app_or in Hin as [Hin|Hin].
  - destruct (Hargs args r Hin) as (uid & k & chunk & -> & Hk & ->).
    exists uid, k, chunk. split; [now left|]. split; [exact Hk|reflexivity].
  - exfalso.
    destruct Hend as [(-> & _) | (uid & t & _ & _ & _ & _ & _ & Hcase)];
      [contradiction|].
    destruct Hcase as [(_ & r' & -> & _) | (_ & ps & r' & -> & _)];
      destruct Hin as [X|[]]; discriminate.
Qed.

(** X4. No part is tried more than [retry] times: for every part number
    the run makes at most [retry] calls of [upload_part] (none when
    [retry] is not positive). *)
Theorem attempts_per_part_bounded (w : world St) (k : nat) :
  log w = [] ->
  let run := do_upload client bucket obj chunksize secs retry w in
  (count (is_part k) (log (snd run)) <= Z.to_nat retry)%nat.
Proof.
  intros Hlog. cbv zeta.
  destruct (do_upload_trace w Hlog)
    as (r0 & evs & tail & Hl & _ & _ & Hcnt & _ & Hend).
  cbv zeta in Hl, Hend. rewrite Hl.
  change (create_ev bucket obj r0 :: evs ++ tail)
    with ([create_ev bucket obj r0] ++ evs ++ tail).
  rewrite !count_app. specialize (Hcnt k).
  assert (count (is_part k) tail = 0%nat).
  { apply tail_not_part.
    destruct Hend as [(-> & _) | (uid & t & _ & _ & _ & _ & _ & Hcase)];
      [intros e []|].
    destruct Hcase as [(_ & r' & -> & _) | (_ & ps & r' & -> & _)];
      intros e [<-|[]]; reflexivity. }
  cbn [count filter is_part List.length] in *. lia.
Qed.



Lemma last_call_unique (p : event -> bool) (pre : list event) (x : event) :
  (forall e, In e pre -> p e = false) ->
  forall before e after,
    pre ++ [x] = before ++ e :: after -> p e = true -> after = [].
Proof.
  induction pre as [|a pre IH]; intros Hp before e after E He.
  - destruct before as [|b before]; cbn in E.
    + now injection E as _ <-.
    + injection E as _ E. now destruct before.
  - destruct before as [|b before]; cbn in E.
    + injection E as <- _. rewrite (Hp a (or_introl eq_refl)) in He.
      discriminate.
    + injection E as _ E. apply (IH (fun e' H => Hp e' (or_intror H))
                                   before e after E He).
Qed.

(** X7. A run makes at most one call that ends the session, either the
    abort or the completion and never both, and that call is the last
    call of the run: no part is uploaded and nothing is read after it. *)
Theorem abort_or_complete_once_and_last (w : world St) :
  log w = [] ->
  let run := do_upload client bucket obj chunksize secs retry w in
  (count is_abort (log (snd run)) + count is_complete (log (snd run))
   <= 1)%nat
  /\ forall before e after,
       log (snd run) = before ++ e :: after ->
       is_abort e || is_complete e = true ->
       after = [].
Proof.
  intros Hlog. cbv zeta.
  destruct (do_upload_trace w Hlog)
    as (r0 & evs & tail & Hl & Hf & _ & _ & _ & Hend).
  cbv zeta in Hl, Hend. rewrite Hl.
  assert (Hpre : forall e, In e (create_ev bucket obj r0 :: evs) ->
                   is_abort e || is_complete e = false).
  { intros e [<-|Hin]; [reflexivity|]. rewrite forallb_forall in Hf.
    specialize (Hf e Hin).
    now rewrite (loop_event_not_abort e Hf),
      (loop_event_not_complete e Hf). }
  assert (Hcnt : forall p, (forall e, is_loop_event e = true ->
                               p e = false) ->
            p (create_ev bucket obj r0) = false ->
            count p (create_ev bucket obj r0 :: evs ++ tail)
            = count p tail).
  { intros p Hp Hc0.
    change (create_ev bucket obj r0 :: evs ++ tail)
      with ([create_ev bucket obj r0] ++ evs ++ tail).
    rewrite !count_app, (loop_events_count p evs Hp Hf).
    unfold count at 1. simpl. now rewrite Hc0. }
  rewrite (Hcnt _ loop_event_not_abort eq_refl),
    (Hcnt _ loop_event_not_complete eq_refl).
  destruct Hend as [(-> & _) | (uid & t & _ & _ & _ & _ & _ & Hcase)].
  - split; [cbn; lia|]. rewrite app_nil_r.
    intros before e after E He. exfalso.
    assert (Hin : In e (create_ev bucket obj r0 :: evs))
      by (rewrite E; apply in_elt).
    rewrite (Hpre e Hin) in He. discriminate.
  - destruct Hcase as [(_ & r' & -> & _) | (_ & ps & r' & -> & _)];
      (split; [cbn; lia|]); intros before e after E He;
      refine (last_call_unique (fun e => is_abort e || is_complete e)
                (create_ev bucket obj r0 :: evs) _ Hpre before e after
                _ He); exact E.
Qed.

Lemma answered_parts_attempts (uid : str) (chunk : bytes) (m : nat)
    (evs : list event) :
  Forall (fun e => e = sleep_ev secs
                   \/ exists r,
                        e = upload_part_ev
                              (chunk_args bucket obj uid m chunk) r) evs ->
  Forall (fun p => PartNumber p = m) (answered_parts evs).
Proof.
  induction 1 as [|e evs He _ IH]; [constructor|].
  destruct He as [-> | ([etag|] & ->)]; cbn; auto.
Qed.

Lemma sorted_app (a b : list nat) :
  StronglySorted le a -> StronglySorted le b ->
  (forall x y, In x a -> In y b -> (x <= y)%nat) ->
  StronglySorted le (a ++ b).
Proof.
  induction 1 as [|x a Ha IH Hx]; intros Hb Hab; [exact Hb|].
  cbn. constructor.
  - apply IH; [exact Hb|]. intros u v Hu Hv. apply Hab; [now right|exact Hv].
  - apply Forall_app. split; [exact Hx|].
    apply Forall_forall. intros y Hy. apply Hab; [now left|exact Hy].
Qed.

Lemma sorted_constant (m : nat) (ps : list part) :
  Forall (fun p => PartNumber p = m) ps ->
  StronglySorted le (map PartNumber ps).
Proof.
  induction 1 as [|p ps Hp Hps IH]; [constructor|]. cbn.
  constructor; [exact IH|]. apply Forall_forall. intros y Hy.
  apply in_map_iff in Hy as (q & <- & Hq). rewrite Forall_forall in Hps.
  rewrite Hp, (Hps q Hq). lia.
Qed.

(** The entries that the answered calls of the reading loop stand for
    come in the order of the part numbers. *)
Lemma read_loop_order (uid : str) (fuel : nat) :
  forall (l : locals) (w : world St) o w',
    0 < chunksize ->
    (List.length (buf w) < fuel)%nat ->
    read_loop client bucket obj chunksize secs retry fuel uid l w = (o, w') ->
    let cs := chunks_fuel fuel (Z.to_nat chunksize) (buf w) in
    exists evs,
      log w' = log w ++ evs
      /\ StronglySorted le (map PartNumber (answered_parts evs))
      /\ Forall (fun p => (num l < PartNumber p <= num l + List.length cs)%nat)
           (answered_parts evs).
Proof.
  induction fuel as [|f IH]; intros l w o w' Hc Hf E; [lia|].
  cbn [read_loop] in E. unfold bind at 1, buf_read in E.
  destruct (Z.ltb_spec chunksize 0) as [?|_]; [lia|].
  cbn [chunks_fuel]. set (n := Z.to_nat chunksize) in *.
  assert (Hn : (0 < n)%nat) by (unfold n; lia).
  set (w0 := {| cst := cst w; buf := skipn n (buf w);
                log := log w ++ [read_ev chunksize (firstn n (buf w))] |})
    in E.
  destruct (firstn n (buf w)) as [|b chunk'] eqn:Ec.
  - injection E as <- <-. exists [read_ev chunksize []].
    split; [reflexivity|]. split; constructor.
  - set (chunk := b :: chunk') in *. unfold bind in E.
    destruct (upload_loop client bucket obj secs retry (Z.to_nat retry)
                uid chunk (hashlib_md5 chunk) (next_chunk l chunk) w0)
      as [o1 w1] eqn:E1.
    assert (Hf0 : (Z.to_nat (retry - 0) <= Z.to_nat retry)%nat) by lia.
    destruct (upload_loop_trace uid chunk _ (next_chunk l chunk) 0 w0 o1 w1
                eq_refl Hf0 E1) as (evs1 & Hl1 & Hall & _).
    cbn [next_chunk num] in Hall.
    apply answered_parts_attempts in Hall.
    destruct (upload_loop_log _ _ _ _ _ _ _ _ _ _ _ _ _ E1) as (Hb1 & _).
    assert (Range1 : Forall (fun p => (num l < PartNumber p
                                       <= num l + S (List.length
                                            (chunks_fuel f n
                                               (skipn n (buf w)))))%nat)
                       (answered_parts evs1)).
    { eapply Forall_impl; [|exact Hall]. cbn. intros p ->. lia. }
    destruct o1 as [l2| |e|].
    2,3,4: injection E as <- <-; exists (read_ev chunksize chunk :: evs1);
      (split; [rewrite Hl1; unfold w0; cbn [log];
               now rewrite <- app_assoc|]);
      (split; [now apply sorted_constant with (m := S (num l))
              |exact Range1]).
    pose proof (upload_loop_result client bucket obj secs retry uid chunk
                  (hashlib_md5 chunk) _ (next_chunk l chunk) 0 w0 _ w1
                  eq_refl Hf0 E1) as (Hn2 & _).
    cbn [next_chunk num] in Hn2.
    assert (Hlen : (List.length (buf w1) < f)%nat).
    { rewrite Hb1. unfold w0. cbn [buf]. rewrite length_skipn.
      assert (List.length (buf w) <> 0)%nat.
      { intros Z0. apply length_zero_iff_nil in Z0. rewrite Z0 in Ec.
        destruct n; discriminate. }
      lia. }
    destruct (IH l2 w1 o w' Hc Hlen E) as (evs2 & Hl2 & Hs2 & Hr2).
    rewrite Hb1, Hn2 in Hr2. unfold w0 in Hr2. cbn [buf] in Hr2.
    fold n in Hr2.
    exists (read_ev chunksize chunk :: evs1 ++ evs2).
    split; [rewrite Hl2, Hl1; unfold w0; cbn [log];
            rewrite <- !app_assoc; reflexivity|].
    change (answered_parts (read_ev chunksize chunk :: evs1 ++ evs2))
      with (answered_parts (evs1 ++ evs2)).
    rewrite answered_parts_app. split.
    + rewrite map_app. apply sorted_app;
        [now apply sorted_constant with (m := S (num l))|exact Hs2|].
      intros x y Hx Hy.
      apply in_map_iff in Hx as (p & <- & Hp).
      apply in_map_iff in Hy as (q & <- & Hq).
      rewrite Forall_forall in Hall, Hr2.
      rewrite (Hall p Hp). specialize (Hr2 q Hq). lia.
    + apply Forall_app. split; [exact Range1|].
      eapply Forall_impl; [|exact Hr2]. cbn [List.length]. intros p Hp. lia.
Qed.

(** X17. The part list handed to [complete_multipart_upload] holds one
    entry for every answered [upload_part] call of the run, with the
    ETag of that answer, in the order of the calls; its part numbers
    never decrease along the list and lie between 1 and the number of
    chunks. *)
Theorem completion_list_in_part_order (w : world St) (b u k : str)
    (ps : list part) (r : response unit) :
  log w = [] ->
  let run := do_upload client bucket obj chunksize secs retry w in
  In (complete_ev b u k ps r) (log (snd run)) ->
  ps = answered_parts (log (snd run))
  /\ StronglySorted le (map PartNumber ps)
  /\ Forall (fun p =>
               (1 <= PartNumber p
                <= List.length (chunks (Z.to_nat chunksize) (buf w)))%nat)
       ps.
Proof.
  intros Hlog. cbv zeta. intros Hin.
  pose proof (completed_parts_are_answered_calls client bucket obj
                chunksize secs retry w Hlog b u k ps r Hin) as Hps.
  split; [exact Hps|]. rewrite Hps. clear Hps.
  revert Hin. rewrite do_upload_run.
  destruct (create_multipart_upload client bucket obj (cst w))
    as [[uid|] c]; cbv zeta.
  2:{ cbn [snd emit log]. rewrite Hlog. intros [X|[]]. discriminate. }
  destruct (Z.leb_spec chunksize 0) as [Hc|Hc].
  { cbn [snd emit log]. rewrite Hlog. intros [X|[]]. discriminate. }
  set (w0 := emit (create_ev bucket obj (Ok uid)) c w).
  destruct (read_loop client bucket obj chunksize secs retry
              (S (List.length (buf w))) uid initial_locals w0)
    as [o1 w1] eqn:E1.
  assert (Hlen : (List.length (buf w0) < S (List.length (buf w)))%nat)
    by (unfold w0; cbn [emit buf]; lia).
  destruct (read_loop_order uid _ initial_locals w0 o1 w1 Hc Hlen E1)
    as (evs & Hl & Hs & Hr).
  change (chunks_fuel (S (List.length (buf w))) (Z.to_nat chunksize)
            (buf w0))
    with (chunks (Z.to_nat chunksize) (buf w)) in Hr.
  cbn [initial_locals num Nat.add] in Hr.
  assert (Hl1 : log w1 = [create_ev bucket obj (Ok uid)] ++ evs).
  { rewrite Hl. unfold w0. cbn [emit log]. now rewrite Hlog. }
  assert (Fin : forall tl,
            answered_parts tl = [] ->
            StronglySorted le
              (map PartNumber (answered_parts (log w1 ++ tl)))
            /\ Forall (fun p =>
                 (1 <= PartNumber p
                  <= List.length (chunks (Z.to_nat chunksize) (buf w)))%nat)
                 (answered_parts (log w1 ++ tl))).
  { intros tl Htl. rewrite Hl1, !answered_parts_app, Htl, app_nil_r.
    cbn [answered_parts answered_part app]. split; [exact Hs|].
    eapply Forall_impl; [|exact Hr]. cbn. intros p Hp. lia. }
  intros _.
  destruct o1 as [l| | |]; cbn [snd];
    try (rewrite <- (app_nil_r (log w1)); now apply Fin).
  rewrite finish_run. destruct (upload_try l) as [t|];
    [|cbn [snd]; rewrite <- (app_nil_r (log w1)); now apply Fin].
  destruct (t >=? retry).
  - destruct (abort_multipart_upload client bucket obj uid (cst w1))
      as [[[]|] c']; cbn [snd emit log]; now apply Fin.
  - destruct (complete_multipart_upload client bucket uid obj (parts l)
                (cst w1)) as [[[]|] c']; cbn [snd emit log]; now apply Fin.
Qed.

Lemma chunks_fuel_nth (n fuel : nat) :
  forall (data : bytes) (k : nat) (chunk : bytes),
    (0 < n)%nat ->
    nth_error (chunks_fuel fuel n data) k = Some chunk ->
    (1 <= List.length chunk <= n)%nat
    /\ ((S k < List.length (chunks_fuel fuel n data))%nat ->
        List.length chunk = n).
Proof.
  induction fuel as [|f IH]; intros data k chunk Hn Hk;
    [destruct k; discriminate|].
  cbn [chunks_fuel] in *. destruct (firstn n data) as [|b c] eqn:E;
    [destruct k; discriminate|].
  destruct k as [|k]; cbn [nth_error List.length] in *.
  - injection Hk as <-. rewrite <- E. split.
    + split; [rewrite E; cbn; lia|apply firstn_le_length].
    + intros Hnext. rewrite length_firstn.
      destruct f as [|f]; [cbn in Hnext; lia|]. cbn [chunks_fuel] in Hnext.
      destruct (firstn n (skipn n data)) as [|b' c'] eqn:E';
        [cbn in Hnext; lia|].
      assert (List.length (skipn n data) <> 0)%nat.
      { intros Z0. apply length_zero_iff_nil in Z0. rewrite Z0 in E'.
        destruct n; discriminate. }
      rewrite length_skipn in *. lia.
  - destruct (IH (skipn n data) k chunk Hn Hk) as (H1 & H2).
    split; [exact H1|]. intros Hnext. apply H2. lia.
Qed.

(** X18. The parts are cut at the chunk size: every [upload_part] call of
    a run has a body of at least one and at most [chunksize] bytes, and
    every part but the last one has exactly [chunksize] bytes. *)
Theorem parts_are_full_but_the_last (w : world St)
    (args : upload_part_args) (r : response str) :
  log w = [] ->
  let run := do_upload client bucket obj chunksize secs retry w in
  In (upload_part_ev args r) (log (snd run)) ->
  1 <= Z.of_nat (List.length (up_Body args)) <= chunksize
  /\ up_ContentLength args = List.length (up_Body args)
  /\ ((up_PartNumber args
       < List.length (chunks (Z.to_nat chunksize) (buf w)))%nat ->
      Z.of_nat (List.length (up_Body args)) = chunksize).
Proof.
  intros Hlog. cbv zeta.
  destruct (do_upload_trace w Hlog)
    as (r0 & evs & tail & Hl & _ & Hargs & _ & _ & Hend).
  cbv zeta in Hl, Hargs, Hend. rewrite Hl. intros [X|Hin]; [discriminate|].
  apply in_app_or in Hin as [Hin|Hin].
  - destruct (Hargs args r Hin) as (uid & k & chunk & _ & Hk & ->).
    cbn [chunk_args up_Body up_ContentLength up_PartNumber].
    assert (Hc : 0 < chunksize).
    { destruct (Z.ltb_spec 0 chunksize) as [?|Hle]; [assumption|]. exfalso.
      unfold chunks in Hk. cbn [chunks_fuel] in Hk.
      replace (Z.to_nat chunksize) with 0%nat in Hk by lia.
      cbn in Hk. destruct k; discriminate. }
    destruct (chunks_fuel_nth (Z.to_nat chunksize) _ (buf w) k chunk
                ltac:(lia) Hk) as (H1 & H2).
    split; [lia|]. split; [reflexivity|]. intros Hlt.
    unfold chunks in Hlt. specialize (H2 Hlt). lia.
  - exfalso.
    destruct Hend as [(-> & _) | (uid & t & _ & _ & _ & _ & _ & Hcase)];
      [contradiction|].
    destruct Hcase as [(_ & r' & -> & _) | (_ & ps & r' & -> & _)];
      destruct Hin as [X|[]]; discriminate.
Qed.

End Trace.

(** ** The two ETag checks *)

Lemma md5_digest_length (msg : bytes) : List.length (md5_digest msg) = 16%nat.
Proof.
  unfold md5_digest, MD5.digest.
  destruct (MD5.blocks _ MD5.init _) as [[[a b] c] d].
  rewrite !length_app. unfold MD5.le_bytes.
  rewrite !length_map, !length_seq. reflexivity.
Qed.

Lemma hex_length (bs : bytes) : List.length (hex bs) = (2 * List.length bs)%nat.
Proof.
  induction bs as [|b bs IH]; [reflexivity|].
  cbn [hex flat_map hex_of_byte app List.length] in *.
  unfold hex in IH. rewrite IH. lia.
Qed.

Lemma hexdigest_length (h : md5_obj) : List.length (hexdigest h) = 32%nat.
Proof. unfold hexdigest, digest. now rewrite hex_length, md5_digest_length. Qed.

Lemma slice_1_m1_spec (s x : str) :
  x <> [] ->
  (slice_1_m1 s = x <-> exists c d, s = c :: x ++ [d]).
Proof.
  intros Hx. unfold slice_1_m1. split.
  - intros H. destruct s as [|c s]; [now cbn in H; subst x|].
    cbn [tl] in H. assert (Hs : s <> []).
    { intros ->. cbn in H. now subst x. }
    exists c, (last s c). rewrite <- H. f_equal.
    now apply app_removelast_last.
  - intros (c & d & ->). cbn [tl]. apply removelast_last.
Qed.

Lemma lstrip_split (p : ascii -> bool) (s : str) :
  exists pre, s = pre ++ lstrip p s /\ forallb p pre = true.
Proof.
  induction s as [|c s (pre & E & F)]; [now exists []|]. cbn [lstrip].
  destruct (p c) eqn:Hc.
  - exists (c :: pre). split; [cbn; now rewrite <- E|]. cbn.
    now rewrite Hc.
  - now exists [].
Qed.

Lemma strip_split (p : ascii -> bool) (s : str) :
  exists pre post,
    s = pre ++ strip p s ++ post
    /\ forallb p pre = true /\ forallb p post = true.
Proof.
  unfold strip, rstrip.
  destruct (lstrip_split p s) as (pre & E & F).
  destruct (lstrip_split p (rev (lstrip p s))) as (post & E' & F').
  exists pre, (rev post). split; [|split; [exact F|]].
  - rewrite E at 1. f_equal. rewrite <- (rev_involutive (lstrip p s)) at 1.
    rewrite E' at 1. now rewrite rev_app_distr.
  - rewrite forallb_forall in *. intros x Hx. apply F'.
    now apply in_rev.
Qed.

Lemma all_dquotes (s : str) :
  forallb is_dquote s = true -> s = repeat dquote (List.length s).
Proof.
  induction s as [|c s IH]; [reflexivity|]. cbn. intros H.
  apply andb_true_iff in H as [Hc Hs]. apply Ascii.eqb_eq in Hc.
  now rewrite Hc, <- IH.
Qed.

Lemma lstrip_dquotes (a : nat) (s : str) :
  lstrip is_dquote (repeat dquote a ++ s) = lstrip is_dquote s.
Proof. induction a as [|a IH]; [reflexivity|exact IH]. Qed.

Lemma rstrip_dquotes (b : nat) (s : str) :
  rstrip is_dquote (s ++ repeat dquote b) = rstrip is_dquote s.
Proof.
  induction b as [|b IH]; [now rewrite app_nil_r|].
  cbn [repeat]. rewrite repeat_cons, app_assoc, rstrip_drop by reflexivity.
  exact IH.
Qed.

Lemma strip_dquotes (a b : nat) (s : str) :
  clean_ends is_dquote s ->
  strip is_dquote (repeat dquote a ++ s ++ repeat dquote b) = s.
Proof.
  intros H. pose proof (strip_clean _ _ H) as Hs. unfold strip in *.
  rewrite lstrip_dquotes.
  destruct H as (c & s' & d & s'' & H1 & H2 & Hc & Hd).
  assert (L : forall t, lstrip is_dquote (s ++ t) = s ++ t).
  { intros t. rewrite H1. cbn. now rewrite Hc. }
  assert (Ls : lstrip is_dquote s = s)
    by (rewrite H1; cbn; now rewrite Hc).
  rewrite L, rstrip_dquotes. now rewrite Ls in Hs.
Qed.

Section Checks.

Context {St : Type}.
Variable client : S3Client St.
Variables bucket obj : str.
Variables chunksize secs retry : Z.

(** X8. An answered attempt is taken as a success exactly when the ETag
    of the answer is the 32-digit hexadecimal MD5 of the chunk with one
    character before it and one after it. The two characters are cut off
    unseen: they need not be double quotes, and a bare hexadecimal MD5 is
    rejected. *)
Theorem part_check_accepts_any_delimiters (uid : str) (chunk : bytes)
    (h : md5_obj) (l : locals) (t : Z) (w : world St) (etag : str)
    (c' : St) :
  upload_part client (part_args bucket obj uid chunk h l) (cst w)
  = (Ok etag, c') ->
  let accepted :=
    exists l' w',
      try_upload_part client bucket obj uid chunk h l t w
      = (Return (l', None), w') in
  (accepted <-> exists c d, etag = c :: hexdigest h ++ [d])
  /\ (accepted -> List.length etag = 34%nat)
  /\ (etag = hexdigest h -> ~ accepted).
Proof.
  intros Hr accepted.
  assert (Hne : hexdigest h <> []).
  { intros X. pose proof (hexdigest_length h) as L. now rewrite X in L. }
  assert (A : accepted <-> slice_1_m1 etag = hexdigest h).
  { unfold accepted. rewrite try_upload_part_run, Hr. cbn [fst snd].
    destruct (str_eqb (slice_1_m1 etag) (hexdigest h)) eqn:E.
    - apply str_eqb_spec in E. split; [intros _; exact E|]. eauto.
    - apply str_eqb_false in E. split; [|contradiction].
      intros (l' & w' & X). discriminate. }
  rewrite A, (slice_1_m1_spec etag _ Hne). split; [reflexivity|]. split.
  - intros (c & d & ->). cbn [List.length]. rewrite length_app.
    rewrite hexdigest_length. reflexivity.
  - intros -> (c & d & X). apply (f_equal (@List.length ascii)) in X.
    cbn [List.length] in X. rewrite length_app in X. cbn in X. lia.
Qed.

(** X9. [check_integrity] returns [True] exactly for the reported ETags
    that are the composite ETag with any number of double quotes, none
    included, before it and after it. *)
Theorem quotes_around_tag_ignored (hs : list md5_obj) (w : world St)
    (tag : str) (c' : St) :
  head_object client bucket obj (cst w) = (Ok tag, c') ->
  (fst (check_integrity client bucket obj hs w) = Return true
   <-> exists a b,
         tag = repeat dquote a ++ local_etag hs ++ repeat dquote b).
Proof.
  intros H. rewrite (check_integrity_found client bucket obj hs w tag c' H).
  cbn [fst]. split.
  - intros X. injection X as X. apply str_eqb_spec in X.
    destruct (strip_split is_dquote tag) as (pre & post & E & Fa & Fb).
    exists (List.length pre), (List.length post).
    rewrite <- (all_dquotes pre Fa), <- (all_dquotes post Fb), X.
    exact E.
  - intros (a & b & ->). f_equal. apply str_eqb_spec.
    now rewrite strip_dquotes by apply local_etag_clean_ends.
Qed.

(** A run of [upload] that ends with exit status 0 or 1 has completed
    the session and then asked for the metadata of the object, as its
    last two calls; the status is 0 exactly when the reported ETag,
    without its quotes, is the composite ETag of the chunks of the
    input. *)
Lemma upload_status_0_or_1 (w : world St) (n : Z) :
  log w = [] ->
  let run := upload client bucket obj chunksize secs retry w in
  fst run = SysExit n ->
  n = 0 \/ n = 1 ->
  exists uid evs ps tag,
    log (snd run)
    = create_ev bucket obj (Ok uid) :: evs
      ++ [complete_ev bucket uid obj ps (Ok tt);
          head_object_ev bucket obj (Ok tag)]
    /\ forallb is_loop_event evs = true
    /\ (n = 0 <->
        strip is_dquote tag
        = local_etag
            (map hashlib_md5 (chunks (Z.to_nat chunksize) (buf w)))).
Proof.
  intros Hlog. cbv zeta. rewrite upload_run.
  destruct (do_upload_cases client bucket obj chunksize secs retry w)
    as (evs0 & Hl & C).
  rewrite Hlog in Hl. cbn [app] in Hl.
  destruct (do_upload client bucket obj chunksize secs retry w) as [o w1].
  cbn [fst snd] in Hl, C. revert Hl.
  inversion C as [ | uid Hc | uid evs Hc Hs Hf | uid evs Hc Hd Hf
                 | uid evs r Hc Hd Hf | uid evs ps r Hc Hd Hf ];
    subst; clear C; intros Hl; cbn [fst snd].
  - intros X [-> | ->]; discriminate.
  - discriminate.
  - discriminate.
  - discriminate.
  - destruct r as [[]|]; cbn [fst]; intros X [-> | ->]; discriminate.
  - destruct r as [[]|]; cbn [fst snd];
      [|intros X [-> | ->]; discriminate].
    destruct (head_object client bucket obj (cst w1)) as [[tag|] c];
      cbn [fst snd emit log]; [|intros X [-> | ->]; discriminate].
    intros X _. exists uid, evs, ps, tag. rewrite Hl. cbn [app].
    rewrite <- app_assoc. split; [reflexivity|]. split; [exact Hf|].
    destruct (str_eqb _ (strip is_dquote tag)) eqn:E;
      injection X as <-.
    + apply str_eqb_spec in E. split; [now intros _|reflexivity].
    + apply str_eqb_false in E. split; [discriminate|].
      intros Y. now symmetry in Y.
Qed.

End Checks.

(** The exit statuses of [upload] once the client exists. *)
Lemma upload_statuses {St : Type} (client : S3Client St)
    (bucket obj : str) (chunksize secs retry : Z) (w : world St) (n : Z) :
  fst (upload client bucket obj chunksize secs retry w) = SysExit n ->
  n = 0 \/ n = 1 \/ n = 7 \/ n = 8.
Proof.
  rewrite upload_run.
  destruct (do_upload_cases client bucket obj chunksize secs retry w)
    as (evs0 & _ & C).
  destruct (do_upload client bucket obj chunksize secs retry w) as [o w1].
  cbn [fst] in C.
  inversion C as [ | uid Hc | uid evs Hc Hs Hf | uid evs Hc Hd Hf
                 | uid evs r Hc Hd Hf | uid evs ps r Hc Hd Hf ];
    subst; clear C; cbn [fst]; try discriminate.
  - intros X. injection X as <-. auto.
  - destruct r; cbn [fst]; intros X; [|discriminate].
    injection X as <-. auto.
  - destruct r; cbn [fst]; [|intros X; injection X as <-; auto].
    destruct (head_object client bucket obj (cst w1)) as [[tag|] c];
      cbn [fst]; intros X; injection X as <-; auto.
    destruct (str_eqb _ _); auto.
Qed.

(** ** The key file *)

Lemma split_not_nil (sep : ascii) (s : str) : Cli.split sep s <> [].
Proof.
  induction s as [|c s IH]; [discriminate|]. cbn [Cli.split].
  destruct (Ascii.eqb c sep); [discriminate|].
  destruct (Cli.split sep s); [contradiction|discriminate].
Qed.

Lemma join_split (sep : ascii) (s : str) :
  Cli.join sep (Cli.split sep s) = s
  /\ Forall (fun p => ~ In sep p) (Cli.split sep s).
Proof.
  induction s as [|c s (IHj & IHf)]; [split; [reflexivity|]|].
  { constructor; [intros []|constructor]. }
  cbn [Cli.split]. destruct (Ascii.eqb_spec c sep) as [->|Hc].
  - pose proof (split_not_nil sep s) as N.
    destruct (Cli.split sep s) as [|p ps] eqn:E; [contradiction|].
    split; [|constructor; [intros []|exact IHf]].
    change (Cli.join sep ([] :: p :: ps))
      with (sep :: Cli.join sep (p :: ps)). now rewrite IHj.
  - pose proof (split_not_nil sep s) as N.
    destruct (Cli.split sep s) as [|p ps] eqn:E; [contradiction|].
    inversion IHf as [|? ? Hp Hps]; subst. split.
    + destruct ps; reflexivity.
    + constructor; [|exact Hps]. intros [X|X]; [now apply Hc|now apply Hp].
Qed.

Lemma split_no_sep (sep : ascii) (s : str) :
  ~ In sep s -> Cli.split sep s = [s].
Proof.
  induction s as [|c s IH]; intros H; [reflexivity|]. cbn [Cli.split].
  destruct (Ascii.eqb_spec c sep) as [->|Hc]; [exfalso; apply H; now left|].
  rewrite IH; [reflexivity|]. intros X. apply H. now right.
Qed.

Lemma split_app_sep (sep : ascii) (k t : str) :
  ~ In sep k -> Cli.split sep (k ++ sep :: t) = k :: Cli.split sep t.
Proof.
  induction k as [|c k IH]; intros H.
  - cbn. now rewrite Ascii.eqb_refl.
  - cbn [app Cli.split].
    destruct (Ascii.eqb_spec c sep) as [->|Hc]; [exfalso; apply H; now left|].
    rewrite IH; [reflexivity|]. intros X. apply H. now right.
Qed.

Lemma split_two (sep : ascii) (s k t : str) :
  Cli.split sep s = [k; t]
  <-> s = k ++ sep :: t /\ ~ In sep k /\ ~ In sep t.
Proof.
  split.
  - intros E. destruct (join_split sep s) as (J & F). rewrite E in J, F.
    inversion F as [|? ? Hk F']; subst. inversion F' as [|? ? Ht _]; subst.
    repeat split; assumption || reflexivity.
  - intros (-> & Hk & Ht). now rewrite split_app_sep, split_no_sep.
Qed.

Lemma parse_keyfile_cases (text : str) :
  (forall k s,
      Cli.parse_keyfile (Some text) = Return (k, s)
      <-> Cli.split Cli.colon (strip Cli.is_blank text) = [k; s])
  /\ ((exists k s, Cli.parse_keyfile (Some text) = Return (k, s))
      \/ Cli.parse_keyfile (Some text) = SysExit 3).
Proof.
  unfold Cli.parse_keyfile. split.
  - intros k s.
    destruct (Cli.split Cli.colon (strip Cli.is_blank text))
      as [|a [|b [|c ps]]]; split; intros X; try discriminate;
      injection X as <- <-; reflexivity.
  - destruct (Cli.split Cli.colon (strip Cli.is_blank text))
      as [|a [|b [|c ps]]]; eauto.
Qed.

(** X10. [parse_keyfile] returns exactly when the text of the key file,
    without the blanks at its two ends, has one colon, and then it
    returns what stands before the colon and what stands after it,
    blanks next to the colon and empty strings included; on any other
    text it exits with status 3. *)
Theorem parse_keyfile_spec (text : str) :
  (forall k s,
      Cli.parse_keyfile (Some text) = Return (k, s)
      <-> strip Cli.is_blank text = k ++ Cli.colon :: s
          /\ ~ In Cli.colon k /\ ~ In Cli.colon s)
  /\ ((exists k s, Cli.parse_keyfile (Some text) = Return (k, s))
      \/ Cli.parse_keyfile (Some text) = SysExit 3).
Proof.
  unfold Cli.parse_keyfile. split.
  - intros k s. rewrite <- split_two.
    destruct (Cli.split Cli.colon (strip Cli.is_blank text))
      as [|a [|b [|c ps]]]; split; intros X; try discriminate;
      injection X as <- <-; reflexivity.
  - destruct (Cli.split Cli.colon (strip Cli.is_blank text))
      as [|a [|b [|c ps]]]; eauto.
Qed.

Lemma lstrip_all (p : ascii -> bool) (pre t : str) :
  forallb p pre = true -> lstrip p (pre ++ t) = lstrip p t.
Proof.
  induction pre as [|c pre IH]; [reflexivity|]. cbn. intros H.
  apply andb_true_iff in H as [-> H]. now apply IH.
Qed.

Lemma strip_padded (p : ascii -> bool) (pre x post : str) :
  forallb p pre = true -> forallb p post = true -> clean_ends p x ->
  strip p (pre ++ x ++ post) = x.
Proof.
  intros Hpre Hpost Hx. pose proof (strip_clean p x Hx) as Hs.
  destruct Hx as (c & x' & d & x'' & H1 & H2 & Hc & Hd).
  assert (L : forall t, lstrip p (x ++ t) = x ++ t)
    by (intros t; rewrite H1; cbn; now rewrite Hc).
  unfold strip in *. rewrite lstrip_all, L by assumption.
  unfold rstrip. rewrite rev_app_distr, lstrip_all.
  - rewrite H2, rev_app_distr. cbn. rewrite Hd. cbn.
    now rewrite rev_involutive.
  - rewrite forallb_forall in *. intros y Hy. apply Hpost.
    now apply in_rev.
Qed.

(** X11. A key id and a secret without colons, the key id not starting
    and the secret not ending with a blank, are read back from the text
    [key_id:secret], whatever blanks (spaces, tabs, line ends) stand
    before and after it in the file. *)
Theorem parse_keyfile_roundtrip (pre post key_id secret : str) :
  forallb Cli.is_blank pre = true ->
  forallb Cli.is_blank post = true ->
  ~ In Cli.colon key_id ->
  ~ In Cli.colon secret ->
  (forall c k', key_id = c :: k' -> Cli.is_blank c = false) ->
  (forall s' d, secret = s' ++ [d] -> Cli.is_blank d = false) ->
  Cli.parse_keyfile (Some (pre ++ (key_id ++ Cli.colon :: secret) ++ post))
  = Return (key_id, secret).
Proof.
  intros Hpre Hpost Hk Hs Hfirst Hlast. unfold Cli.parse_keyfile.
  rewrite strip_padded; try assumption;
    [now rewrite (proj2 (split_two Cli.colon _ key_id secret))|].
  assert (exists c x', key_id ++ Cli.colon :: secret = c :: x'
                       /\ Cli.is_blank c = false) as (c & x' & E1 & Hc).
  { destruct key_id as [|c k']; [now exists Cli.colon, secret|].
    exists c, (k' ++ Cli.colon :: secret). split; [reflexivity|].
    now apply (Hfirst c k'). }
  assert (exists x'' d, key_id ++ Cli.colon :: secret = x'' ++ [d]
                        /\ Cli.is_blank d = false) as (x'' & d & E2 & Hd).
  { destruct (exists_last (l := Cli.colon :: secret) ltac:(discriminate))
      as (s' & d & E).
    exists (key_id ++ s'), d. split; [now rewrite E, app_assoc|].
    destruct s' as [|c0 s'].
    - injection E as <- ->. reflexivity.
    - injection E as _ E. now apply (Hlast s' d). }
  exists c, x', d, x''. repeat split; assumption.
Qed.

(** ** The whole command *)

(** [check_file_or_stdin] lets a run go on when exactly one source of
    input is given: standard input that is not a terminal, or a file
    name other than ["-"]. *)
Lemma check_file_or_stdin_xor (isatty : bool) (infile : str) :
  let piped := negb isatty in
  let named := negb (str_eqb infile (lit "-")) in
  Cli.check_file_or_stdin isatty infile
  = if xorb piped named then Return piped else SysExit 1.
Proof.
  unfold Cli.check_file_or_stdin.
  destruct isatty, (str_eqb infile (lit "-")); reflexivity.
Qed.

Section WholeCommand.

Context {St : Type}.
Variable host : Cli.Host St.
Variables infile keyfile bucket obj : str.
Variables chunksize secs retry : Z.

Lemma cli_upload_cases :
  cli_case host infile keyfile bucket obj chunksize secs retry
    (fst (Cli.upload host infile keyfile bucket obj chunksize secs retry))
    (snd (Cli.upload host infile keyfile bucket obj chunksize secs retry)).
Proof.
  unfold Cli.upload. rewrite check_file_or_stdin_xor. cbv zeta.
  destruct (xorb (negb (Cli.stdin_isatty host))
              (negb (str_eqb infile (lit "-")))) eqn:Hx;
    [|now apply cli_bad_input].
  unfold Cli.create_client.
  destruct (Cli.read_text host keyfile) as [text|] eqn:Hfile;
    [|now apply cli_no_keyfile].
  destruct (Cli.parse_keyfile (Some text)) as [[k s]|n|e|] eqn:Hp.
  2:{ assert (n = 3).
      { destruct (proj2 (parse_keyfile_cases text)) as [(k & s & X)|X];
          congruence. }
      subst n. now apply cli_bad_keyfile with (text := text). }
  2,3: exfalso;
    destruct (proj2 (parse_keyfile_cases text)) as [(k & s & X)|X];
    congruence.
  assert (Hks : Cli.parse_keyfile (Cli.read_text host keyfile)
                = Return (k, s)) by now rewrite Hfile.
  destruct (Cli.boto3_client host k s) as [c0|];
    [|now apply cli_no_client].
  destruct (Cli.head_bucket host bucket c0) as [[[]|] c1];
    [|now apply cli_no_bucket].
  destruct (head_object (Cli.s3 host) bucket obj c1) as [[tag|] c2];
    [now apply cli_object_exists|].
  cbn [fst snd].
  assert (Session : forall data,
            Cli.selected_input host infile = Some data ->
            cli_case host infile keyfile bucket obj chunksize secs retry
              (fst (let '(o, w) :=
                      upload (Cli.s3 host) bucket obj chunksize secs retry
                        {| cst := c2; buf := data; log := [] |} in
                    (Cli.Ended o,
                     [Cli.client_ev k s true;
                      Cli.head_bucket_ev bucket (Ok tt);
                      Cli.call_ev (head_object_ev bucket obj ClientErr)]
                     ++ map Cli.call_ev (log w))))
              (snd (let '(o, w) :=
                      upload (Cli.s3 host) bucket obj chunksize secs retry
                        {| cst := c2; buf := data; log := [] |} in
                    (Cli.Ended o,
                     [Cli.client_ev k s true;
                      Cli.head_bucket_ev bucket (Ok tt);
                      Cli.call_ev (head_object_ev bucket obj ClientErr)]
                     ++ map Cli.call_ev (log w))))).
  { intros data Hd.
    pose proof (cli_session host infile keyfile bucket obj chunksize secs
                  retry k s c2 data Hks Hx Hd) as C. cbv zeta in C.
    destruct (upload (Cli.s3 host) bucket obj chunksize secs retry
                {| cst := c2; buf := data; log := [] |}) as [o w].
    exact C. }
  destruct (Cli.stdin_isatty host) eqn:Htty; cbn [negb].
  - assert (Hn : str_eqb infile (lit "-") = false)
      by (destruct (str_eqb infile (lit "-")); [discriminate|reflexivity]).
    unfold Cli.open_rb.
    destruct (Z.ltb_spec chunksize (- 2147483648)) as [Hlo|Hlo]; cbn [orb].
    { apply cli_no_file; auto. }
    destruct (Z.ltb_spec 2147483647 chunksize) as [Hhi|Hhi].
    { apply cli_no_file; auto. }
    destruct (Cli.read_binary host infile) as [data|] eqn:Hb.
    + apply Session. unfold Cli.selected_input. now rewrite Htty.
    + apply cli_no_file; auto.
  - apply Session. unfold Cli.selected_input. now rewrite Htty.
Qed.

(** X12. A run makes a session call (opening the session, uploading a
    part, completing or aborting) only after the whole set-up went
    through: the key file was parsed, the client built, the bucket found,
    the object found absent by [head_object] raising, and exactly one
    source of input given, which could be opened. *)
Theorem no_session_without_checks :
  let run := Cli.upload host infile keyfile bucket obj chunksize secs
               retry in
  existsb Cli.is_session_call (snd run) = true ->
  exists k s data rest,
    Cli.parse_keyfile (Cli.read_text host keyfile) = Return (k, s)
    /\ xorb (negb (Cli.stdin_isatty host))
         (negb (str_eqb infile (lit "-"))) = true
    /\ Cli.selected_input host infile = Some data
    /\ snd run
       = [Cli.client_ev k s true; Cli.head_bucket_ev bucket (Ok tt);
          Cli.call_ev (head_object_ev bucket obj ClientErr)] ++ rest.
Proof.
  cbv zeta. pose proof cli_upload_cases as C.
  destruct (Cli.upload host infile keyfile bucket obj chunksize secs retry)
    as [e lg]. cbn [fst snd] in *.
  inversion C; subst; try discriminate.
  intros _. exists k, s, data. eexists. repeat split; eassumption.
Qed.

(** X13. The exit statuses 2 to 6 each name one cause, and with any of
    them no session call was made: 2 the key file could not be read, 3
    its text is not [key_id:secret], 4 the client could not be built, 5
    [head_bucket] raised, 6 [head_object] answered, that is, the object
    exists already. *)
Theorem setup_exit_statuses (n : Z) :
  let run := Cli.upload host infile keyfile bucket obj chunksize secs
               retry in
  fst run = Cli.Ended (SysExit n) ->
  2 <= n <= 6 ->
  existsb Cli.is_session_call (snd run) = false
  /\ ((n = 2 /\ Cli.read_text host keyfile = None /\ snd run = [])
      \/ (n = 3 /\ snd run = []
          /\ exists text,
               Cli.read_text host keyfile = Some text
               /\ Cli.parse_keyfile (Some text) = SysExit 3)
      \/ (n = 4 /\ exists k s, snd run = [Cli.client_ev k s false])
      \/ (n = 5
          /\ exists k s,
               snd run = [Cli.client_ev k s true;
                          Cli.head_bucket_ev bucket ClientErr])
      \/ (n = 6
          /\ exists k s tag,
               snd run
               = [Cli.client_ev k s true; Cli.head_bucket_ev bucket (Ok tt);
                  Cli.call_ev (head_object_ev bucket obj (Ok tag))])).
Proof.
  cbv zeta. pose proof cli_upload_cases as C.
  destruct (Cli.upload host infile keyfile bucket obj chunksize secs retry)
    as [e lg]. cbn [fst snd] in *. intros -> Hn.
  inversion C as [ Hx | Hf | text Hf Hp | k s Hp | k s Hp | k s tag Hp
                 | | k s c data Hp Hx Hd run Ho Hl ]; subst;
    try lia;
    try (exfalso; apply upload_statuses in Ho; lia);
    (split; [reflexivity|]).
  - left. auto.
  - right; left. eauto.
  - right; right; left. eauto.
  - right; right; right; left. eauto.
  - right; right; right; right. eauto.
Qed.

(** X14. The input file is opened last. When a run ends with the
    uncaught error of opening it, it was to read a named file with
    standard input a terminal, the whole set-up had gone through and no
    session call was made; the error is [OverflowError] when the chunk
    size, passed on as the buffer size, does not fit a C [int], and
    [OSError] when the file cannot be opened. *)
Theorem input_file_opened_last (e : Cli.cli_exn) :
  let run := Cli.upload host infile keyfile bucket obj chunksize secs
               retry in
  fst run = Cli.Uncaught e ->
  Cli.stdin_isatty host = true
  /\ str_eqb infile (lit "-") = false
  /\ (exists k s,
        snd run
        = [Cli.client_ev k s true; Cli.head_bucket_ev bucket (Ok tt);
           Cli.call_ev (head_object_ev bucket obj ClientErr)])
  /\ ((e = Cli.OverflowError
       /\ (chunksize < - 2147483648 \/ 2147483647 < chunksize))
      \/ (e = Cli.OSError /\ Cli.read_binary host infile = None
          /\ - 2147483648 <= chunksize <= 2147483647)).
Proof.
  cbv zeta. pose proof cli_upload_cases as C.
  destruct (Cli.upload host infile keyfile bucket obj chunksize secs retry)
    as [e' lg]. cbn [fst snd] in *. intros ->.
  inversion C; subst. split; [assumption|]. split; [assumption|].
  split; [now exists k, s|assumption].
Qed.

(** X15. Exit status 0 is sound from end to end: the run then read the
    one source of input that was given, opened a session, completed it
    and, as its last call, got from [head_object] an ETag that, without
    its quotes, is the composite ETag of the chunks of that input. *)
Theorem exit_status_0_end_to_end :
  let run := Cli.upload host infile keyfile bucket obj chunksize secs
               retry in
  fst run = Cli.Ended (SysExit 0) ->
  exists k s data uid evs ps tag,
    Cli.selected_input host infile = Some data
    /\ snd run
       = [Cli.client_ev k s true; Cli.head_bucket_ev bucket (Ok tt);
          Cli.call_ev (head_object_ev bucket obj ClientErr)]
         ++ map Cli.call_ev
              (create_ev bucket obj (Ok uid) :: evs
               ++ [complete_ev bucket uid obj ps (Ok tt);
                   head_object_ev bucket obj (Ok tag)])
    /\ forallb is_loop_event evs = true
    /\ strip is_dquote tag
       = local_etag (map hashlib_md5 (chunks (Z.to_nat chunksize) data)).
Proof.
  cbv zeta. pose proof cli_upload_cases as C.
  destruct (Cli.upload host infile keyfile bucket obj chunksize secs retry)
    as [e lg]. cbn [fst snd] in *. intros ->.
  inversion C as [ | | | | | | | k s c data Hp Hx Hd run Ho Hl ]; subst.
  destruct (upload_status_0_or_1 (Cli.s3 host) bucket obj chunksize secs
              retry {| cst := c; buf := data; log := [] |} 0 eq_refl Ho
              (or_introl eq_refl)) as (uid & evs & ps & tag & Hl & Hf & Hv).
  exists k, s, data, uid, evs, ps, tag. fold run in Hl. rewrite Hl.
  split; [assumption|]. split; [reflexivity|]. split; [assumption|].
  now apply Hv.
Qed.

(** X16. Exit status 1 has two meanings that the status does not tell
    apart: no usable source of input, with no call made at all; or an
    object that was uploaded and completed but whose reported ETag is
    not the composite ETag of the chunks read, the object being left in
    the bucket. *)
Theorem exit_status_1_is_ambiguous :
  let run := Cli.upload host infile keyfile bucket obj chunksize secs
               retry in
  fst run = Cli.Ended (SysExit 1) ->
  (xorb (negb (Cli.stdin_isatty host))
     (negb (str_eqb infile (lit "-"))) = false
   /\ snd run = [])
  \/ exists k s data uid evs ps tag,
       Cli.selected_input host infile = Some data
       /\ snd run
          = [Cli.client_ev k s true; Cli.head_bucket_ev bucket (Ok tt);
             Cli.call_ev (head_object_ev bucket obj ClientErr)]
            ++ map Cli.call_ev
                 (create_ev bucket obj (Ok uid) :: evs
                  ++ [complete_ev bucket uid obj ps (Ok tt);
                      head_object_ev bucket obj (Ok tag)])
       /\ forallb is_loop_event evs = true
       /\ strip is_dquote tag
          <> local_etag
               (map hashlib_md5 (chunks (Z.to_nat chunksize) data)).
Proof.
  cbv zeta. pose proof cli_upload_cases as C.
  destruct (Cli.upload host infile keyfile bucket obj chunksize secs retry)
    as [e lg]. cbn [fst snd] in *. intros ->.
  inversion C as [ Hx | | | | | | | k s c data Hp Hx Hd run Ho Hl ]; subst.
  - left. now split.
  - right.
    destruct (upload_status_0_or_1 (Cli.s3 host) bucket obj chunksize secs
                retry {| cst := c; buf := data; log := [] |} 1 eq_refl Ho
                (or_intror eq_refl)) as (uid & evs & ps & tag & Hl & Hf & Hv).
    exists k, s, data, uid, evs, ps, tag. fold run in Hl. rewrite Hl.
    split; [assumption|]. split; [reflexivity|]. split; [assumption|].
    intros X. apply Hv in X. discriminate.
Qed.

End WholeCommand.

(** ** The further theorems at concrete runs *)

Lemma few_attempts_never_complete_witness :
  count is_complete
    (log (snd (run_do_upload (Mock.healthy etag_a_b) 1 5 1 [] (blit "ab"))))
  = 0%nat.
Proof.
  apply (few_attempts_never_complete (Mock.client (Mock.healthy etag_a_b))
           demo_bucket demo_key 1 5 1 (Mock.start [] (blit "ab")));
    [lia | reflexivity].
Defined.


Lemma upload_part_calls_carry_chunks_witness :
  exists uid k chunk,
    nth_error (chunks 1 (blit "ab")) k = Some chunk
    /\ chunk_args demo_bucket demo_key (lit "upload-1") 1 (blit "a")
       = chunk_args demo_bucket demo_key uid (S k) chunk.
Proof.
  destruct (upload_part_calls_carry_chunks
              (Mock.client (Mock.healthy etag_a_b)) demo_bucket demo_key
              1 5 3 (Mock.start [] (blit "ab"))
              (chunk_args demo_bucket demo_key (lit "upload-1") 1 (blit "a"))
              (Ok (quoted (lit "0cc175b9c0f1b6a831c399e269772661")))
              eq_refl)
    as (uid & k & chunk & _ & Hk & Ha).
  - vm_compute. do 2 right. left. reflexivity.
  - exists uid, k, chunk. split; [exact Hk | exact Ha].
Defined.

Lemma attempts_per_part_bounded_witness :
  (count (is_part 1)
     (log (snd (run_do_upload (Mock.healthy etag_a_b) 1 5 3
                  [Mock.Fail; Mock.Fail; Mock.Fail; Mock.Fail]
                  (blit "ab"))))
   <= 3)%nat.
Proof.
  apply (attempts_per_part_bounded (Mock.client (Mock.healthy etag_a_b))
           demo_bucket demo_key 1 5 3
           (Mock.start [Mock.Fail; Mock.Fail; Mock.Fail; Mock.Fail]
              (blit "ab")) 1%nat eq_refl).
Defined.



Lemma abort_or_complete_once_and_last_witness :
  (count is_abort
     (log (snd (run_do_upload (Mock.healthy etag_a_b) 1 5 1 [] (blit "ab"))))
   + count is_complete
       (log (snd (run_do_upload (Mock.healthy etag_a_b) 1 5 1 []
                    (blit "ab"))))
   <= 1)%nat.
Proof.
  apply (abort_or_complete_once_and_last
           (Mock.client (Mock.healthy etag_a_b)) demo_bucket demo_key
           1 5 1 (Mock.start [] (blit "ab")) eq_refl).
Defined.

Lemma completion_list_in_part_order_witness :
  StronglySorted le
    (map PartNumber
       [ {| PartNumber := 1; ETag := Mock.wrong_tag |};
         {| PartNumber := 1;
            ETag := quoted (lit "900150983cd24fb0d6963f7d28e17f72") |} ]).
Proof.
  apply (completion_list_in_part_order
           (Mock.client (Mock.healthy etag_a_b)) demo_bucket demo_key
           8 5 3 (Mock.start [Mock.WrongTag] (blit "abc"))
           demo_bucket (lit "upload-1") demo_key _ (Ok tt) eq_refl).
  vm_compute. do 6 right. left. reflexivity.
Defined.

Lemma part_check_accepts_any_delimiters_witness :
  exists l' w',
    try_upload_part (Mock.client (Mock.healthy etag_a_b)) demo_bucket
      demo_key (lit "upload-1") (blit "abc") (hashlib_md5 (blit "abc"))
      (next_chunk initial_locals (blit "abc")) 0 (Mock.start [] [])
    = (Return (l', None), w').
Proof.
  apply (proj2 (proj1 (part_check_accepts_any_delimiters
                         (Mock.client (Mock.healthy etag_a_b))
                         demo_bucket demo_key (lit "upload-1") (blit "abc")
                         (hashlib_md5 (blit "abc"))
                         (next_chunk initial_locals (blit "abc")) 0
                         (Mock.start [] [])
                         (quoted (hexdigest (hashlib_md5 (blit "abc")))) []
                         eq_refl))).
  exists dquote, dquote. reflexivity.
Defined.

Lemma quotes_around_tag_ignored_witness :
  fst (check_integrity (Mock.client (Mock.healthy etag_a_b)) demo_bucket
         demo_key [hashlib_md5 (blit "a"); hashlib_md5 (blit "b")]
         (Mock.start [] []))
  = Return true.
Proof.
  apply (proj2 (quotes_around_tag_ignored
                  (Mock.client (Mock.healthy etag_a_b)) demo_bucket
                  demo_key [hashlib_md5 (blit "a"); hashlib_md5 (blit "b")]
                  (Mock.start [] []) etag_a_b [] eq_refl)).
  exists 1%nat, 1%nat. vm_compute. reflexivity.
Defined.

Lemma parse_keyfile_roundtrip_witness :
  Cli.parse_keyfile
    (Some (lit " " ++ (lit "AKIA" ++ Cli.colon :: lit "s3cr3t")
           ++ ["010"%char]))
  = Return (lit "AKIA", lit "s3cr3t").
Proof.
  apply (parse_keyfile_roundtrip (lit " ") ["010"%char] (lit "AKIA")
           (lit "s3cr3t")).
  - reflexivity.
  - reflexivity.
  - intros H. repeat (destruct H as [H|H]; [discriminate|]). exact H.
  - intros H. repeat (destruct H as [H|H]; [discriminate|]). exact H.
  - intros c k' E. injection E as <- _. reflexivity.
  - intros s' d E.
    change (lit "s3cr3t") with (lit "s3cr3" ++ ["t"%char]) in E.
    apply app_inj_tail in E as [_ <-]. reflexivity.
Defined.

Lemma no_session_without_checks_witness :
  exists k s data rest,
    Cli.parse_keyfile (Some (lit "AKIA:s3cr3t")) = Return (k, s)
    /\ data = blit "ab"
    /\ snd (Cli.upload
              (Cli.demo_host (Mock.healthy etag_a_b) [] false (blit "ab")
                 (Some (lit "AKIA:s3cr3t")) None true false)
              (lit "-") (lit "keys") demo_bucket demo_key 1 5 3)
       = [Cli.client_ev k s true; Cli.head_bucket_ev demo_bucket (Ok tt);
          Cli.call_ev (head_object_ev demo_bucket demo_key ClientErr)]
         ++ rest.
Proof.
  destruct (no_session_without_checks
              (Cli.demo_host (Mock.healthy etag_a_b) [] false (blit "ab")
                 (Some (lit "AKIA:s3cr3t")) None true false)
              (lit "-") (lit "keys") demo_bucket demo_key 1 5 3)
    as (k & s & data & rest & Hp & _ & Hd & Hl).
  - vm_compute. reflexivity.
  - exists k, s, data, rest. split; [exact Hp|]. split; [|exact Hl].
    now injection Hd as <-.
Defined.

Lemma setup_exit_statuses_witness :
  existsb Cli.is_session_call
    (snd (Cli.upload
            (Cli.demo_host (Mock.healthy etag_a_b) [] false (blit "ab")
               (Some (lit "AKIA:s3cr3t")) None true true)
            (lit "-") (lit "keys") demo_bucket demo_key 1 5 3))
  = false.
Proof.
  apply (setup_exit_statuses
           (Cli.demo_host (Mock.healthy etag_a_b) [] false (blit "ab")
              (Some (lit "AKIA:s3cr3t")) None true true)
           (lit "-") (lit "keys") demo_bucket demo_key 1 5 3 6);
    [reflexivity | lia].
Defined.

Lemma input_file_opened_last_witness :
  exists k s,
    snd (Cli.upload
           (Cli.demo_host (Mock.healthy etag_a_b) [] true []
              (Some (lit "AKIA:s3cr3t")) None true false)
           (lit "nofile") (lit "keys") demo_bucket demo_key 1 5 3)
    = [Cli.client_ev k s true; Cli.head_bucket_ev demo_bucket (Ok tt);
       Cli.call_ev (head_object_ev demo_bucket demo_key ClientErr)].
Proof.
  apply (input_file_opened_last
           (Cli.demo_host (Mock.healthy etag_a_b) [] true []
              (Some (lit "AKIA:s3cr3t")) None true false)
           (lit "nofile") (lit "keys") demo_bucket demo_key 1 5 3
           Cli.OSError).
  reflexivity.
Defined.

Lemma exit_status_0_end_to_end_witness :
  exists data tag,
    data = blit "ab"
    /\ strip is_dquote tag
       = local_etag (map hashlib_md5 (chunks 1 data)).
Proof.
  destruct (exit_status_0_end_to_end
              (Cli.demo_host (Mock.healthy etag_a_b) [] false (blit "ab")
                 (Some (lit "AKIA:s3cr3t")) None true false)
              (lit "-") (lit "keys") demo_bucket demo_key 1 5 3)
    as (k & s & data & uid & evs & ps & tag & Hd & _ & _ & Hv).
  - vm_compute. reflexivity.
  - exists data, tag. split; [now injection Hd as <- | exact Hv].
Defined.

Lemma exit_status_1_is_ambiguous_witness :
  snd (Cli.upload
         (Cli.demo_host (Mock.healthy etag_a_b) [] true []
            (Some (lit "AKIA:s3cr3t")) None true false)
         (lit "-") (lit "keys") demo_bucket demo_key 1 5 3) = [].
Proof.
  destruct (exit_status_1_is_ambiguous
              (Cli.demo_host (Mock.healthy etag_a_b) [] true []
                 (Some (lit "AKIA:s3cr3t")) None true false)
              (lit "-") (lit "keys") demo_bucket demo_key 1 5 3)
    as [(_ & H) | (k & s & data & uid & evs & ps & tag & Hd & _)].
  - vm_compute. reflexivity.
  - exact H.
  - vm_compute in Hd. discriminate Hd.
Defined.

Lemma parts_are_full_but_the_last_witness :
  1 <= Z.of_nat (List.length (blit "ab")) <= 2
  /\ Z.of_nat (List.length (blit "ab")) = 2.
Proof.
  refine ((fun H => conj (proj1 H) (proj2 (proj2 H) _))
            (parts_are_full_but_the_last
           (Mock.client (Mock.healthy etag_a_b)) demo_bucket demo_key
           2 5 3 (Mock.start [] (blit "abc"))
           (chunk_args demo_bucket demo_key (lit "upload-1") 1 (blit "ab"))
           (Ok (quoted (lit "187ef4436122d1cc2f40dc2b92f0eba0")))
           eq_refl _)).
  - vm_compute. lia.
  - vm_compute. do 2 right. left. reflexivity.
Defined.
